(** * Te Peguei!: the detection core of the anti-theft alarm

    A shallow embedding of the application component (the arming state
    machine, the sensor reading handlers, the siren and the incident log)
    and the properties its specification states about them.

    JavaScript numbers are IEEE 754 binary64 values: they are modelled by
    Rocq's primitive floats, whose operations round the same way, so
    [a > b] in the source is [b <? a] here and [Math.sqrt], [Math.abs] are
    [sqrt], [abs].  Text is modelled by [string], one character for one
    UTF-16 code unit: accented letters of the Portuguese messages are
    written without their accent, which keeps every length and every
    separator position of the original text. *)

From Stdlib Require Import Bool List String Ascii NArith PArith Lia.
From Stdlib Require Import DecimalString.
From Stdlib Require Import Floats.PrimFloat.
From Stdlib Require Floats.FloatAxioms Floats.SpecFloat ZArith.
Import ListNotations.

#[local] Set Warnings "-inexact-float".
#[local] Open Scope string_scope.
#[local] Open Scope float_scope.

(** ** Constants *)

Definition MOTION_THRESHOLD : float := 0.6.
Definition GYROSCOPE_THRESHOLD : float := 0.7.
Definition LIGHT_CHANGE_THRESHOLD_LUX : float := 50.
Definition PROXIMITY_FALLBACK_THRESHOLD_CM : float := 5.
Definition MAGNETOMETER_CHANGE_THRESHOLD_UT : float := 20.
Definition BAROMETER_CHANGE_THRESHOLD_PA : float := 20.

Definition ARMING_DELAY_MS : N := 3000.
Definition ALARM_SOUND_INTERVAL_MS : N := 1000.

(** ** Data *)

(** [LogEntry] of types.ts.  [timestamp] keeps the instant that
    [toLocaleString('pt-BR')] renders. *)
Record Coordinates : Type := mkCoordinates {
  latitude : float;
  longitude : float;
  accuracy : float
}.

Record LogEntry : Type := mkLogEntry {
  id : string;
  timestamp : N;
  message : string;
  coordinates : option Coordinates
}.

(** A three-axis reading, as kept in [lastAccelRef] and
    [lastMagnetometerReadingRef]. *)
Record Vec3 : Type := mkVec3 { vx : float; vy : float; vz : float }.

(** What a sensor object or event exposes: every axis may be [null]. *)
Record Axes : Type := mkAxes {
  ax : option float;
  ay : option float;
  az : option float
}.

Inductive AudioContextState : Type := suspended | running | closed.

(** The callbacks the component hands to [setTimeout] and [setInterval]. *)
Inductive Timer : Type :=
| ArmingTimeout        (* toggleService, after ARMING_DELAY_MS *)
| AlarmInterval        (* startAlarmSound, every ALARM_SOUND_INTERVAL_MS *)
| ActivationLogTimeout (* the activation effect, after 0 ms *).

(** The reading handlers the sensor effects attach. *)
Inductive SensorKind : Type :=
| Accelerometer | GyroscopeSensor | Proximity | ProximityLegacy
| AmbientLight | MagnetometerSensor | BarometerSensor.

(** The [error] a sensor hands to [handleSensorPermissionError]: its
    [name] and its [message], empty when the member is missing (a missing
    member and an empty text are both falsy, which is all the source
    asks). *)
Record SensorError : Type := mkSensorError {
  errName : string;
  errMessage : string
}.

(** What the page finds in its host: the members of [window] and
    [navigator] it probes, and the engine's [Number.prototype.toFixed],
    whose digits are left to the host.  [audioContextCtor] is the state a
    new [AudioContext] starts in, or [None] when the constructor throws.
    [motionNeedsPermission] says that [DeviceMotionEvent.requestPermission]
    is a function (iOS).  For each sensor of the Generic Sensor API, the
    [...Fails] member is what the [try] block of its effect throws (from
    the constructor or from [start]), or [None] when the sensor starts.
    [locationProtocol] and [locationHostname] are those of
    [window.location]. *)
Record Platform : Type := mkPlatform {
  audioContextCtor : option AudioContextState;
  hasGeolocation : bool;
  hasDeviceMotion : bool;
  hasGyroscope : bool;
  hasProximitySensor : bool;
  hasDeviceProximity : bool;
  hasAmbientLightSensor : bool;
  hasMagnetometer : bool;
  hasBarometer : bool;
  numberToFixed : nat -> float -> string;
  motionNeedsPermission : bool;
  gyroscopeFails : option SensorError;
  proximitySensorFails : option SensorError;
  ambientLightSensorFails : option SensorError;
  magnetometerFails : option SensorError;
  barometerFails : option SensorError;
  locationProtocol : string;
  locationHostname : string
}.

(** The component: its [useState] cells, its [useRef] cells, and the part of
    the browser its callbacks act on (the clock read by [Date.now], the
    pending timers, the sounding oscillators, the pending position requests
    and the attached reading handlers).  [activationLogCleanup] is the
    timer the activation effect asked React to clear on its next run.
    The callbacks are closures of a render: [renderedVolume] is the
    [alarmVolume] of the last committed render, which the attached handlers
    and the buttons of the controls were made with, and [sirenVolume] is
    the [alarmVolume] of the render whose [startAlarmSound] started the
    siren, which the repeat timer of the siren keeps. *)
Record App : Type := mkApp {
  isServiceActive : bool;
  isArming : bool;
  alarmVolume : float;
  logs : list LogEntry;
  isAlarmPlaying : bool;
  errorMessage : option string;
  supportedSensors : list string;
  lastAccelRef : option Vec3;
  armingTimeoutRef : option positive;
  audioContextRef : option AudioContextState;
  oscillatorRef : option positive;
  gainNodeRef : option positive;
  alarmIntervalRef : option positive;
  lastIlluminanceRef : option float;
  lastMagnetometerReadingRef : option Vec3;
  lastPressureRef : option float;
  isAlarmPlayingRef : bool;
  isServiceActiveRef : bool;
  isArmingRef : bool;
  supportedSensorsRef : list string;
  prevIsArmingRef : option bool;
  hasLoggedActivationRef : bool;
  activationLogCleanup : option positive;
  listeners : list SensorKind;
  clock : N;
  timers : list (positive * Timer);
  nextHandle : positive;
  playing : list (positive * float);
  burstsPlayed : nat;
  geolocationPending : list string;
  renderedVolume : float;
  sirenVolume : float;
  platform : Platform
}.

Definition setIsServiceActive (v : bool) (s : App) : App :=
  mkApp v (s.(isArming)) (s.(alarmVolume)) (s.(logs)) (s.(isAlarmPlaying))
    (s.(errorMessage)) (s.(supportedSensors)) (s.(lastAccelRef))
    (s.(armingTimeoutRef)) (s.(audioContextRef)) (s.(oscillatorRef))
    (s.(gainNodeRef)) (s.(alarmIntervalRef)) (s.(lastIlluminanceRef))
    (s.(lastMagnetometerReadingRef)) (s.(lastPressureRef))
    (s.(isAlarmPlayingRef)) (s.(isServiceActiveRef)) (s.(isArmingRef))
    (s.(supportedSensorsRef)) (s.(prevIsArmingRef))
    (s.(hasLoggedActivationRef)) (s.(activationLogCleanup)) (s.(listeners))
    (s.(clock)) (s.(timers)) (s.(nextHandle)) (s.(playing)) (s.(burstsPlayed))
    (s.(geolocationPending)) (s.(renderedVolume)) (s.(sirenVolume))
    (s.(platform)).
Definition setIsArming (v : bool) (s : App) : App :=
  mkApp (s.(isServiceActive)) v (s.(alarmVolume)) (s.(logs))
    (s.(isAlarmPlaying)) (s.(errorMessage)) (s.(supportedSensors))
    (s.(lastAccelRef)) (s.(armingTimeoutRef)) (s.(audioContextRef))
    (s.(oscillatorRef)) (s.(gainNodeRef)) (s.(alarmIntervalRef))
    (s.(lastIlluminanceRef)) (s.(lastMagnetometerReadingRef))
    (s.(lastPressureRef)) (s.(isAlarmPlayingRef)) (s.(isServiceActiveRef))
    (s.(isArmingRef)) (s.(supportedSensorsRef)) (s.(prevIsArmingRef))
    (s.(hasLoggedActivationRef)) (s.(activationLogCleanup)) (s.(listeners))
    (s.(clock)) (s.(timers)) (s.(nextHandle)) (s.(playing)) (s.(burstsPlayed))
    (s.(geolocationPending)) (s.(renderedVolume)) (s.(sirenVolume))
    (s.(platform)).
Definition setAlarmVolume (v : float) (s : App) : App :=
  mkApp (s.(isServiceActive)) (s.(isArming)) v (s.(logs)) (s.(isAlarmPlaying))
    (s.(errorMessage)) (s.(supportedSensors)) (s.(lastAccelRef))
    (s.(armingTimeoutRef)) (s.(audioContextRef)) (s.(oscillatorRef))
    (s.(gainNodeRef)) (s.(alarmIntervalRef)) (s.(lastIlluminanceRef))
    (s.(lastMagnetometerReadingRef)) (s.(lastPressureRef))
    (s.(isAlarmPlayingRef)) (s.(isServiceActiveRef)) (s.(isArmingRef))
    (s.(supportedSensorsRef)) (s.(prevIsArmingRef))
    (s.(hasLoggedActivationRef)) (s.(activationLogCleanup)) (s.(listeners))
    (s.(clock)) (s.(timers)) (s.(nextHandle)) (s.(playing)) (s.(burstsPlayed))
    (s.(geolocationPending)) (s.(renderedVolume)) (s.(sirenVolume))
    (s.(platform)).
Definition setLogs (v : list LogEntry) (s : App) : App :=
  mkApp (s.(isServiceActive)) (s.(isArming)) (s.(alarmVolume)) v
    (s.(isAlarmPlaying)) (s.(errorMessage)) (s.(supportedSensors))
    (s.(lastAccelRef)) (s.(armingTimeoutRef)) (s.(audioContextRef))
    (s.(oscillatorRef)) (s.(gainNodeRef)) (s.(alarmIntervalRef))
    (s.(lastIlluminanceRef)) (s.(lastMagnetometerReadingRef))
    (s.(lastPressureRef)) (s.(isAlarmPlayingRef)) (s.(isServiceActiveRef))
    (s.(isArmingRef)) (s.(supportedSensorsRef)) (s.(prevIsArmingRef))
    (s.(hasLoggedActivationRef)) (s.(activationLogCleanup)) (s.(listeners))
    (s.(clock)) (s.(timers)) (s.(nextHandle)) (s.(playing)) (s.(burstsPlayed))
    (s.(geolocationPending)) (s.(renderedVolume)) (s.(sirenVolume))
    (s.(platform)).
Definition setIsAlarmPlaying (v : bool) (s : App) : App :=
  mkApp (s.(isServiceActive)) (s.(isArming)) (s.(alarmVolume)) (s.(logs)) v
    (s.(errorMessage)) (s.(supportedSensors)) (s.(lastAccelRef))
    (s.(armingTimeoutRef)) (s.(audioContextRef)) (s.(oscillatorRef))
    (s.(gainNodeRef)) (s.(alarmIntervalRef)) (s.(lastIlluminanceRef))
    (s.(lastMagnetometerReadingRef)) (s.(lastPressureRef))
    (s.(isAlarmPlayingRef)) (s.(isServiceActiveRef)) (s.(isArmingRef))
    (s.(supportedSensorsRef)) (s.(prevIsArmingRef))
    (s.(hasLoggedActivationRef)) (s.(activationLogCleanup)) (s.(listeners))
    (s.(clock)) (s.(timers)) (s.(nextHandle)) (s.(playing)) (s.(burstsPlayed))
    (s.(geolocationPending)) (s.(renderedVolume)) (s.(sirenVolume))
    (s.(platform)).
Definition setErrorMessage (v : option string) (s : App) : App :=
  mkApp (s.(isServiceActive)) (s.(isArming)) (s.(alarmVolume)) (s.(logs))
    (s.(isAlarmPlaying)) v (s.(supportedSensors)) (s.(lastAccelRef))
    (s.(armingTimeoutRef)) (s.(audioContextRef)) (s.(oscillatorRef))
    (s.(gainNodeRef)) (s.(alarmIntervalRef)) (s.(lastIlluminanceRef))
    (s.(lastMagnetometerReadingRef)) (s.(lastPressureRef))
    (s.(isAlarmPlayingRef)) (s.(isServiceActiveRef)) (s.(isArmingRef))
    (s.(supportedSensorsRef)) (s.(prevIsArmingRef))
    (s.(hasLoggedActivationRef)) (s.(activationLogCleanup)) (s.(listeners))
    (s.(clock)) (s.(timers)) (s.(nextHandle)) (s.(playing)) (s.(burstsPlayed))
    (s.(geolocationPending)) (s.(renderedVolume)) (s.(sirenVolume))
    (s.(platform)).
Definition setSupportedSensors (v : list string) (s : App) : App :=
  mkApp (s.(isServiceActive)) (s.(isArming)) (s.(alarmVolume)) (s.(logs))
    (s.(isAlarmPlaying)) (s.(errorMessage)) v (s.(lastAccelRef))
    (s.(armingTimeoutRef)) (s.(audioContextRef)) (s.(oscillatorRef))
    (s.(gainNodeRef)) (s.(alarmIntervalRef)) (s.(lastIlluminanceRef))
    (s.(lastMagnetometerReadingRef)) (s.(lastPressureRef))
    (s.(isAlarmPlayingRef)) (s.(isServiceActiveRef)) (s.(isArmingRef))
    (s.(supportedSensorsRef)) (s.(prevIsArmingRef))
    (s.(hasLoggedActivationRef)) (s.(activationLogCleanup)) (s.(listeners))
    (s.(clock)) (s.(timers)) (s.(nextHandle)) (s.(playing)) (s.(burstsPlayed))
    (s.(geolocationPending)) (s.(renderedVolume)) (s.(sirenVolume))
    (s.(platform)).
Definition set_lastAccelRef (v : option Vec3) (s : App) : App :=
  mkApp (s.(isServiceActive)) (s.(isArming)) (s.(alarmVolume)) (s.(logs))
    (s.(isAlarmPlaying)) (s.(errorMessage)) (s.(supportedSensors)) v
    (s.(armingTimeoutRef)) (s.(audioContextRef)) (s.(oscillatorRef))
    (s.(gainNodeRef)) (s.(alarmIntervalRef)) (s.(lastIlluminanceRef))
    (s.(lastMagnetometerReadingRef)) (s.(lastPressureRef))
    (s.(isAlarmPlayingRef)) (s.(isServiceActiveRef)) (s.(isArmingRef))
    (s.(supportedSensorsRef)) (s.(prevIsArmingRef))
    (s.(hasLoggedActivationRef)) (s.(activationLogCleanup)) (s.(listeners))
    (s.(clock)) (s.(timers)) (s.(nextHandle)) (s.(playing)) (s.(burstsPlayed))
    (s.(geolocationPending)) (s.(renderedVolume)) (s.(sirenVolume))
    (s.(platform)).
Definition set_armingTimeoutRef (v : option positive) (s : App) : App :=
  mkApp (s.(isServiceActive)) (s.(isArming)) (s.(alarmVolume)) (s.(logs))
    (s.(isAlarmPlaying)) (s.(errorMessage)) (s.(supportedSensors))
    (s.(lastAccelRef)) v (s.(audioContextRef)) (s.(oscillatorRef))
    (s.(gainNodeRef)) (s.(alarmIntervalRef)) (s.(lastIlluminanceRef))
    (s.(lastMagnetometerReadingRef)) (s.(lastPressureRef))
    (s.(isAlarmPlayingRef)) (s.(isServiceActiveRef)) (s.(isArmingRef))
    (s.(supportedSensorsRef)) (s.(prevIsArmingRef))
    (s.(hasLoggedActivationRef)) (s.(activationLogCleanup)) (s.(listeners))
    (s.(clock)) (s.(timers)) (s.(nextHandle)) (s.(playing)) (s.(burstsPlayed))
    (s.(geolocationPending)) (s.(renderedVolume)) (s.(sirenVolume))
    (s.(platform)).
Definition set_audioContextRef (v : option AudioContextState) (s : App) : App :=
  mkApp (s.(isServiceActive)) (s.(isArming)) (s.(alarmVolume)) (s.(logs))
    (s.(isAlarmPlaying)) (s.(errorMessage)) (s.(supportedSensors))
    (s.(lastAccelRef)) (s.(armingTimeoutRef)) v (s.(oscillatorRef))
    (s.(gainNodeRef)) (s.(alarmIntervalRef)) (s.(lastIlluminanceRef))
    (s.(lastMagnetometerReadingRef)) (s.(lastPressureRef))
    (s.(isAlarmPlayingRef)) (s.(isServiceActiveRef)) (s.(isArmingRef))
    (s.(supportedSensorsRef)) (s.(prevIsArmingRef))
    (s.(hasLoggedActivationRef)) (s.(activationLogCleanup)) (s.(listeners))
    (s.(clock)) (s.(timers)) (s.(nextHandle)) (s.(playing)) (s.(burstsPlayed))
    (s.(geolocationPending)) (s.(renderedVolume)) (s.(sirenVolume))
    (s.(platform)).
Definition set_oscillatorRef (v : option positive) (s : App) : App :=
  mkApp (s.(isServiceActive)) (s.(isArming)) (s.(alarmVolume)) (s.(logs))
    (s.(isAlarmPlaying)) (s.(errorMessage)) (s.(supportedSensors))
    (s.(lastAccelRef)) (s.(armingTimeoutRef)) (s.(audioContextRef)) v
    (s.(gainNodeRef)) (s.(alarmIntervalRef)) (s.(lastIlluminanceRef))
    (s.(lastMagnetometerReadingRef)) (s.(lastPressureRef))
    (s.(isAlarmPlayingRef)) (s.(isServiceActiveRef)) (s.(isArmingRef))
    (s.(supportedSensorsRef)) (s.(prevIsArmingRef))
    (s.(hasLoggedActivationRef)) (s.(activationLogCleanup)) (s.(listeners))
    (s.(clock)) (s.(timers)) (s.(nextHandle)) (s.(playing)) (s.(burstsPlayed))
    (s.(geolocationPending)) (s.(renderedVolume)) (s.(sirenVolume))
    (s.(platform)).
Definition set_gainNodeRef (v : option positive) (s : App) : App :=
  mkApp (s.(isServiceActive)) (s.(isArming)) (s.(alarmVolume)) (s.(logs))
    (s.(isAlarmPlaying)) (s.(errorMessage)) (s.(supportedSensors))
    (s.(lastAccelRef)) (s.(armingTimeoutRef)) (s.(audioContextRef))
    (s.(oscillatorRef)) v (s.(alarmIntervalRef)) (s.(lastIlluminanceRef))
    (s.(lastMagnetometerReadingRef)) (s.(lastPressureRef))
    (s.(isAlarmPlayingRef)) (s.(isServiceActiveRef)) (s.(isArmingRef))
    (s.(supportedSensorsRef)) (s.(prevIsArmingRef))
    (s.(hasLoggedActivationRef)) (s.(activationLogCleanup)) (s.(listeners))
    (s.(clock)) (s.(timers)) (s.(nextHandle)) (s.(playing)) (s.(burstsPlayed))
    (s.(geolocationPending)) (s.(renderedVolume)) (s.(sirenVolume))
    (s.(platform)).
Definition set_alarmIntervalRef (v : option positive) (s : App) : App :=
  mkApp (s.(isServiceActive)) (s.(isArming)) (s.(alarmVolume)) (s.(logs))
    (s.(isAlarmPlaying)) (s.(errorMessage)) (s.(supportedSensors))
    (s.(lastAccelRef)) (s.(armingTimeoutRef)) (s.(audioContextRef))
    (s.(oscillatorRef)) (s.(gainNodeRef)) v (s.(lastIlluminanceRef))
    (s.(lastMagnetometerReadingRef)) (s.(lastPressureRef))
    (s.(isAlarmPlayingRef)) (s.(isServiceActiveRef)) (s.(isArmingRef))
    (s.(supportedSensorsRef)) (s.(prevIsArmingRef))
    (s.(hasLoggedActivationRef)) (s.(activationLogCleanup)) (s.(listeners))
    (s.(clock)) (s.(timers)) (s.(nextHandle)) (s.(playing)) (s.(burstsPlayed))
    (s.(geolocationPending)) (s.(renderedVolume)) (s.(sirenVolume))
    (s.(platform)).
Definition set_lastIlluminanceRef (v : option float) (s : App) : App :=
  mkApp (s.(isServiceActive)) (s.(isArming)) (s.(alarmVolume)) (s.(logs))
    (s.(isAlarmPlaying)) (s.(errorMessage)) (s.(supportedSensors))
    (s.(lastAccelRef)) (s.(armingTimeoutRef)) (s.(audioContextRef))
    (s.(oscillatorRef)) (s.(gainNodeRef)) (s.(alarmIntervalRef)) v
    (s.(lastMagnetometerReadingRef)) (s.(lastPressureRef))
    (s.(isAlarmPlayingRef)) (s.(isServiceActiveRef)) (s.(isArmingRef))
    (s.(supportedSensorsRef)) (s.(prevIsArmingRef))
    (s.(hasLoggedActivationRef)) (s.(activationLogCleanup)) (s.(listeners))
    (s.(clock)) (s.(timers)) (s.(nextHandle)) (s.(playing)) (s.(burstsPlayed))
    (s.(geolocationPending)) (s.(renderedVolume)) (s.(sirenVolume))
    (s.(platform)).
Definition set_lastMagnetometerReadingRef (v : option Vec3) (s : App) : App :=
  mkApp (s.(isServiceActive)) (s.(isArming)) (s.(alarmVolume)) (s.(logs))
    (s.(isAlarmPlaying)) (s.(errorMessage)) (s.(supportedSensors))
    (s.(lastAccelRef)) (s.(armingTimeoutRef)) (s.(audioContextRef))
    (s.(oscillatorRef)) (s.(gainNodeRef)) (s.(alarmIntervalRef))
    (s.(lastIlluminanceRef)) v (s.(lastPressureRef)) (s.(isAlarmPlayingRef))
    (s.(isServiceActiveRef)) (s.(isArmingRef)) (s.(supportedSensorsRef))
    (s.(prevIsArmingRef)) (s.(hasLoggedActivationRef))
    (s.(activationLogCleanup)) (s.(listeners)) (s.(clock)) (s.(timers))
    (s.(nextHandle)) (s.(playing)) (s.(burstsPlayed)) (s.(geolocationPending))
    (s.(renderedVolume)) (s.(sirenVolume)) (s.(platform)).
Definition set_lastPressureRef (v : option float) (s : App) : App :=
  mkApp (s.(isServiceActive)) (s.(isArming)) (s.(alarmVolume)) (s.(logs))
    (s.(isAlarmPlaying)) (s.(errorMessage)) (s.(supportedSensors))
    (s.(lastAccelRef)) (s.(armingTimeoutRef)) (s.(audioContextRef))
    (s.(oscillatorRef)) (s.(gainNodeRef)) (s.(alarmIntervalRef))
    (s.(lastIlluminanceRef)) (s.(lastMagnetometerReadingRef)) v
    (s.(isAlarmPlayingRef)) (s.(isServiceActiveRef)) (s.(isArmingRef))
    (s.(supportedSensorsRef)) (s.(prevIsArmingRef))
    (s.(hasLoggedActivationRef)) (s.(activationLogCleanup)) (s.(listeners))
    (s.(clock)) (s.(timers)) (s.(nextHandle)) (s.(playing)) (s.(burstsPlayed))
    (s.(geolocationPending)) (s.(renderedVolume)) (s.(sirenVolume))
    (s.(platform)).
Definition set_isAlarmPlayingRef (v : bool) (s : App) : App :=
  mkApp (s.(isServiceActive)) (s.(isArming)) (s.(alarmVolume)) (s.(logs))
    (s.(isAlarmPlaying)) (s.(errorMessage)) (s.(supportedSensors))
    (s.(lastAccelRef)) (s.(armingTimeoutRef)) (s.(audioContextRef))
    (s.(oscillatorRef)) (s.(gainNodeRef)) (s.(alarmIntervalRef))
    (s.(lastIlluminanceRef)) (s.(lastMagnetometerReadingRef))
    (s.(lastPressureRef)) v (s.(isServiceActiveRef)) (s.(isArmingRef))
    (s.(supportedSensorsRef)) (s.(prevIsArmingRef))
    (s.(hasLoggedActivationRef)) (s.(activationLogCleanup)) (s.(listeners))
    (s.(clock)) (s.(timers)) (s.(nextHandle)) (s.(playing)) (s.(burstsPlayed))
    (s.(geolocationPending)) (s.(renderedVolume)) (s.(sirenVolume))
    (s.(platform)).
Definition set_isServiceActiveRef (v : bool) (s : App) : App :=
  mkApp (s.(isServiceActive)) (s.(isArming)) (s.(alarmVolume)) (s.(logs))
    (s.(isAlarmPlaying)) (s.(errorMessage)) (s.(supportedSensors))
    (s.(lastAccelRef)) (s.(armingTimeoutRef)) (s.(audioContextRef))
    (s.(oscillatorRef)) (s.(gainNodeRef)) (s.(alarmIntervalRef))
    (s.(lastIlluminanceRef)) (s.(lastMagnetometerReadingRef))
    (s.(lastPressureRef)) (s.(isAlarmPlayingRef)) v (s.(isArmingRef))
    (s.(supportedSensorsRef)) (s.(prevIsArmingRef))
    (s.(hasLoggedActivationRef)) (s.(activationLogCleanup)) (s.(listeners))
    (s.(clock)) (s.(timers)) (s.(nextHandle)) (s.(playing)) (s.(burstsPlayed))
    (s.(geolocationPending)) (s.(renderedVolume)) (s.(sirenVolume))
    (s.(platform)).
Definition set_isArmingRef (v : bool) (s : App) : App :=
  mkApp (s.(isServiceActive)) (s.(isArming)) (s.(alarmVolume)) (s.(logs))
    (s.(isAlarmPlaying)) (s.(errorMessage)) (s.(supportedSensors))
    (s.(lastAccelRef)) (s.(armingTimeoutRef)) (s.(audioContextRef))
    (s.(oscillatorRef)) (s.(gainNodeRef)) (s.(alarmIntervalRef))
    (s.(lastIlluminanceRef)) (s.(lastMagnetometerReadingRef))
    (s.(lastPressureRef)) (s.(isAlarmPlayingRef)) (s.(isServiceActiveRef)) v
    (s.(supportedSensorsRef)) (s.(prevIsArmingRef))
    (s.(hasLoggedActivationRef)) (s.(activationLogCleanup)) (s.(listeners))
    (s.(clock)) (s.(timers)) (s.(nextHandle)) (s.(playing)) (s.(burstsPlayed))
    (s.(geolocationPending)) (s.(renderedVolume)) (s.(sirenVolume))
    (s.(platform)).
Definition set_supportedSensorsRef (v : list string) (s : App) : App :=
  mkApp (s.(isServiceActive)) (s.(isArming)) (s.(alarmVolume)) (s.(logs))
    (s.(isAlarmPlaying)) (s.(errorMessage)) (s.(supportedSensors))
    (s.(lastAccelRef)) (s.(armingTimeoutRef)) (s.(audioContextRef))
    (s.(oscillatorRef)) (s.(gainNodeRef)) (s.(alarmIntervalRef))
    (s.(lastIlluminanceRef)) (s.(lastMagnetometerReadingRef))
    (s.(lastPressureRef)) (s.(isAlarmPlayingRef)) (s.(isServiceActiveRef))
    (s.(isArmingRef)) v (s.(prevIsArmingRef)) (s.(hasLoggedActivationRef))
    (s.(activationLogCleanup)) (s.(listeners)) (s.(clock)) (s.(timers))
    (s.(nextHandle)) (s.(playing)) (s.(burstsPlayed)) (s.(geolocationPending))
    (s.(renderedVolume)) (s.(sirenVolume)) (s.(platform)).
Definition set_prevIsArmingRef (v : option bool) (s : App) : App :=
  mkApp (s.(isServiceActive)) (s.(isArming)) (s.(alarmVolume)) (s.(logs))
    (s.(isAlarmPlaying)) (s.(errorMessage)) (s.(supportedSensors))
    (s.(lastAccelRef)) (s.(armingTimeoutRef)) (s.(audioContextRef))
    (s.(oscillatorRef)) (s.(gainNodeRef)) (s.(alarmIntervalRef))
    (s.(lastIlluminanceRef)) (s.(lastMagnetometerReadingRef))
    (s.(lastPressureRef)) (s.(isAlarmPlayingRef)) (s.(isServiceActiveRef))
    (s.(isArmingRef)) (s.(supportedSensorsRef)) v (s.(hasLoggedActivationRef))
    (s.(activationLogCleanup)) (s.(listeners)) (s.(clock)) (s.(timers))
    (s.(nextHandle)) (s.(playing)) (s.(burstsPlayed)) (s.(geolocationPending))
    (s.(renderedVolume)) (s.(sirenVolume)) (s.(platform)).
Definition set_hasLoggedActivationRef (v : bool) (s : App) : App :=
  mkApp (s.(isServiceActive)) (s.(isArming)) (s.(alarmVolume)) (s.(logs))
    (s.(isAlarmPlaying)) (s.(errorMessage)) (s.(supportedSensors))
    (s.(lastAccelRef)) (s.(armingTimeoutRef)) (s.(audioContextRef))
    (s.(oscillatorRef)) (s.(gainNodeRef)) (s.(alarmIntervalRef))
    (s.(lastIlluminanceRef)) (s.(lastMagnetometerReadingRef))
    (s.(lastPressureRef)) (s.(isAlarmPlayingRef)) (s.(isServiceActiveRef))
    (s.(isArmingRef)) (s.(supportedSensorsRef)) (s.(prevIsArmingRef)) v
    (s.(activationLogCleanup)) (s.(listeners)) (s.(clock)) (s.(timers))
    (s.(nextHandle)) (s.(playing)) (s.(burstsPlayed)) (s.(geolocationPending))
    (s.(renderedVolume)) (s.(sirenVolume)) (s.(platform)).
Definition set_activationLogCleanup (v : option positive) (s : App) : App :=
  mkApp (s.(isServiceActive)) (s.(isArming)) (s.(alarmVolume)) (s.(logs))
    (s.(isAlarmPlaying)) (s.(errorMessage)) (s.(supportedSensors))
    (s.(lastAccelRef)) (s.(armingTimeoutRef)) (s.(audioContextRef))
    (s.(oscillatorRef)) (s.(gainNodeRef)) (s.(alarmIntervalRef))
    (s.(lastIlluminanceRef)) (s.(lastMagnetometerReadingRef))
    (s.(lastPressureRef)) (s.(isAlarmPlayingRef)) (s.(isServiceActiveRef))
    (s.(isArmingRef)) (s.(supportedSensorsRef)) (s.(prevIsArmingRef))
    (s.(hasLoggedActivationRef)) v (s.(listeners)) (s.(clock)) (s.(timers))
    (s.(nextHandle)) (s.(playing)) (s.(burstsPlayed)) (s.(geolocationPending))
    (s.(renderedVolume)) (s.(sirenVolume)) (s.(platform)).
Definition set_listeners (v : list SensorKind) (s : App) : App :=
  mkApp (s.(isServiceActive)) (s.(isArming)) (s.(alarmVolume)) (s.(logs))
    (s.(isAlarmPlaying)) (s.(errorMessage)) (s.(supportedSensors))
    (s.(lastAccelRef)) (s.(armingTimeoutRef)) (s.(audioContextRef))
    (s.(oscillatorRef)) (s.(gainNodeRef)) (s.(alarmIntervalRef))
    (s.(lastIlluminanceRef)) (s.(lastMagnetometerReadingRef))
    (s.(lastPressureRef)) (s.(isAlarmPlayingRef)) (s.(isServiceActiveRef))
    (s.(isArmingRef)) (s.(supportedSensorsRef)) (s.(prevIsArmingRef))
    (s.(hasLoggedActivationRef)) (s.(activationLogCleanup)) v (s.(clock))
    (s.(timers)) (s.(nextHandle)) (s.(playing)) (s.(burstsPlayed))
    (s.(geolocationPending)) (s.(renderedVolume)) (s.(sirenVolume))
    (s.(platform)).
Definition set_clock (v : N) (s : App) : App :=
  mkApp (s.(isServiceActive)) (s.(isArming)) (s.(alarmVolume)) (s.(logs))
    (s.(isAlarmPlaying)) (s.(errorMessage)) (s.(supportedSensors))
    (s.(lastAccelRef)) (s.(armingTimeoutRef)) (s.(audioContextRef))
    (s.(oscillatorRef)) (s.(gainNodeRef)) (s.(alarmIntervalRef))
    (s.(lastIlluminanceRef)) (s.(lastMagnetometerReadingRef))
    (s.(lastPressureRef)) (s.(isAlarmPlayingRef)) (s.(isServiceActiveRef))
    (s.(isArmingRef)) (s.(supportedSensorsRef)) (s.(prevIsArmingRef))
    (s.(hasLoggedActivationRef)) (s.(activationLogCleanup)) (s.(listeners)) v
    (s.(timers)) (s.(nextHandle)) (s.(playing)) (s.(burstsPlayed))
    (s.(geolocationPending)) (s.(renderedVolume)) (s.(sirenVolume))
    (s.(platform)).
Definition set_timers (v : list (positive * Timer)) (s : App) : App :=
  mkApp (s.(isServiceActive)) (s.(isArming)) (s.(alarmVolume)) (s.(logs))
    (s.(isAlarmPlaying)) (s.(errorMessage)) (s.(supportedSensors))
    (s.(lastAccelRef)) (s.(armingTimeoutRef)) (s.(audioContextRef))
    (s.(oscillatorRef)) (s.(gainNodeRef)) (s.(alarmIntervalRef))
    (s.(lastIlluminanceRef)) (s.(lastMagnetometerReadingRef))
    (s.(lastPressureRef)) (s.(isAlarmPlayingRef)) (s.(isServiceActiveRef))
    (s.(isArmingRef)) (s.(supportedSensorsRef)) (s.(prevIsArmingRef))
    (s.(hasLoggedActivationRef)) (s.(activationLogCleanup)) (s.(listeners))
    (s.(clock)) v (s.(nextHandle)) (s.(playing)) (s.(burstsPlayed))
    (s.(geolocationPending)) (s.(renderedVolume)) (s.(sirenVolume))
    (s.(platform)).
Definition set_nextHandle (v : positive) (s : App) : App :=
  mkApp (s.(isServiceActive)) (s.(isArming)) (s.(alarmVolume)) (s.(logs))
    (s.(isAlarmPlaying)) (s.(errorMessage)) (s.(supportedSensors))
    (s.(lastAccelRef)) (s.(armingTimeoutRef)) (s.(audioContextRef))
    (s.(oscillatorRef)) (s.(gainNodeRef)) (s.(alarmIntervalRef))
    (s.(lastIlluminanceRef)) (s.(lastMagnetometerReadingRef))
    (s.(lastPressureRef)) (s.(isAlarmPlayingRef)) (s.(isServiceActiveRef))
    (s.(isArmingRef)) (s.(supportedSensorsRef)) (s.(prevIsArmingRef))
    (s.(hasLoggedActivationRef)) (s.(activationLogCleanup)) (s.(listeners))
    (s.(clock)) (s.(timers)) v (s.(playing)) (s.(burstsPlayed))
    (s.(geolocationPending)) (s.(renderedVolume)) (s.(sirenVolume))
    (s.(platform)).
Definition set_playing (v : list (positive * float)) (s : App) : App :=
  mkApp (s.(isServiceActive)) (s.(isArming)) (s.(alarmVolume)) (s.(logs))
    (s.(isAlarmPlaying)) (s.(errorMessage)) (s.(supportedSensors))
    (s.(lastAccelRef)) (s.(armingTimeoutRef)) (s.(audioContextRef))
    (s.(oscillatorRef)) (s.(gainNodeRef)) (s.(alarmIntervalRef))
    (s.(lastIlluminanceRef)) (s.(lastMagnetometerReadingRef))
    (s.(lastPressureRef)) (s.(isAlarmPlayingRef)) (s.(isServiceActiveRef))
    (s.(isArmingRef)) (s.(supportedSensorsRef)) (s.(prevIsArmingRef))
    (s.(hasLoggedActivationRef)) (s.(activationLogCleanup)) (s.(listeners))
    (s.(clock)) (s.(timers)) (s.(nextHandle)) v (s.(burstsPlayed))
    (s.(geolocationPending)) (s.(renderedVolume)) (s.(sirenVolume))
    (s.(platform)).
Definition set_burstsPlayed (v : nat) (s : App) : App :=
  mkApp (s.(isServiceActive)) (s.(isArming)) (s.(alarmVolume)) (s.(logs))
    (s.(isAlarmPlaying)) (s.(errorMessage)) (s.(supportedSensors))
    (s.(lastAccelRef)) (s.(armingTimeoutRef)) (s.(audioContextRef))
    (s.(oscillatorRef)) (s.(gainNodeRef)) (s.(alarmIntervalRef))
    (s.(lastIlluminanceRef)) (s.(lastMagnetometerReadingRef))
    (s.(lastPressureRef)) (s.(isAlarmPlayingRef)) (s.(isServiceActiveRef))
    (s.(isArmingRef)) (s.(supportedSensorsRef)) (s.(prevIsArmingRef))
    (s.(hasLoggedActivationRef)) (s.(activationLogCleanup)) (s.(listeners))
    (s.(clock)) (s.(timers)) (s.(nextHandle)) (s.(playing)) v
    (s.(geolocationPending)) (s.(renderedVolume)) (s.(sirenVolume))
    (s.(platform)).
Definition set_geolocationPending (v : list string) (s : App) : App :=
  mkApp (s.(isServiceActive)) (s.(isArming)) (s.(alarmVolume)) (s.(logs))
    (s.(isAlarmPlaying)) (s.(errorMessage)) (s.(supportedSensors))
    (s.(lastAccelRef)) (s.(armingTimeoutRef)) (s.(audioContextRef))
    (s.(oscillatorRef)) (s.(gainNodeRef)) (s.(alarmIntervalRef))
    (s.(lastIlluminanceRef)) (s.(lastMagnetometerReadingRef))
    (s.(lastPressureRef)) (s.(isAlarmPlayingRef)) (s.(isServiceActiveRef))
    (s.(isArmingRef)) (s.(supportedSensorsRef)) (s.(prevIsArmingRef))
    (s.(hasLoggedActivationRef)) (s.(activationLogCleanup)) (s.(listeners))
    (s.(clock)) (s.(timers)) (s.(nextHandle)) (s.(playing)) (s.(burstsPlayed))
    v (s.(renderedVolume)) (s.(sirenVolume)) (s.(platform)).
Definition set_renderedVolume (v : float) (s : App) : App :=
  mkApp (s.(isServiceActive)) (s.(isArming)) (s.(alarmVolume)) (s.(logs))
    (s.(isAlarmPlaying)) (s.(errorMessage)) (s.(supportedSensors))
    (s.(lastAccelRef)) (s.(armingTimeoutRef)) (s.(audioContextRef))
    (s.(oscillatorRef)) (s.(gainNodeRef)) (s.(alarmIntervalRef))
    (s.(lastIlluminanceRef)) (s.(lastMagnetometerReadingRef))
    (s.(lastPressureRef)) (s.(isAlarmPlayingRef)) (s.(isServiceActiveRef))
    (s.(isArmingRef)) (s.(supportedSensorsRef)) (s.(prevIsArmingRef))
    (s.(hasLoggedActivationRef)) (s.(activationLogCleanup)) (s.(listeners))
    (s.(clock)) (s.(timers)) (s.(nextHandle)) (s.(playing)) (s.(burstsPlayed))
    (s.(geolocationPending)) v (s.(sirenVolume)) (s.(platform)).
Definition set_sirenVolume (v : float) (s : App) : App :=
  mkApp (s.(isServiceActive)) (s.(isArming)) (s.(alarmVolume)) (s.(logs))
    (s.(isAlarmPlaying)) (s.(errorMessage)) (s.(supportedSensors))
    (s.(lastAccelRef)) (s.(armingTimeoutRef)) (s.(audioContextRef))
    (s.(oscillatorRef)) (s.(gainNodeRef)) (s.(alarmIntervalRef))
    (s.(lastIlluminanceRef)) (s.(lastMagnetometerReadingRef))
    (s.(lastPressureRef)) (s.(isAlarmPlayingRef)) (s.(isServiceActiveRef))
    (s.(isArmingRef)) (s.(supportedSensorsRef)) (s.(prevIsArmingRef))
    (s.(hasLoggedActivationRef)) (s.(activationLogCleanup)) (s.(listeners))
    (s.(clock)) (s.(timers)) (s.(nextHandle)) (s.(playing)) (s.(burstsPlayed))
    (s.(geolocationPending)) (s.(renderedVolume)) v (s.(platform)).

(** ** Text *)

Definition newline : string := String "010"%char EmptyString.

(** [s.includes(sub)]. *)
Definition includes (s sub : string) : bool :=
  match index 0 sub s with Some _ => true | None => false end.

(** [s.split(sep)[0]]: the text before the first [sep], all of [s] when
    there is none. *)
Definition beforeFirst (sep s : string) : string :=
  match index 0 sep s with Some i => substring 0 i s | None => s end.

(** [s.split('\n')], by pieces: [cur] is the piece being read. *)
Fixpoint splitLinesFrom (cur : string) (s : string) : list string :=
  match s with
  | EmptyString => [cur]
  | String c rest =>
      if Ascii.eqb c "010"%char
      then cur :: splitLinesFrom EmptyString rest
      else splitLinesFrom (cur ++ String c EmptyString) rest
  end.

Definition splitLines (s : string) : list string := splitLinesFrom EmptyString s.

(** [lines.join('\n')]. *)
Definition joinLines (lines : list string) : string := concat newline lines.

(** [c.toLowerCase()] for one character: the letters A to Z and the
    accented capitals of Latin-1. *)
Definition lowerAscii (c : ascii) : ascii :=
  let n := nat_of_ascii c in
  if ((Nat.leb 65 n && Nat.leb n 90)
      || (Nat.leb 192 n && Nat.leb n 222 && negb (Nat.eqb n 215)))%bool
  then ascii_of_nat (n + 32)
  else c.

(** [s.toLowerCase()]. *)
Fixpoint toLowerCase (s : string) : string :=
  match s with
  | EmptyString => EmptyString
  | String c rest => String (lowerAscii c) (toLowerCase rest)
  end.

(** [n.toString()] for a non-negative integer. *)
Definition decimal (n : N) : string := NilZero.string_of_uint (N.to_uint n).

(** ** The advisory text *)

(** The updater of [appendErrorMessage]. *)
Definition appendedErrorMessage (newMessage : string) (prev : option string)
  : string :=
  match prev with
  | None => newMessage
  | Some "" => newMessage
  | Some prev =>
      let existingMessages := splitLines prev in
      if (Nat.eqb (List.length existingMessages) 1
          && String.eqb (hd "" existingMessages) newMessage)%bool
      then prev
      else
        let newMessageBase := beforeFirst ":" (beforeFirst " (" newMessage) in
        if existsb (fun msg => includes msg newMessageBase) existingMessages
        then
          let found :=
            match find (fun msg => includes msg newMessageBase) existingMessages with
            | Some msg => String.length msg
            | None => 0%nat
            end in
          if Nat.ltb found (String.length newMessage)
          then joinLines
                 (filter (fun msg => negb (includes msg newMessageBase))
                    existingMessages ++ [newMessage])
          else prev
        else prev ++ newline ++ newMessage
  end.

Definition appendErrorMessage (newMessage : string) (s : App) : App :=
  setErrorMessage (Some (appendedErrorMessage newMessage (errorMessage s))) s.

(** ** The incident log *)

(** [Date.now().toString()]. *)
Definition freshId (s : App) : string := decimal (clock s).

Definition addLogEntry (message : string) (coordinates : option Coordinates)
  (s : App) : App :=
  let newLog :=
    {| id := freshId s;
       timestamp := clock s;
       message := message;
       coordinates :=
         match coordinates with
         | Some c => Some {| latitude := latitude c;
                             longitude := longitude c;
                             accuracy := accuracy c |}
         | None => None
         end |} in
  setLogs (newLog :: firstn 49 (logs s)) s.

Definition clearLogs (s : App) : App :=
  let timestamp := clock s in
  let id := freshId s in
  setLogs [ {| id := id;
               timestamp := timestamp;
               message := "Logs limpos pelo usuario.";
               coordinates := None |} ] s.

(** ** Timers and audio nodes *)

(** [setTimeout] and [setInterval]: the callback is queued under a fresh
    handle, which is returned. *)
Definition setTimer (t : Timer) (s : App) : positive * App :=
  let h := nextHandle s in
  (h, set_nextHandle (Pos.succ h) (set_timers (timers s ++ [(h, t)]) s)).

(** [clearTimeout] and [clearInterval]: safe on a handle that already fired
    or was cleared. *)
Definition clearTimer (h : positive) (s : App) : App :=
  set_timers (filter (fun p => negb (Pos.eqb (fst p) h)) (timers s)) s.

(** [if (ref.current) clearTimeout(ref.current)]: handles are positive, so a
    stored handle is truthy. *)
Definition clearTimerRef (r : option positive) (s : App) : App :=
  match r with Some h => clearTimer h s | None => s end.

Fixpoint lookupTimer (h : positive) (ts : list (positive * Timer))
  : option Timer :=
  match ts with
  | [] => None
  | (h', t) :: rest => if Pos.eqb h' h then Some t else lookupTimer h rest
  end.

(** [oscillator.stop()]: the node no longer sounds. *)
Definition stopOscillator (o : positive) (s : App) : App :=
  set_playing (filter (fun p => negb (Pos.eqb (fst p) o)) (playing s)) s.

(** ** The siren *)

Definition getAudioContext (s : App) : option AudioContextState * App :=
  match audioContextRef s with
  | None =>
      match audioContextCtor (platform s) with
      | Some context =>
          let s := set_audioContextRef (Some context) s in
          (* a suspended context is asked to resume; the browser answers
             later *)
          (audioContextRef s, s)
      | None =>
          (None,
           appendErrorMessage
             "Seu navegador nao suporta audio, o alarme sonoro pode nao funcionar."
             s)
      end
  | Some _ => (audioContextRef s, s)
  end.

(** The callback of one render: its [alarmVolume] is that of the render,
    which [sirenVolume] holds for the siren that runs. *)
Definition playSirenBurst (s : App) : App :=
  let (audioCtx, s) := getAudioContext s in
  match audioCtx with
  | Some running =>
      (* the previous burst is cut *)
      let s := match oscillatorRef s with
               | Some o => stopOscillator o s
               | None => s
               end in
      let oscillator := nextHandle s in
      let gainNode := Pos.succ oscillator in
      let s := set_nextHandle (Pos.succ gainNode) s in
      let s := set_playing (playing s ++ [(oscillator, sirenVolume s)]) s in
      let s := set_burstsPlayed (S (burstsPlayed s)) s in
      let s := set_oscillatorRef (Some oscillator) s in
      set_gainNodeRef (Some gainNode) s
  | _ => s
  end.

(** [oscillator.onended], with the node falling silent. *)
Definition oscillatorEnded (oscillator : positive) (s : App) : App :=
  let s := stopOscillator oscillator s in
  match oscillatorRef s with
  | Some o =>
      if Pos.eqb o oscillator
      then set_gainNodeRef None (set_oscillatorRef None s)
      else s
  | None => s
  end.

(** [startAlarmSound] of the last committed render, the one the attached
    handlers reach through [triggerAlarm]: it plays and schedules the
    [playSirenBurst] of that render. *)
Definition startAlarmSound (s : App) : App :=
  let s := clearTimerRef (alarmIntervalRef s) s in
  let (audioCtx, s) := getAudioContext s in
  match audioCtx with
  | Some running =>
      let s := set_sirenVolume (renderedVolume s) s in
      let s := playSirenBurst s in
      let (h, s) := setTimer AlarmInterval s in
      set_alarmIntervalRef (Some h) s
  | Some suspended =>
      appendErrorMessage
        "Audio suspenso. O alarme pode nao tocar. Clique na tela e reative o servico."
        s
  | _ =>
      appendErrorMessage
        "Nao e possivel reproduzir o alarme. Verifique as permissoes de audio."
        s
  end.

Definition stopAlarmSound (s : App) : App :=
  let s := match alarmIntervalRef s with
           | Some h => set_alarmIntervalRef None (clearTimer h s)
           | None => s
           end in
  let s := match oscillatorRef s with
           | Some o => set_oscillatorRef None (stopOscillator o s)
           | None => s
           end in
  match gainNodeRef s with
  | Some _ => set_gainNodeRef None s
  | None => s
  end.

(** ** The trigger path *)

Definition triggerAlarm (detectionSource : string) (s : App) : App :=
  if negb (isAlarmPlayingRef s) then
    let s := setIsAlarmPlaying true s in
    let s := startAlarmSound s in
    let s := setErrorMessage (Some ("ALERTA! " ++ detectionSource)) s in
    if hasGeolocation (platform s) then
      (* getCurrentPosition: the answer comes later, see
         [geolocationSuccess] and [geolocationError] *)
      set_geolocationPending (geolocationPending s ++ [detectionSource]) s
    else
      let s :=
        addLogEntry (detectionSource ++ " (Geolocalizacao nao suportada)")
          None s in
      appendErrorMessage "Geolocalizacao nao suportada" s
  else s.

(** Removes the request at position [i] from the pending ones. *)
Fixpoint removeNth {A : Type} (i : nat) (l : list A) : list A :=
  match l, i with
  | [], _ => []
  | _ :: rest, O => rest
  | x :: rest, S i' => x :: removeNth i' rest
  end.

(** The success callback of the [i]-th pending position request. *)
Definition geolocationSuccess (i : nat) (coords : Coordinates) (s : App)
  : App :=
  match nth_error (geolocationPending s) i with
  | Some detectionSource =>
      let s := set_geolocationPending (removeNth i (geolocationPending s)) s in
      addLogEntry detectionSource (Some coords) s
  | None => s
  end.

(** The error callback of the [i]-th pending position request. *)
Definition geolocationError (i : nat) (errorText : string) (s : App) : App :=
  match nth_error (geolocationPending s) i with
  | Some detectionSource =>
      let s := set_geolocationPending (removeNth i (geolocationPending s)) s in
      let s :=
        addLogEntry (detectionSource ++ " (Localizacao indisponivel)") None s in
      appendErrorMessage ("Localizacao: " ++ errorText) s
  | None => s
  end.

Definition stopAlarm (s : App) : App :=
  let s := setIsAlarmPlaying false s in
  let s := stopAlarmSound s in
  let s := setErrorMessage (Some "Alarme parado. Servico DESATIVADO.") s in
  let s := setIsServiceActive false s in
  let s := setIsArming false s in
  let s := set_lastAccelRef None s in
  let s := set_lastIlluminanceRef None s in
  let s := set_lastMagnetometerReadingRef None s in
  let s := set_lastPressureRef None s in
  clearTimerRef (armingTimeoutRef s) s.

(** ** Sensor errors *)

(** A text of JavaScript is truthy unless it is empty. *)
Definition nonEmpty (text : string) : bool := negb (String.eqb text "").

Definition handleSensorPermissionError (sensorName : string)
  (error : SensorError) (s : App) : App :=
  let userMessage :=
    "Erro no " ++ sensorName ++ ": "
    ++ (if nonEmpty (errMessage error) then errMessage error
        else if nonEmpty (errName error) then errName error
        else "Erro desconhecido") in
  let userMessage :=
    if String.eqb (errName error) "NotAllowedError" then
      "Permissao para " ++ sensorName
      ++ " negada. Verifique as configuracoes do seu navegador ou dispositivo. Pode ser necessario recarregar a pagina ou reativar o servico apos conceder permissao."
    else if String.eqb (errName error) "NotReadableError" then
      sensorName
      ++ " nao pode ser lido. O sensor pode estar em uso por outro aplicativo, temporariamente indisponivel ou apresentar defeito."
    else if (String.eqb (errName error) "SecurityError"
             || (nonEmpty (errMessage error)
                 && includes (toLowerCase (errMessage error))
                      "secure context"))%bool then
      sensorName
      ++ " requer uma conexao segura (HTTPS). Verifique se o site esta carregado via HTTPS."
    else if (nonEmpty (errMessage error)
             && includes (toLowerCase (errMessage error))
                  "connect to a sensor")%bool then
      let userMessage :=
        "Nao foi possivel conectar ao " ++ sensorName
        ++ ". O sensor pode nao estar fisicamente presente, estar desabilitado nas configuracoes do sistema, ou nao ser suportado neste dispositivo/navegador." in
      if (negb (String.eqb (locationProtocol (platform s)) "https:")
          && negb (String.eqb (locationHostname (platform s)) "localhost")
          && negb (String.eqb (locationHostname (platform s)) "127.0.0.1"))%bool
      then
        userMessage
        ++ " Sensores como este geralmente tambem requerem uma conexao HTTPS para funcionar."
      else userMessage
    else if (negb (nonEmpty (errMessage error))
             && nonEmpty (errName error))%bool then
      "Erro no " ++ sensorName ++ ": " ++ errName error
      ++ ". Verifique o console para mais detalhes."
    else userMessage in
  appendErrorMessage userMessage s.

(** ** Arming *)

(** [ARMING_DELAY_MS / 1000], as the template strings print it. *)
Definition armingDelaySeconds : string := decimal (ARMING_DELAY_MS / 1000).

Definition toggleService (s : App) : App :=
  let s := setErrorMessage None s in
  let s := setSupportedSensors [] s in
  let (_, s) := getAudioContext s in
  if (isServiceActiveRef s || isArmingRef s)%bool then
    let s := clearTimerRef (armingTimeoutRef s) s in
    let s := setIsServiceActive false s in
    let s := setIsArming false s in
    let s := set_lastAccelRef None s in
    let s := set_lastIlluminanceRef None s in
    let s := set_lastMagnetometerReadingRef None s in
    let s := set_lastPressureRef None s in
    let s := if isAlarmPlayingRef s
             then stopAlarm s
             else setErrorMessage (Some "Servico DESATIVADO.") s in
    addLogEntry "Servico DESATIVADO pelo usuario." None s
  else
    let s := setIsArming true s in
    let s := setIsServiceActive true s in
    let s :=
      setErrorMessage
        (Some ("Servico armando em " ++ armingDelaySeconds
               ++ "s... Sensores e GPS serao ativados.")) s in
    let s :=
      addLogEntry ("Servico armando em " ++ armingDelaySeconds
                   ++ " segundos...") None s in
    let (h, s) := setTimer ArmingTimeout s in
    set_armingTimeoutRef (Some h) s.

(** The callback [toggleService] hands to [setTimeout]. *)
Definition armingTimeoutCallback (s : App) : App :=
  if (negb (isServiceActiveRef s) || negb (isArmingRef s))%bool then s
  else
    let s := setIsArming false s in
    let s := set_lastAccelRef None s in
    let s := set_lastIlluminanceRef None s in
    let s := set_lastMagnetometerReadingRef None s in
    let s := set_lastPressureRef None s in
    setErrorMessage (Some "Servico ATIVO. Monitorando sensores. GPS pronto.") s.

Definition addSupportedSensor (name : string) (s : App) : App :=
  if existsb (String.eqb name) (supportedSensors s) then s
  else setSupportedSensors (supportedSensors s ++ [name]) s.

(** ** The reading handlers *)

(** The guard every reading handler starts with. *)
Definition ignoresReadings (s : App) : bool :=
  (isArmingRef s || isAlarmPlayingRef s || negb (isServiceActiveRef s))%bool.

(** JavaScript truthiness of a possibly missing number: [null],
    [undefined], [0], [-0] and [NaN] are falsy. *)
Definition truthy (v : option float) : bool :=
  match v with
  | Some x => negb (is_zero x || is_nan x)
  | None => false
  end.

(** [Math.sqrt(deltaX*deltaX + deltaY*deltaY + deltaZ*deltaZ)] of the
    accelerometer handler. *)
Definition totalDelta (last cur : Vec3) : float :=
  let deltaX := abs (vx cur - vx last) in
  let deltaY := abs (vy cur - vy last) in
  let deltaZ := abs (vz cur - vz last) in
  sqrt (deltaX * deltaX + deltaY * deltaY + deltaZ * deltaZ).

(** The handler of ['devicemotion']; [acc] is
    [event.accelerationIncludingGravity]. *)
Definition motionHandlerInternal (acc : option Axes) (s : App) : App :=
  if ignoresReadings s then s
  else
    match acc with
    | Some {| ax := Some x; ay := Some y; az := Some z |} =>
        match lastAccelRef s with
        | None => set_lastAccelRef (Some (mkVec3 x y z)) s
        | Some last =>
            let s :=
              if MOTION_THRESHOLD <? totalDelta last (mkVec3 x y z)
              then triggerAlarm "Movimento (Acelerometro) detectado!" s
              else s in
            set_lastAccelRef (Some (mkVec3 x y z)) s
        end
    | _ => s
    end.

(** [sensor.onreading] of the gyroscope. *)
Definition gyroscopeOnReading (sensor : Axes) (s : App) : App :=
  if (ignoresReadings s || negb (truthy (ax sensor))
      || negb (truthy (ay sensor)) || negb (truthy (az sensor)))%bool
  then s
  else
    match sensor with
    | {| ax := Some x; ay := Some y; az := Some z |} =>
        if ((GYROSCOPE_THRESHOLD <? abs x) || (GYROSCOPE_THRESHOLD <? abs y)
            || (GYROSCOPE_THRESHOLD <? abs z))%bool
        then triggerAlarm "Rotacao (Giroscopio) detectada!" s
        else s
    | _ => s
    end.

(** [sensor.onreading] of the proximity sensor; [near] is [sensor.near]. *)
Definition proximityOnReading (near : option bool) (s : App) : App :=
  if ignoresReadings s then s
  else
    match near with
    | Some true => triggerAlarm "Proximidade detectada!" s
    | _ => s
    end.

(** The handler of the legacy ['deviceproximity'] event. *)
Definition proximityEventHandler (value max : float) (s : App) : App :=
  if ignoresReadings s then s
  else if ((value <? PROXIMITY_FALLBACK_THRESHOLD_CM) && (value <? max))%bool
  then triggerAlarm "Proximidade detectada (legado)!" s
  else s.

(** [sensor.onactivate] of the light sensor. *)
Definition lightOnActivate (illuminance : option float) (s : App) : App :=
  match illuminance with
  | Some v => set_lastIlluminanceRef (Some v) s
  | None => s
  end.

(** [sensor.onreading] of the light sensor. *)
Definition lightOnReading (illuminance : option float) (s : App) : App :=
  if ignoresReadings s then s
  else
    match illuminance with
    | None => s
    | Some currentIlluminance =>
        let s :=
          match lastIlluminanceRef s with
          | Some last =>
              if LIGHT_CHANGE_THRESHOLD_LUX <? abs (currentIlluminance - last)
              then
                triggerAlarm
                  ("Mudanca de Luz (" ++ numberToFixed (platform s) 0 last
                   ++ "lx -> "
                   ++ numberToFixed (platform s) 0 currentIlluminance
                   ++ "lx)!") s
              else s
          | None => s
          end in
        set_lastIlluminanceRef (Some currentIlluminance) s
    end.

(** [sensor.onreading] of the magnetometer. *)
Definition magnetometerOnReading (sensor : Axes) (s : App) : App :=
  if ignoresReadings s then s
  else
    match sensor with
    | {| ax := Some x; ay := Some y; az := Some z |} =>
        match lastMagnetometerReadingRef s with
        | None => set_lastMagnetometerReadingRef (Some (mkVec3 x y z)) s
        | Some last =>
            let deltaX := abs (x - vx last) in
            let deltaY := abs (y - vy last) in
            let deltaZ := abs (z - vz last) in
            let s :=
              if ((MAGNETOMETER_CHANGE_THRESHOLD_UT <? deltaX)
                  || (MAGNETOMETER_CHANGE_THRESHOLD_UT <? deltaY)
                  || (MAGNETOMETER_CHANGE_THRESHOLD_UT <? deltaZ))%bool
              then triggerAlarm "Alteracao no campo magnetico detectada!" s
              else s in
            set_lastMagnetometerReadingRef (Some (mkVec3 x y z)) s
        end
    | _ => s
    end.

(** [sensor.onactivate] of the barometer. *)
Definition barometerOnActivate (pressure : option float) (s : App) : App :=
  match pressure with
  | Some v => set_lastPressureRef (Some v) s
  | None => s
  end.

(** [sensor.onreading] of the barometer. *)
Definition barometerOnReading (pressure : option float) (s : App) : App :=
  if ignoresReadings s then s
  else
    match pressure with
    | None => s
    | Some currentPressure =>
        let s :=
          match lastPressureRef s with
          | Some last =>
              if BAROMETER_CHANGE_THRESHOLD_PA <? abs (currentPressure - last)
              then
                triggerAlarm
                  ("Mudanca de pressao atmosferica detectada ("
                   ++ numberToFixed (platform s) 1 last ++ "Pa -> "
                   ++ numberToFixed (platform s) 1 currentPressure
                   ++ "Pa)!") s
              else s
          | None => s
          end in
        set_lastPressureRef (Some currentPressure) s
    end.

(** ** The error handlers of the sensors *)

(** [sensor.onerror] of the gyroscope; [error] is [event.error]. *)
Definition gyroscopeOnError (error : SensorError) (s : App) : App :=
  handleSensorPermissionError "Giroscopio" error s.

Definition proximityOnError (error : SensorError) (s : App) : App :=
  handleSensorPermissionError "Sensor de Proximidade" error s.

Definition lightOnError (error : SensorError) (s : App) : App :=
  let s := handleSensorPermissionError "Sensor de Luz" error s in
  set_lastIlluminanceRef None s.

Definition magnetometerOnError (error : SensorError) (s : App) : App :=
  handleSensorPermissionError "Magnetometro" error s.

Definition barometerOnError (error : SensorError) (s : App) : App :=
  let s := handleSensorPermissionError "Barometro" error s in
  set_lastPressureRef None s.

(** ** The volume *)

(** [Math.min] and [Math.max] of two numbers: NaN when an argument is NaN,
    and -0 is below +0. *)
Definition mathMin (a b : float) : float :=
  if (is_nan a || is_nan b)%bool then nan
  else if a <? b then a
  else if b <? a then b
  else if get_sign a then a else b.

Definition mathMax (a b : float) : float :=
  if (is_nan a || is_nan b)%bool then nan
  else if a <? b then b
  else if b <? a then a
  else if get_sign a then b else a.

(** [gainNode.gain.setValueAtTime(v, currentTime)]: the oscillator that
    plays through the gain node, if it still sounds, plays at [v] from now
    on.  [playSirenBurst] creates the gain node right after its
    oscillator. *)
Definition setGain (gainNode : positive) (v : float) (s : App) : App :=
  set_playing
    (map (fun p => if Pos.eqb (Pos.succ (fst p)) gainNode then (fst p, v) else p)
       (playing s)) s.

(** The updater [adjustVolume] hands to [setAlarmVolume], with the write to
    the gain node it makes on the way. *)
Definition adjustVolume (delta : float) (s : App) : App :=
  let prev := alarmVolume s in
  let newVolume := mathMax 0 (mathMin 1 (prev + delta)) in
  let s := match gainNodeRef s, audioContextRef s with
           | Some gainNode, Some running => setGain gainNode newVolume s
           | _, _ => s
           end in
  setAlarmVolume newVolume s.

(** The two volume buttons of the controls. *)
Definition onVolumeUp (s : App) : App := adjustVolume 0.1 s.
Definition onVolumeDown (s : App) : App := adjustVolume (-0.1) s.

(** ** Effects *)

(** The effects that mirror state into refs, for the callbacks to read. *)
Definition mirrorEffects (s : App) : App :=
  let s := set_isAlarmPlayingRef (isAlarmPlaying s) s in
  let s := set_isServiceActiveRef (isServiceActive s) s in
  let s := set_isArmingRef (isArming s) s in
  set_supportedSensorsRef (supportedSensors s) s.

(** The effect that logs the activation once arming completes. *)
Definition activationEffect (s : App) : App :=
  let wasArming := prevIsArmingRef s in
  let s := set_prevIsArmingRef (Some (isArming s)) s in
  let s := set_activationLogCleanup None s in
  if isServiceActive s then
    match wasArming with
    | Some true =>
        if (negb (isArming s) && negb (hasLoggedActivationRef s))%bool then
          let (timerId, s) := setTimer ActivationLogTimeout s in
          set_activationLogCleanup (Some timerId) s
        else s
    | _ => s
    end
  else set_hasLoggedActivationRef false s.

(** The callback the activation effect hands to [setTimeout]. *)
Definition activationLogCallback (s : App) : App :=
  let currentActiveSensorsList :=
    match supportedSensorsRef s with
    | [] => "sensores padrao (como Acelerometro, se permitido e disponivel)"
    | names => concat ", " names
    end in
  let logMessage :=
    "Servico ATIVO. Monitoramento iniciado com sensores: "
    ++ currentActiveSensorsList ++ "." in
  let s := addLogEntry logMessage None s in
  set_hasLoggedActivationRef true s.

(** A sensor effect that finds its sensor: the handler is attached, the
    start is logged and the sensor joins the live set. *)
Definition startSensor (kind : SensorKind) (logText name : string) (s : App)
  : App :=
  let s := set_listeners (listeners s ++ [kind]) s in
  let s := addLogEntry logText None s in
  addSupportedSensor name s.

(** The [try] block of a Generic Sensor effect: the sensor is constructed
    and started, or what is thrown goes to [handleSensorPermissionError]
    and nothing is attached. *)
Definition tryStartSensor (fails : option SensorError) (kind : SensorKind)
  (errorLabel logText name : string) (s : App) : App :=
  match fails with
  | None => startSensor kind logText name s
  | Some error => handleSensorPermissionError errorLabel error s
  end.

(** The bodies of the six sensor effects, in the order of the source.  On
    a device where [DeviceMotionEvent.requestPermission] is a function the
    accelerometer effect only asks for the permission: its handler is
    attached by the continuation of the answer, which is no event of the
    loop below. *)
Definition sensorEffects (s : App) : App :=
  if (isServiceActive s && negb (isArming s))%bool then
    let p := platform s in
    let s := if hasDeviceMotion p
             then if motionNeedsPermission p
                  then s
                  else startSensor Accelerometer "Acelerometro ativado."
                         "Acelerometro" s
             else s in
    let s := if hasGyroscope p
             then tryStartSensor (gyroscopeFails p) GyroscopeSensor
                    "Giroscopio" "Giroscopio ativado." "Giroscopio" s
             else s in
    let s := if hasProximitySensor p
             then tryStartSensor (proximitySensorFails p) Proximity
                    "Sensor de Proximidade" "Sensor de Proximidade ativado."
                    "Proximidade" s
             else if hasDeviceProximity p
             then startSensor ProximityLegacy
                    "Sensor de Proximidade (legado) ativado."
                    "Proximidade (legado)" s
             else s in
    let s := if hasAmbientLightSensor p
             then tryStartSensor (ambientLightSensorFails p) AmbientLight
                    "Sensor de Luz" "Sensor de Luminosidade ativado."
                    "Luminosidade" s
             else s in
    let s := if hasMagnetometer p
             then tryStartSensor (magnetometerFails p) MagnetometerSensor
                    "Magnetometro" "Magnetometro ativado." "Magnetometro" s
             else s in
    if hasBarometer p
    then tryStartSensor (barometerFails p) BarometerSensor
           "Barometro" "Barometro ativado." "Barometro" s
    else s
  else s.

(** The cleanups of the sensor effects: every handler is detached; the
    light, magnetometer and barometer effects also drop their baseline. *)
Definition sensorCleanups (s : App) : App :=
  let s := set_listeners [] s in
  let s := set_lastIlluminanceRef None s in
  let s := set_lastMagnetometerReadingRef None s in
  set_lastPressureRef None s.

(** [Object.is] on two numbers, by which React compares the dependencies
    of an effect. *)
Definition objectIs (a b : float) : bool :=
  if is_nan a then is_nan b
  else ((a =? b) && Bool.eqb (get_sign a) (get_sign b))%bool.

(** One commit of React: the cleanups of the effects whose dependencies
    changed, then the effects, in the order of the source.  The mirror refs
    still hold the state of the previous commit when a commit starts, which
    tells whether [isServiceActive] or [isArming] changed, and
    [renderedVolume] holds the volume of that commit.  The sensor effects
    depend on [triggerAlarm], which changes with [alarmVolume] (through
    [startAlarmSound] and [playSirenBurst]): they run again when the volume
    changed.  The activation effect depends on the two flags only. *)
Definition flagsChanged (s : App) : bool :=
  (negb (Bool.eqb (isServiceActive s) (isServiceActiveRef s))
   || negb (Bool.eqb (isArming s) (isArmingRef s)))%bool.

Definition volumeChanged (s : App) : bool :=
  negb (objectIs (alarmVolume s) (renderedVolume s)).

Definition commit (s : App) : App :=
  let changed := flagsChanged s in
  let effectsChanged := (flagsChanged s || volumeChanged s)%bool in
  let s := set_renderedVolume (alarmVolume s) s in
  let s := if changed then clearTimerRef (activationLogCleanup s) s else s in
  let s := if effectsChanged then sensorCleanups s else s in
  let s := mirrorEffects s in
  let s := if changed then activationEffect s else s in
  if effectsChanged then sensorEffects s else s.

(** ** The event loop *)

(** The main button of the controls: it stops the alarm while the alarm
    shows, is disabled while arming, and toggles the service otherwise.  The
    props it was rendered with are those of the last commit, which the
    mirror refs hold. *)
Definition mainButtonClick (s : App) : App :=
  if isAlarmPlayingRef s then stopAlarm s
  else if isArmingRef s then s
  else toggleService s.

(** What can happen to the mounted component.  [PageClick] is a click
    anywhere else in the page (the donate button and its dialog included,
    whose own state is not part of [App]): it reaches only the click
    handler of the root element.  [SensorFault] is the [error] event of a
    started sensor.  The answer to the motion-permission prompt is not among
    the events: on a device that prompts, the prompt stays unanswered, and
    the properties of whole runs are stated for devices that do not
    prompt. *)
Inductive Event : Type :=
| Tick (ms : N)
| Commit
| MainButtonClick
| ClearLogsClick
| TimerFires (h : positive)
| OscillatorEnded (o : positive)
| AudioResumed
| GeolocationSuccess (i : nat) (coords : Coordinates)
| GeolocationError (i : nat) (errorText : string)
| DeviceMotion (acc : option Axes)
| GyroscopeReading (sensor : Axes)
| ProximityReading (near : option bool)
| DeviceProximity (value max : float)
| LightActivate (illuminance : option float)
| LightReading (illuminance : option float)
| MagnetometerReading (sensor : Axes)
| BarometerActivate (pressure : option float)
| BarometerReading (pressure : option float)
| VolumeUpClick
| VolumeDownClick
| PageClick
| SensorFault (kind : SensorKind) (error : SensorError).

(** A click on a control: a disabled button gets no event; otherwise the
    handler of the control runs and the click bubbles to the root element
    of the page, whose [onClick] calls [getAudioContext]. *)
Definition clickOn (disabled : bool) (handler : App -> App) (s : App)
  : App :=
  if disabled then s else snd (getAudioContext (handler s)).

Definition SensorKind_eqb (a b : SensorKind) : bool :=
  match a, b with
  | Accelerometer, Accelerometer
  | GyroscopeSensor, GyroscopeSensor
  | Proximity, Proximity
  | ProximityLegacy, ProximityLegacy
  | AmbientLight, AmbientLight
  | MagnetometerSensor, MagnetometerSensor
  | BarometerSensor, BarometerSensor => true
  | _, _ => false
  end.

Definition attached (kind : SensorKind) (s : App) : bool :=
  existsb (SensorKind_eqb kind) (listeners s).

(** A timer that comes due: a timeout leaves the queue, an interval stays. *)
Definition fireTimer (h : positive) (s : App) : App :=
  match lookupTimer h (timers s) with
  | Some ArmingTimeout => armingTimeoutCallback (clearTimer h s)
  | Some ActivationLogTimeout => activationLogCallback (clearTimer h s)
  | Some AlarmInterval => playSirenBurst s
  | None => s
  end.

(** The browser delivers a reading only to an attached handler. *)
Definition deliver (kind : SensorKind) (handler : App -> App) (s : App)
  : App :=
  if attached kind s then handler s else s.

(** [sensor.onerror] of the sensor of [kind]; the accelerometer and the
    legacy proximity event are events of [window], which have none. *)
Definition sensorOnError (kind : SensorKind) (error : SensorError)
  (s : App) : App :=
  match kind with
  | GyroscopeSensor => gyroscopeOnError error s
  | Proximity => proximityOnError error s
  | AmbientLight => lightOnError error s
  | MagnetometerSensor => magnetometerOnError error s
  | BarometerSensor => barometerOnError error s
  | Accelerometer | ProximityLegacy => s
  end.

Definition step (e : Event) (s : App) : App :=
  match e with
  | Tick ms => set_clock (clock s + ms)%N s
  | Commit => commit s
  | MainButtonClick =>
      clickOn (isArmingRef s && negb (isAlarmPlayingRef s)) mainButtonClick s
  | ClearLogsClick => clickOn false clearLogs s
  | TimerFires h => fireTimer h s
  | OscillatorEnded o => oscillatorEnded o s
  | AudioResumed =>
      match audioContextRef s with
      | Some suspended => set_audioContextRef (Some running) s
      | _ => s
      end
  | GeolocationSuccess i coords => geolocationSuccess i coords s
  | GeolocationError i errorText => geolocationError i errorText s
  | DeviceMotion acc => deliver Accelerometer (motionHandlerInternal acc) s
  | GyroscopeReading r => deliver GyroscopeSensor (gyroscopeOnReading r) s
  | ProximityReading near => deliver Proximity (proximityOnReading near) s
  | DeviceProximity value max =>
      deliver ProximityLegacy (proximityEventHandler value max) s
  | LightActivate v => deliver AmbientLight (lightOnActivate v) s
  | LightReading v => deliver AmbientLight (lightOnReading v) s
  | MagnetometerReading r =>
      deliver MagnetometerSensor (magnetometerOnReading r) s
  | BarometerActivate v => deliver BarometerSensor (barometerOnActivate v) s
  | BarometerReading v => deliver BarometerSensor (barometerOnReading v) s
  | VolumeUpClick => clickOn (1 <=? renderedVolume s) onVolumeUp s
  | VolumeDownClick => clickOn (renderedVolume s <=? 0) onVolumeDown s
  | PageClick => clickOn false (fun s => s) s
  | SensorFault kind error => deliver kind (sensorOnError kind error) s
  end.

Definition run (events : list Event) (s : App) : App :=
  fold_left (fun s e => step e s) events s.

(** The component once mounted, at instant [now]. *)
Definition initialApp (p : Platform) (now : N) : App :=
  {| isServiceActive := false;
     isArming := false;
     alarmVolume := 0.9;
     logs := [];
     isAlarmPlaying := false;
     errorMessage := None;
     supportedSensors := [];
     lastAccelRef := None;
     armingTimeoutRef := None;
     audioContextRef := None;
     oscillatorRef := None;
     gainNodeRef := None;
     alarmIntervalRef := None;
     lastIlluminanceRef := None;
     lastMagnetometerReadingRef := None;
     lastPressureRef := None;
     isAlarmPlayingRef := false;
     isServiceActiveRef := false;
     isArmingRef := false;
     supportedSensorsRef := [];
     prevIsArmingRef := Some false;
     hasLoggedActivationRef := false;
     activationLogCleanup := None;
     listeners := [];
     clock := now;
     timers := [];
     nextHandle := 1;
     playing := [];
     burstsPlayed := 0;
     geolocationPending := [];
     renderedVolume := 0.9;
     sirenVolume := 0.9;
     platform := p |}.

(** ** The state the view shows *)

Inductive ServiceState : Type := Inactive | Arming | Active | Alarming.

(** [getCurrentStatus]. *)
Definition serviceState (s : App) : ServiceState :=
  if isAlarmPlaying s then Alarming
  else if isArming s then Arming
  else if isServiceActive s then Active
  else Inactive.

(** The mirror refs agree with the state: a commit has run since the last
    state change. *)
Definition committed (s : App) : Prop :=
  isAlarmPlayingRef s = isAlarmPlaying s
  /\ isServiceActiveRef s = isServiceActive s
  /\ isArmingRef s = isArming s.

(** ** A device and a run, for the examples *)

(** A phone with every sensor of the Generic Sensor API, all of which
    start, audio that starts running, no position service and no prompt
    for the motion permission. *)
Definition examplePhone : Platform :=
  {| audioContextCtor := Some running;
     hasGeolocation := false;
     hasDeviceMotion := true;
     hasGyroscope := true;
     hasProximitySensor := true;
     hasDeviceProximity := false;
     hasAmbientLightSensor := true;
     hasMagnetometer := true;
     hasBarometer := true;
     numberToFixed := fun _ _ => "?";
     motionNeedsPermission := false;
     gyroscopeFails := None;
     proximitySensorFails := None;
     ambientLightSensorFails := None;
     magnetometerFails := None;
     barometerFails := None;
     locationProtocol := "https:";
     locationHostname := "tepeguei.example" |}.

(** A reading with its three axes present. *)
Definition reading (x y z : float) : Axes :=
  {| ax := Some x; ay := Some y; az := Some z |}.

(** The user arms the service and the arming delay is running. *)
Definition exampleArming : App :=
  run [MainButtonClick; Commit] (initialApp examplePhone 1000).

(** The delay has elapsed: the service is active and no reading has been
    delivered yet. *)
Definition exampleActive : App :=
  run [Tick 3000; TimerFires 1; Commit; TimerFires 2; Commit] exampleArming.

(** The phone is lifted: the accelerometer sees (0, 0, 9.8) and then
    (0, 0, 11.0). *)
Definition exampleAlarming : App :=
  run [DeviceMotion (Some (reading 0 0 9.8));
       DeviceMotion (Some (reading 0 0 11.0));
       Commit] exampleActive.

(** A log at its cap of 50 entries. *)
Definition exampleFullLog : App :=
  Nat.iter 50
    (fun s => addLogEntry "Acelerometro ativado." None (step (Tick 1) s))
    (initialApp examplePhone 1000).

(** The phone lies still: the first accelerometer reading, (0, 0, 9.8), has
    become the baseline. *)
Definition exampleResting : App :=
  run [DeviceMotion (Some (reading 0 0 9.8))] exampleActive.


(** ** The vocabulary of the specification *)

(** A sensor value that "equals 0 or is null/undefined". *)
Definition zeroOrMissing (v : option float) : bool :=
  match v with
  | Some x => x =? 0
  | None => true
  end.

(** The condition under which the gyroscope handler reaches the trigger
    path, read off the source: every axis is truthy and the magnitude of one
    of them is above the threshold. *)
Definition gyroscopeExceeds (sensor : Axes) : bool :=
  match sensor with
  | {| ax := Some x; ay := Some y; az := Some z |} =>
      (truthy (Some x) && truthy (Some y) && truthy (Some z)
       && ((GYROSCOPE_THRESHOLD <? abs x) || (GYROSCOPE_THRESHOLD <? abs y)
           || (GYROSCOPE_THRESHOLD <? abs z)))%bool
  | _ => false
  end.

(** The larger of two numbers. *)
Definition maxFloat (a b : float) : float := if a <? b then b else a.

(** The gyroscope delta as the specification words it: the largest of
    the per-axis absolute differences between the previous and the current
    reading. *)
Definition gyroscopeDeltaPerSpec (prev cur : Vec3) : float :=
  maxFloat (maxFloat (abs (vx cur - vx prev)) (abs (vy cur - vy prev)))
    (abs (vz cur - vz prev)).

(** No sensor has a baseline. *)
Definition noBaselines (s : App) : Prop :=
  lastAccelRef s = None
  /\ lastIlluminanceRef s = None
  /\ lastMagnetometerReadingRef s = None
  /\ lastPressureRef s = None.

(** The cells that decide what a reading does: the four baselines, the
    three state flags and their mirrors. *)
Definition control (s : App)
  : (option Vec3 * option float * option Vec3 * option float)
    * (bool * bool * bool) * (bool * bool * bool) :=
  ((lastAccelRef s, lastIlluminanceRef s, lastMagnetometerReadingRef s,
    lastPressureRef s),
   (isServiceActive s, isArming s, isAlarmPlaying s),
   (isServiceActiveRef s, isArmingRef s, isAlarmPlayingRef s)).

(** What the browser holds for the component: the attached handlers and
    the pending timers. *)
Definition wiring (s : App) : list SensorKind * list (positive * Timer) :=
  (listeners s, timers s).

(** Every pending timer was handed out before [nextHandle]. *)
Definition handlesBelowNext (s : App) : bool :=
  forallb (fun p => Pos.ltb (fst p) (nextHandle s)) (timers s).

(** No callback of the activation effect is waiting in the timer queue. *)
Definition noActivationTimer (s : App) : bool :=
  forallb (fun p => match snd p with
                    | ActivationLogTimeout => false
                    | _ => true
                    end) (timers s).

(** The service is off: nothing is wanted, no alarm plays, no reading
    handler is attached and no activation entry is on its way. *)
Definition quiet (s : App) : Prop :=
  isServiceActive s = false
  /\ isArming s = false
  /\ isAlarmPlaying s = false
  /\ listeners s = []
  /\ noActivationTimer s = true.

(** ** What a running component keeps *)

(** The pending repeat timers of the siren. *)
Definition isAlarmInterval (p : positive * Timer) : bool :=
  match snd p with
  | AlarmInterval => true
  | _ => false
  end.

Definition intervals (s : App) : list (positive * Timer) :=
  filter isAlarmInterval (timers s).

(** Reading handlers are attached only while the committed flags say
    active and not arming. *)
Definition attachedOnlyWhileActive (s : App) : Prop :=
  listeners s = []
  \/ (isServiceActiveRef s = true /\ isArmingRef s = false).

(** At most one oscillator sounds, and it is the one [oscillatorRef]
    holds. *)
Definition oneVoice (s : App) : Prop :=
  playing s = []
  \/ exists o g, playing s = [(o, g)] /\ oscillatorRef s = Some o.

(** At most one repeat timer of the siren is pending, and it is the one
    [alarmIntervalRef] holds. *)
Definition oneSirenTimer (s : App) : Prop :=
  intervals s = []
  \/ exists h, intervals s = [(h, AlarmInterval)]
               /\ alarmIntervalRef s = Some h.

(** The incident log is within its cap. *)
Definition logWithinCap (s : App) : Prop :=
  (List.length (logs s) <= 50)%nat.

(** The siren and the log are in order. *)
Definition sound (s : App) : Prop :=
  oneVoice s /\ oneSirenTimer s /\ logWithinCap s.

(** The cells [sound] reads. *)
Definition kept (s : App) :=
  (playing s, oscillatorRef s, timers s, alarmIntervalRef s, logs s).

(** The cells [attachedOnlyWhileActive] reads. *)
Definition shell (s : App) :=
  (listeners s, isServiceActiveRef s, isArmingRef s).

(** Nothing sounds and no repeat timer of the siren is pending. *)
Definition silent (s : App) : Prop :=
  playing s = [] /\ intervals s = [].

(** The largest per-axis change of the magnetometer handler exceeds its
    threshold. *)
Definition magnetometerExceeds (last cur : Vec3) : bool :=
  ((MAGNETOMETER_CHANGE_THRESHOLD_UT <? abs (vx cur - vx last))
   || (MAGNETOMETER_CHANGE_THRESHOLD_UT <? abs (vy cur - vy last))
   || (MAGNETOMETER_CHANGE_THRESHOLD_UT <? abs (vz cur - vz last)))%bool.

(** The active phone after a first reading of the magnetometer, of the light
    sensor and of the barometer: each has become the baseline. *)
Definition exampleMagnetized : App :=
  run [MagnetometerReading (reading 10 20 30)] exampleActive.

Definition exampleLit : App :=
  run [LightReading (Some 100)] exampleActive.

Definition examplePressurized : App :=
  run [BarometerReading (Some 101325)] exampleActive.

(** The volumes the two buttons can reach from the initial 0.9. *)
Definition volumeLevels : list float :=
  [0x0p+0; 0x1.0000000000000p-55; 0x1.4000000000000p-53;
   0x1.999999999999ap-4; 0x1.999999999999cp-4; 0x1.99999999999a4p-4;
   0x1.999999999999ap-3; 0x1.999999999999bp-3; 0x1.999999999999fp-3;
   0x1.3333333333334p-2; 0x1.3333333333336p-2; 0x1.999999999999ap-2;
   0x1.999999999999cp-2; 0x1.0000000000000p-1; 0x1.0000000000001p-1;
   0x1.3333333333333p-1; 0x1.3333333333334p-1; 0x1.6666666666666p-1;
   0x1.6666666666667p-1; 0x1.9999999999999p-1; 0x1.999999999999ap-1;
   0x1.cccccccccccccp-1; 0x1.ccccccccccccdp-1; 0x1.fffffffffffffp-1;
   0x1.0000000000000p+0].

(** ** Single lines *)

(** The text holds no line break. *)
Fixpoint singleLine (s : string) : bool :=
  match s with
  | EmptyString => true
  | String c rest => (negb (Ascii.eqb c "010"%char) && singleLine rest)%bool
  end.

(** What an entry of the log is made from. *)
Definition journal (s : App) :=
  (logs s, geolocationPending s, clock s, platform s).

(** What the siren is to the user: the alarm flag, the nodes that sound and
    the pending timers. *)
Definition siren (s : App) := (isAlarmPlaying s, playing s, timers s).

(** The siren is silent unless the alarm flag is set. *)
Definition hushed (s : App) : Prop := isAlarmPlaying s = false -> silent s.

(** ** The sensors of a device *)

(** The sensor effect of [kind] attaches its handler when it runs: the
    test each effect makes, and a [try] block that throws nothing.  The
    accelerometer is not attached by the effect where the permission has to
    be asked for, and the legacy proximity event is used only where the
    proximity sensor is missing. *)
Definition available (p : Platform) (kind : SensorKind) : bool :=
  match kind with
  | Accelerometer => (hasDeviceMotion p && negb (motionNeedsPermission p))%bool
  | GyroscopeSensor =>
      match gyroscopeFails p with None => hasGyroscope p | Some _ => false end
  | Proximity =>
      match proximitySensorFails p with
      | None => hasProximitySensor p
      | Some _ => false
      end
  | ProximityLegacy => (negb (hasProximitySensor p) && hasDeviceProximity p)%bool
  | AmbientLight =>
      match ambientLightSensorFails p with
      | None => hasAmbientLightSensor p
      | Some _ => false
      end
  | MagnetometerSensor =>
      match magnetometerFails p with
      | None => hasMagnetometer p
      | Some _ => false
      end
  | BarometerSensor =>
      match barometerFails p with None => hasBarometer p | Some _ => false end
  end.

(** The sensors of the device, in the order of the effects. *)
Definition availableSensors (p : Platform) : list SensorKind :=
  filter (available p)
    [Accelerometer; GyroscopeSensor; Proximity; ProximityLegacy; AmbientLight;
     MagnetometerSensor; BarometerSensor].

(** What arming works on: the handlers, the timers and their handles, the
    device. *)
Definition bench (s : App) :=
  (wiring s, nextHandle s, platform s, activationLogCleanup s).

(** The alarm shows, the callbacks know it, and nothing sounds. *)
Definition muted (s : App) : Prop :=
  isAlarmPlayingRef s = true /\ isAlarmPlaying s = true /\ silent s.

(** The phone of the examples with an audio context that starts suspended,
    as browsers create it before the first gesture; the service is active. *)
Definition exampleSuspendedPhone : Platform :=
  {| audioContextCtor := Some suspended;
     hasGeolocation := false;
     hasDeviceMotion := true;
     hasGyroscope := true;
     hasProximitySensor := true;
     hasDeviceProximity := false;
     hasAmbientLightSensor := true;
     hasMagnetometer := true;
     hasBarometer := true;
     numberToFixed := fun _ _ => "?";
     motionNeedsPermission := false;
     gyroscopeFails := None;
     proximitySensorFails := None;
     ambientLightSensorFails := None;
     magnetometerFails := None;
     barometerFails := None;
     locationProtocol := "https:";
     locationHostname := "tepeguei.example" |}.

Definition exampleSuspendedActive : App :=
  run [MainButtonClick; Commit; Tick 3000; TimerFires 1; Commit]
    (initialApp exampleSuspendedPhone 1000).

(** The name under which the effect of a sensor registers it with
    [addSupportedSensor]. *)
Definition sensorName (kind : SensorKind) : string :=
  match kind with
  | Accelerometer => "Acelerometro"
  | GyroscopeSensor => "Giroscopio"
  | Proximity => "Proximidade"
  | ProximityLegacy => "Proximidade (legado)"
  | AmbientLight => "Luminosidade"
  | MagnetometerSensor => "Magnetometro"
  | BarometerSensor => "Barometro"
  end.

(** The updater of [addSupportedSensor]. *)
Definition withSensor (name : string) (names : list string) : list string :=
  if existsb (String.eqb name) names then names else (names ++ [name])%list.

(** What the activation entry is made from, besides the names. *)
Definition desk (s : App) :=
  (timers s, nextHandle s, supportedSensorsRef s, hasLoggedActivationRef s,
   activationLogCleanup s).

(** The volume, and the volume the last render saw. *)
Definition volumes (s : App) := (alarmVolume s, renderedVolume s).

(** The service has just been armed: the state is committed and Arming,
    nothing is left of an earlier activation, and every pending timer got
    its handle from the counter. *)
Definition freshlyArmed (s : App) : Prop :=
  committed s
  /\ serviceState s = Arming
  /\ isServiceActive s = true
  /\ prevIsArmingRef s = Some true
  /\ hasLoggedActivationRef s = false
  /\ supportedSensors s = []
  /\ activationLogCleanup s = None
  /\ handlesBelowNext s = true.

(** The text of the activation entry for the given names. *)
Definition activationMessage (names : list string) : string :=
  "Servico ATIVO. Monitoramento iniciado com sensores: "
  ++ match names with
     | [] => "sensores padrao (como Acelerometro, se permitido e disponivel)"
     | _ => concat ", " names
     end
  ++ ".".

(** ** More runs and devices for the examples *)

(** An evening with the phone of the examples: the service is armed, the
    volume is turned down, the phone is lifted, the page is tapped, the
    gyroscope reports an error, the alarm is stopped and the log cleared. *)
Definition exampleEvening : list Event :=
  [MainButtonClick; Commit; Tick 3000; TimerFires 1; Commit; TimerFires 2;
   Commit; VolumeDownClick; Commit;
   DeviceMotion (Some (reading 0 0 9.8));
   DeviceMotion (Some (reading 0 0 11.0)); Commit; PageClick;
   SensorFault GyroscopeSensor
     {| errName := "NotReadableError"; errMessage := "sensor lost" |};
   MainButtonClick; Commit; ClearLogsClick].

(** The phone is lifted, then the page is tapped and the volume turned up
    while the siren sounds. *)
Definition exampleLifted : list Event :=
  [MainButtonClick; Commit; Tick 3000; TimerFires 1; Commit; TimerFires 2;
   Commit;
   DeviceMotion (Some (reading 0 0 9.8));
   DeviceMotion (Some (reading 0 0 11.0)); Commit; PageClick; VolumeUpClick].

(** The phone of the active service is shaken: sixty accelerometer
    readings that differ from each other, before any commit. *)
Definition exampleShaken : list Event :=
  [MainButtonClick; Commit; Tick 3000; TimerFires 1; Commit; TimerFires 2;
   Commit]
  ++ List.concat (repeat [DeviceMotion (Some (reading 0 0 9.8));
                          DeviceMotion (Some (reading 0 0 11.0))] 30).

(** A phone that asks for the motion permission and whose gyroscope
    refuses to start. *)
Definition exampleGuardedPhone : Platform :=
  {| audioContextCtor := Some running;
     hasGeolocation := false;
     hasDeviceMotion := true;
     hasGyroscope := true;
     hasProximitySensor := false;
     hasDeviceProximity := true;
     hasAmbientLightSensor := true;
     hasMagnetometer := false;
     hasBarometer := false;
     numberToFixed := fun _ _ => "?";
     motionNeedsPermission := true;
     gyroscopeFails :=
       Some {| errName := "SecurityError"; errMessage := "blocked" |};
     proximitySensorFails := None;
     ambientLightSensorFails := None;
     magnetometerFails := None;
     barometerFails := None;
     locationProtocol := "https:";
     locationHostname := "tepeguei.example" |}.

(** The user arms the service on it and the arming delay is running. *)
Definition exampleGuardedArming : App :=
  run [MainButtonClick; Commit] (initialApp exampleGuardedPhone 1000).

(** What follows an alarm raised without running audio: the browser
    resumes the audio context, the user turns the volume up and taps the
    page, and the gyroscope reports an error. *)
Definition exampleAfterSilentAlarm : list Event :=
  [AudioResumed; Tick 1000; Commit; VolumeUpClick; Commit; PageClick;
   SensorFault GyroscopeSensor
     {| errName := "NotReadableError"; errMessage := "sensor lost" |};
   ClearLogsClick].


(** * Properties *)

(** ** Records *)

(** A setter stores its argument in its cell. *)
Lemma setters_store (s : App) :
  (forall v, isServiceActive (setIsServiceActive v s) = v)
  /\ (forall v, isArming (setIsArming v s) = v)
  /\ (forall v, logs (setLogs v s) = v)
  /\ (forall v, isAlarmPlaying (setIsAlarmPlaying v s) = v)
  /\ (forall v, errorMessage (setErrorMessage v s) = v)
  /\ (forall v, supportedSensors (setSupportedSensors v s) = v)
  /\ (forall v, lastAccelRef (set_lastAccelRef v s) = v)
  /\ (forall v, armingTimeoutRef (set_armingTimeoutRef v s) = v)
  /\ (forall v, audioContextRef (set_audioContextRef v s) = v)
  /\ (forall v, oscillatorRef (set_oscillatorRef v s) = v)
  /\ (forall v, gainNodeRef (set_gainNodeRef v s) = v)
  /\ (forall v, alarmIntervalRef (set_alarmIntervalRef v s) = v)
  /\ (forall v, lastIlluminanceRef (set_lastIlluminanceRef v s) = v)
  /\ (forall v, lastMagnetometerReadingRef (set_lastMagnetometerReadingRef v s) = v)
  /\ (forall v, lastPressureRef (set_lastPressureRef v s) = v)
  /\ (forall v, isAlarmPlayingRef (set_isAlarmPlayingRef v s) = v)
  /\ (forall v, isServiceActiveRef (set_isServiceActiveRef v s) = v)
  /\ (forall v, isArmingRef (set_isArmingRef v s) = v)
  /\ (forall v, supportedSensorsRef (set_supportedSensorsRef v s) = v)
  /\ (forall v, prevIsArmingRef (set_prevIsArmingRef v s) = v)
  /\ (forall v, hasLoggedActivationRef (set_hasLoggedActivationRef v s) = v)
  /\ (forall v, activationLogCleanup (set_activationLogCleanup v s) = v)
  /\ (forall v, listeners (set_listeners v s) = v)
  /\ (forall v, clock (set_clock v s) = v)
  /\ (forall v, timers (set_timers v s) = v)
  /\ (forall v, nextHandle (set_nextHandle v s) = v)
  /\ (forall v, playing (set_playing v s) = v)
  /\ (forall v, burstsPlayed (set_burstsPlayed v s) = v)
  /\ (forall v, geolocationPending (set_geolocationPending v s) = v)
  /\ (forall v, alarmVolume (setAlarmVolume v s) = v)
  /\ (forall v, renderedVolume (set_renderedVolume v s) = v)
  /\ (forall v, sirenVolume (set_sirenVolume v s) = v).
Proof. repeat split. Qed.

(** A setter leaves the other cells alone: writing back what the cell
    holds gives the same state. *)
Lemma setters_keep (s : App) :
  setIsServiceActive (isServiceActive s) s = s
  /\ setIsArming (isArming s) s = s
  /\ setLogs (logs s) s = s
  /\ setIsAlarmPlaying (isAlarmPlaying s) s = s
  /\ setErrorMessage (errorMessage s) s = s
  /\ setSupportedSensors (supportedSensors s) s = s
  /\ set_lastAccelRef (lastAccelRef s) s = s
  /\ set_armingTimeoutRef (armingTimeoutRef s) s = s
  /\ set_audioContextRef (audioContextRef s) s = s
  /\ set_oscillatorRef (oscillatorRef s) s = s
  /\ set_gainNodeRef (gainNodeRef s) s = s
  /\ set_alarmIntervalRef (alarmIntervalRef s) s = s
  /\ set_lastIlluminanceRef (lastIlluminanceRef s) s = s
  /\ set_lastMagnetometerReadingRef (lastMagnetometerReadingRef s) s = s
  /\ set_lastPressureRef (lastPressureRef s) s = s
  /\ set_isAlarmPlayingRef (isAlarmPlayingRef s) s = s
  /\ set_isServiceActiveRef (isServiceActiveRef s) s = s
  /\ set_isArmingRef (isArmingRef s) s = s
  /\ set_supportedSensorsRef (supportedSensorsRef s) s = s
  /\ set_prevIsArmingRef (prevIsArmingRef s) s = s
  /\ set_hasLoggedActivationRef (hasLoggedActivationRef s) s = s
  /\ set_activationLogCleanup (activationLogCleanup s) s = s
  /\ set_listeners (listeners s) s = s
  /\ set_clock (clock s) s = s
  /\ set_timers (timers s) s = s
  /\ set_nextHandle (nextHandle s) s = s
  /\ set_playing (playing s) s = s
  /\ set_burstsPlayed (burstsPlayed s) s = s
  /\ set_geolocationPending (geolocationPending s) s = s
  /\ setAlarmVolume (alarmVolume s) s = s
  /\ set_renderedVolume (renderedVolume s) s = s
  /\ set_sirenVolume (sirenVolume s) s = s.
Proof. destruct s. repeat split. Qed.





(** ** The incident log *)

Lemma firstn_removelast {A : Type} (l : list A) (n : nat) :
  List.length l = S n -> firstn n l = removelast l.
Proof.
  intros Hlen. rewrite removelast_firstn_len, Hlen. reflexivity.
Qed.

Lemma addLogEntry_logs (m : string) (c : option Coordinates) (s : App) :
  exists e, logs (addLogEntry m c s) = e :: firstn 49 (logs s)
            /\ message e = m /\ id e = freshId s /\ timestamp e = clock s.
Proof.
  eexists. split; [reflexivity|]. cbn. auto.
Qed.

Lemma addLogEntry_length (m : string) (c : option Coordinates) (s : App) :
  List.length (logs (addLogEntry m c s)) = Nat.min (S (List.length (logs s))) 50.
Proof.
  unfold addLogEntry; cbn [logs setLogs List.length].
  rewrite length_firstn. lia.
Qed.

(** C7: appending to a log of 50 entries gives a log of exactly 50 entries:
    the new entry comes first, the former entries follow in their order, and
    the last (oldest) of them is gone. *)
Theorem addLogEntry_evicts_oldest
  (m : string) (c : option Coordinates) (s : App)
  (Hfull : List.length (logs s) = 50%nat) :
  exists e,
    logs (addLogEntry m c s) = e :: removelast (logs s)
    /\ message e = m
    /\ List.length (logs (addLogEntry m c s)) = 50%nat
    /\ logs s = (removelast (logs s) ++ [last (logs s) e])%list.
Proof.
  destruct (addLogEntry_logs m c s) as (e & Hlogs & Hm & _).
  exists e. rewrite Hlogs, (firstn_removelast (logs s) 49 Hfull).
  repeat split; trivial.
  - cbn [List.length]. rewrite removelast_firstn_len, length_firstn, Hfull.
    reflexivity.
  - apply app_removelast_last. intros Hnil. rewrite Hnil in Hfull.
    discriminate.
Qed.

(** ** Frames: what an operation leaves alone *)

(** Closes [view (setters t) = view s] from [H : view t = view s], when the
    setters leave the view alone. *)
Ltac through H := etransitivity; [|exact H]; reflexivity.

Lemma getAudioContext_control (s : App) :
  control (snd (getAudioContext s)) = control s.
Proof.
  unfold getAudioContext.
  destruct (audioContextRef s); [reflexivity|].
  destruct (audioContextCtor _); reflexivity.
Qed.

Lemma getAudioContext_wiring (s : App) :
  wiring (snd (getAudioContext s)) = wiring s.
Proof.
  unfold getAudioContext.
  destruct (audioContextRef s); [reflexivity|].
  destruct (audioContextCtor _); reflexivity.
Qed.

Lemma playSirenBurst_control (s : App) :
  control (playSirenBurst s) = control s.
Proof.
  unfold playSirenBurst.
  pose proof (getAudioContext_control s) as H.
  destruct (getAudioContext s) as [ctx s']. cbn [snd] in H.
  destruct ctx as [[]|]; try exact H.
  destruct (oscillatorRef s'); through H.
Qed.

Lemma playSirenBurst_wiring (s : App) :
  wiring (playSirenBurst s) = wiring s.
Proof.
  unfold playSirenBurst.
  pose proof (getAudioContext_wiring s) as H.
  destruct (getAudioContext s) as [ctx s']. cbn [snd] in H.
  destruct ctx as [[]|]; try exact H.
  destruct (oscillatorRef s'); through H.
Qed.

Lemma startAlarmSound_control (s : App) :
  control (startAlarmSound s) = control s.
Proof.
  unfold startAlarmSound.
  set (s0 := clearTimerRef (alarmIntervalRef s) s).
  assert (H0 : control s0 = control s).
  { unfold s0, clearTimerRef. destruct (alarmIntervalRef s); reflexivity. }
  pose proof (getAudioContext_control s0) as H.
  destruct (getAudioContext s0) as [ctx s']. cbn [snd] in H.
  rewrite H0 in H.
  destruct ctx as [[]|]; try through H.
  pose proof (playSirenBurst_control (set_sirenVolume (renderedVolume s') s'))
    as Hb.
  change (control (set_sirenVolume (renderedVolume s') s'))
    with (control s') in Hb.
  rewrite H in Hb. unfold setTimer. through Hb.
Qed.

Lemma control_isAlarmPlaying (s t : App) :
  control s = control t -> isAlarmPlaying s = isAlarmPlaying t.
Proof. unfold control. intros H. injection H. auto. Qed.

Lemma startAlarmSound_isAlarmPlaying (s : App) :
  isAlarmPlaying (startAlarmSound s) = isAlarmPlaying s.
Proof. apply control_isAlarmPlaying, startAlarmSound_control. Qed.

(** ** The trigger path *)

Lemma triggerAlarm_while_ref_set (src : string) (s : App) :
  isAlarmPlayingRef s = true -> triggerAlarm src s = s.
Proof. intros Href. unfold triggerAlarm. rewrite Href. reflexivity. Qed.

Lemma triggerAlarm_isAlarmPlaying (src : string) (s : App) :
  isAlarmPlayingRef s = false -> isAlarmPlaying (triggerAlarm src s) = true.
Proof.
  intros Href. unfold triggerAlarm. rewrite Href. cbn [negb].
  destruct (hasGeolocation _);
    (etransitivity;
     [|exact (startAlarmSound_isAlarmPlaying (setIsAlarmPlaying true s))]);
    reflexivity.
Qed.

(** While the service shows [Active] and a commit has run, the guard of the
    reading handlers lets readings through. *)
Lemma active_committed (s : App) :
  committed s -> serviceState s = Active ->
  ignoresReadings s = false /\ isAlarmPlayingRef s = false
  /\ isAlarmPlaying s = false.
Proof.
  intros (Hplay & Hsvc & Harm). unfold serviceState, ignoresReadings.
  rewrite Hplay, Hsvc, Harm.
  destruct (isAlarmPlaying s), (isArming s), (isServiceActive s);
    intros; try discriminate; auto.
Qed.

Lemma alarming_committed (s : App) :
  committed s -> serviceState s = Alarming ->
  isAlarmPlayingRef s = true /\ ignoresReadings s = true.
Proof.
  intros (Hplay & _ & _). unfold serviceState, ignoresReadings.
  rewrite Hplay. destruct (isAlarmPlaying s).
  - intros _. split; [reflexivity|]. destruct (isArmingRef s); reflexivity.
  - destruct (isArming s), (isServiceActive s); discriminate.
Qed.

(** Once a commit has run in the Alarming state, the mirror ref is set: a
    further call of [triggerAlarm] changes nothing at all (state, incident
    log, interval of the siren, bursts played), and every reading handler
    returns at its guard. *)
Theorem triggerAlarm_noop_while_alarming (src : string) (s : App)
  (Hcommitted : committed s) (Halarming : serviceState s = Alarming) :
  triggerAlarm src s = s
  /\ logs (triggerAlarm src s) = logs s
  /\ alarmIntervalRef (triggerAlarm src s) = alarmIntervalRef s
  /\ timers (triggerAlarm src s) = timers s
  /\ burstsPlayed (triggerAlarm src s) = burstsPlayed s
  /\ (forall acc, motionHandlerInternal acc s = s)
  /\ (forall r, gyroscopeOnReading r s = s)
  /\ (forall near, proximityOnReading near s = s)
  /\ (forall value max, proximityEventHandler value max s = s)
  /\ (forall v, lightOnReading v s = s)
  /\ (forall r, magnetometerOnReading r s = s)
  /\ (forall v, barometerOnReading v s = s).
Proof.
  destruct (alarming_committed s Hcommitted Halarming) as [Href Hgate].
  rewrite (triggerAlarm_while_ref_set src s Href).
  repeat split; intros;
    unfold motionHandlerInternal, gyroscopeOnReading, proximityOnReading,
      proximityEventHandler, lightOnReading, magnetometerOnReading,
      barometerOnReading;
    rewrite Hgate; reflexivity.
Qed.

(** ** The gyroscope *)

Lemma zeroOrMissing_falsy (v : option float) :
  zeroOrMissing v = true -> truthy v = false.
Proof.
  destruct v as [x|]; cbn [zeroOrMissing truthy]; [|reflexivity].
  intros Hzero. change (x =? 0) with (is_zero x) in Hzero.
  rewrite Hzero. reflexivity.
Qed.

(** C10: a gyroscope reading with an axis that is 0, null or undefined
    leaves the handler at its guard: the state is returned as it was, the
    trigger path is not reached, whatever the other axes hold. *)
Theorem gyroscope_ignores_zero_axis (sensor : Axes) (s : App)
  (Hzero : (zeroOrMissing (ax sensor) || zeroOrMissing (ay sensor)
            || zeroOrMissing (az sensor))%bool = true) :
  gyroscopeOnReading sensor s = s
  /\ isAlarmPlaying (gyroscopeOnReading sensor s) = isAlarmPlaying s.
Proof.
  assert (Hsame : gyroscopeOnReading sensor s = s).
  { unfold gyroscopeOnReading.
    apply orb_true_iff in Hzero as [Hzero | Hz].
    - apply orb_true_iff in Hzero as [Hx | Hy].
      + rewrite (zeroOrMissing_falsy _ Hx). cbn.
        rewrite orb_true_r. reflexivity.
      + rewrite (zeroOrMissing_falsy _ Hy). cbn.
        rewrite orb_true_r. reflexivity.
    - rewrite (zeroOrMissing_falsy _ Hz). cbn.
      rewrite orb_true_r. reflexivity. }
  rewrite Hsame. split; reflexivity.
Qed.

Lemma gyroscopeOnReading_eq (sensor : Axes) (s : App) :
  ignoresReadings s = false ->
  gyroscopeOnReading sensor s =
  if gyroscopeExceeds sensor
  then triggerAlarm "Rotacao (Giroscopio) detectada!" s
  else s.
Proof.
  intros Hgate. unfold gyroscopeOnReading, gyroscopeExceeds.
  rewrite Hgate. destruct sensor as [[x|] [y|] [z|]]; cbn [ax ay az orb];
    try (destruct (truthy _); reflexivity);
    try (destruct (truthy _), (truthy _); reflexivity);
    try reflexivity.
  destruct (truthy (Some x)), (truthy (Some y)), (truthy (Some z));
    cbn [negb orb andb]; reflexivity.
Qed.

(** C2 (amended): the gyroscope handler keeps no previous reading.  While
    the service is Active it reaches the trigger path exactly when the three
    axes of the current reading are truthy and the magnitude of one of them
    is above 0.7 rad/s; otherwise it returns the state unchanged. *)
Theorem gyroscope_triggers_on_current_reading (sensor : Axes) (s : App)
  (Hcommitted : committed s) (Hactive : serviceState s = Active) :
  (isAlarmPlaying (gyroscopeOnReading sensor s) = true
   <-> gyroscopeExceeds sensor = true)
  /\ (gyroscopeExceeds sensor = false -> gyroscopeOnReading sensor s = s)
  /\ (gyroscopeExceeds sensor = true ->
      gyroscopeOnReading sensor s
      = triggerAlarm "Rotacao (Giroscopio) detectada!" s).
Proof.
  destruct (active_committed s Hcommitted Hactive) as (Hgate & Href & Hquiet).
  rewrite (gyroscopeOnReading_eq sensor s Hgate).
  destruct (gyroscopeExceeds sensor).
  - rewrite (triggerAlarm_isAlarmPlaying _ s Href). repeat split; auto.
    discriminate.
  - rewrite Hquiet. repeat split; auto; discriminate.
Qed.

(** ** The accelerometer *)



(** ** Baselines *)





(** ** Entering Active *)

Lemma startSensor_control (kind : SensorKind) (logText name : string)
  (s : App) :
  control (startSensor kind logText name s) = control s
  /\ platform (startSensor kind logText name s) = platform s.
Proof.
  unfold startSensor, addSupportedSensor, addLogEntry.
  cbn [supportedSensors setLogs set_listeners].
  destruct (existsb _ _); split; reflexivity.
Qed.

Lemma tryStartSensor_control (fails : option SensorError)
  (kind : SensorKind) (errorLabel logText name : string) (s : App) :
  control (tryStartSensor fails kind errorLabel logText name s) = control s
  /\ platform (tryStartSensor fails kind errorLabel logText name s)
     = platform s.
Proof.
  destruct fails; [split; reflexivity | apply startSensor_control].
Qed.

Lemma sensorEffects_control (s : App) :
  control (sensorEffects s) = control s.
Proof.
  unfold sensorEffects.
  destruct (isServiceActive s && negb (isArming s))%bool; [|reflexivity].
  generalize (platform s); intros p.
  repeat match goal with
         | |- context [if ?b then _ else _] => destruct b
         end;
    repeat match goal with
           | |- context [control (startSensor ?k ?l ?n ?t)] =>
               rewrite (proj1 (startSensor_control k l n t))
           | |- context [control (tryStartSensor ?f ?k ?e ?l ?n ?t)] =>
               rewrite (proj1 (tryStartSensor_control f k e l n t))
           end;
    reflexivity.
Qed.

Lemma activationEffect_control (s : App) :
  control (activationEffect s) = control s.
Proof.
  unfold activationEffect.
  cbn [isServiceActive isArming hasLoggedActivationRef set_prevIsArmingRef
       set_activationLogCleanup].
  destruct (isServiceActive s); [|reflexivity].
  destruct (prevIsArmingRef s) as [[|]|]; try reflexivity.
  destruct (negb (isArming s) && negb (hasLoggedActivationRef s))%bool;
    reflexivity.
Qed.

(** The three shapes of a commit. *)
Lemma commit_cases (s : App) :
  commit s
  = if flagsChanged s then
      sensorEffects
        (activationEffect
           (mirrorEffects
              (sensorCleanups
                 (clearTimerRef (activationLogCleanup s)
                    (set_renderedVolume (alarmVolume s) s)))))
    else if volumeChanged s then
      sensorEffects
        (mirrorEffects
           (sensorCleanups (set_renderedVolume (alarmVolume s) s)))
    else mirrorEffects (set_renderedVolume (alarmVolume s) s).
Proof.
  unfold commit. cbv zeta.
  destruct (flagsChanged s), (volumeChanged s); reflexivity.
Qed.



(** ** Stopping the alarm *)

Lemma lookupTimer_filter_None (h : positive) (f : positive * Timer -> bool)
  (ts : list (positive * Timer)) :
  lookupTimer h ts = None -> lookupTimer h (filter f ts) = None.
Proof.
  induction ts as [|[h' t] ts IH]; cbn [lookupTimer filter]; [reflexivity|].
  destruct (Pos.eqb h' h) eqn:E; [discriminate|].
  intros Hrest. destruct (f (h', t)); cbn [lookupTimer]; rewrite ?E; auto.
Qed.

Lemma lookupTimer_cleared (h : positive) (ts : list (positive * Timer)) :
  lookupTimer h (filter (fun p => negb (Pos.eqb (fst p) h)) ts) = None.
Proof.
  induction ts as [|[h' t] ts IH]; cbn [lookupTimer filter fst]; [reflexivity|].
  destruct (Pos.eqb h' h) eqn:E; cbn [negb lookupTimer]; rewrite ?E; exact IH.
Qed.

Lemma stopAlarmSound_spec (s : App) :
  let s' := stopAlarmSound s in
  alarmIntervalRef s' = None /\ oscillatorRef s' = None
  /\ gainNodeRef s' = None
  /\ logs s' = logs s /\ control s' = control s
  /\ armingTimeoutRef s' = armingTimeoutRef s
  /\ (forall h, alarmIntervalRef s = Some h -> lookupTimer h (timers s') = None)
  /\ (forall o, oscillatorRef s = Some o -> ~ In o (map fst (playing s'))).
Proof.
  unfold stopAlarmSound.
  destruct (alarmIntervalRef s) as [h|] eqn:Eh;
    cbn [oscillatorRef set_alarmIntervalRef clearTimer set_timers];
    destruct (oscillatorRef s) as [o|] eqn:Eo;
    cbn [gainNodeRef set_oscillatorRef stopOscillator set_playing
         set_alarmIntervalRef clearTimer set_timers];
    destruct (gainNodeRef s) as [g|] eqn:Eg;
    cbv zeta;
    (repeat split;
     [ try reflexivity; assumption ..
     | intros h0 Hh0; try discriminate; injection Hh0 as <-;
       apply lookupTimer_cleared
     | intros o0 Ho0; try discriminate; injection Ho0 as <-;
       cbn [playing set_gainNodeRef set_oscillatorRef stopOscillator
            set_playing set_alarmIntervalRef clearTimer set_timers];
       intros Hin; apply in_map_iff in Hin as ([o' g'] & Ho' & Hin);
       apply filter_In in Hin as [_ Hneq]; cbn [fst] in *; subst o';
       rewrite Pos.eqb_refl in Hneq; discriminate ]).
Qed.

Lemma control_flags (s t : App) :
  control s = control t ->
  isServiceActive s = isServiceActive t /\ isArming s = isArming t
  /\ isAlarmPlaying s = isAlarmPlaying t.
Proof. unfold control. intros H. injection H. auto. Qed.

Lemma control_mirrors (s t : App) :
  control s = control t ->
  isServiceActiveRef s = isServiceActiveRef t /\ isArmingRef s = isArmingRef t
  /\ isAlarmPlayingRef s = isAlarmPlayingRef t.
Proof. unfold control. intros H. injection H. auto. Qed.

(** The other way to leave Alarming, [toggleService] while the alarm plays,
    ends with the deactivation entry. *)
Lemma toggleService_logs_deactivation (s : App) :
  (isServiceActiveRef s || isArmingRef s)%bool = true ->
  option_map message (hd_error (logs (toggleService s)))
  = Some "Servico DESATIVADO pelo usuario.".
Proof.
  intros Hon. unfold toggleService.
  pose proof (getAudioContext_control (setSupportedSensors [] (setErrorMessage None s)))
    as H.
  destruct (getAudioContext _) as [ctx s']. cbn [snd] in H.
  apply control_mirrors in H as (Hs & Ha & _).
  cbn [isServiceActiveRef isArmingRef setSupportedSensors setErrorMessage]
    in Hs, Ha.
  rewrite Hs, Ha, Hon. reflexivity.
Qed.

Lemma stopAlarm_spec (s : App) :
  let s' := stopAlarm s in
  serviceState s' = Inactive
  /\ alarmIntervalRef s' = None
  /\ oscillatorRef s' = None
  /\ (forall h, alarmIntervalRef s = Some h -> lookupTimer h (timers s') = None)
  /\ (forall o, oscillatorRef s = Some o -> ~ In o (map fst (playing s')))
  /\ noBaselines s'
  /\ errorMessage s' = Some "Alarme parado. Servico DESATIVADO."
  /\ logs s' = logs s.
Proof.
  cbv zeta. unfold stopAlarm.
  destruct (stopAlarmSound_spec (setIsAlarmPlaying false s))
    as (Hint & Hosc & Hgain & Hlogs & Hctl & Harm & Htimer & Hplaying).
  set (s1 := stopAlarmSound (setIsAlarmPlaying false s)) in *.
  apply control_flags in Hctl as (_ & _ & Hal).
  cbn [isAlarmPlaying setIsAlarmPlaying] in Hal.
  set (s2 := set_lastPressureRef None _).
  assert (Hstate : forall t, isAlarmPlaying t = isAlarmPlaying s2 ->
                             isArming t = isArming s2 ->
                             isServiceActive t = isServiceActive s2 ->
                             serviceState t = Inactive).
  { intros t H1 H2 H3. unfold serviceState. rewrite H1, H2, H3.
    change (isAlarmPlaying s2) with (isAlarmPlaying s1). rewrite Hal.
    reflexivity. }
  unfold clearTimerRef.
  destruct (armingTimeoutRef s2) as [h2|] eqn:E2.
  - split; [apply Hstate; reflexivity|].
    split; [exact Hint|]. split; [exact Hosc|].
    split; [intros h Hh; apply lookupTimer_filter_None, (Htimer h), Hh|].
    split; [exact Hplaying|].
    split; [repeat split|].
    split; [reflexivity | exact Hlogs].
  - split; [apply Hstate; reflexivity|].
    split; [exact Hint|]. split; [exact Hosc|].
    split; [exact Htimer|].
    split; [exact Hplaying|].
    split; [repeat split|].
    split; [reflexivity | exact Hlogs].
Qed.

(** C4: [stopAlarm], the handler of the stop button, makes the service
    Inactive, stops the siren (no interval, no sounding oscillator) and
    empties the four baselines; it writes the advisory text and leaves the
    incident log as it was: no deactivation entry is appended.  On the
    alarming phone of the example the log is unchanged by the button, while
    [toggleService] from the same state adds the deactivation entry. *)
Theorem stopAlarm_appends_no_log_entry (s : App) :
  let s' := stopAlarm s in
  (serviceState s' = Inactive
   /\ alarmIntervalRef s' = None
   /\ oscillatorRef s' = None
   /\ (forall h, alarmIntervalRef s = Some h ->
       lookupTimer h (timers s') = None)
   /\ (forall o, oscillatorRef s = Some o -> ~ In o (map fst (playing s')))
   /\ noBaselines s'
   /\ errorMessage s' = Some "Alarme parado. Servico DESATIVADO."
   /\ logs s' = logs s)
  /\ serviceState exampleAlarming = Alarming
  /\ logs (step MainButtonClick exampleAlarming) = logs exampleAlarming
  /\ option_map message (hd_error (logs exampleAlarming))
     = Some "Movimento (Acelerometro) detectado! (Geolocalizacao nao suportada)"
  /\ option_map message (hd_error (logs (toggleService exampleAlarming)))
     = Some "Servico DESATIVADO pelo usuario.".
Proof.
  cbv zeta. split; [exact (stopAlarm_spec s)|].
  split; [vm_compute; reflexivity|].
  split; [vm_compute; reflexivity|].
  split; vm_compute; reflexivity.
Qed.

(** ** Identifiers of log entries *)

(** C8: an entry takes the clock, in milliseconds, as its id, so two
    entries created within the same millisecond share their id.  This is
    what happens when the service enters Active: the six sensor effects
    run in one commit and their six entries carry one id. *)
Theorem same_millisecond_entries_share_id
  (m1 m2 : string) (c1 c2 : option Coordinates) (s : App) :
  (exists e2 e1 rest,
     logs (addLogEntry m2 c2 (addLogEntry m1 c1 s)) = e2 :: e1 :: rest
     /\ message e1 = m1 /\ message e2 = m2
     /\ id e1 = id e2
     /\ map id (logs (clearLogs (addLogEntry m1 c1 s))) = [id e1])
  /\ map (fun e => (id e, message e))
       (logs (run [Tick 3000; TimerFires 1; Commit] exampleArming))
     = [("4000", "Barometro ativado.");
        ("4000", "Magnetometro ativado.");
        ("4000", "Sensor de Luminosidade ativado.");
        ("4000", "Sensor de Proximidade ativado.");
        ("4000", "Giroscopio ativado.");
        ("4000", "Acelerometro ativado.");
        ("1000", "Servico armando em 3 segundos...")].
Proof.
  split.
  - unfold addLogEntry at 1. cbn [logs setLogs].
    unfold addLogEntry at 1. cbn [logs setLogs firstn].
    do 3 eexists. split; [reflexivity|]. cbn. auto.
  - vm_compute. reflexivity.
Qed.

(** ** Starting the siren twice *)

Lemma getAudioContext_running (s : App) :
  audioContextRef s = Some running -> getAudioContext s = (Some running, s).
Proof. intros H. unfold getAudioContext. rewrite H. reflexivity. Qed.

Lemma lookupTimer_app_fresh (h : positive) (t : Timer)
  (ts : list (positive * Timer)) :
  lookupTimer h ts = None -> lookupTimer h (ts ++ [(h, t)]) = Some t.
Proof.
  induction ts as [|[h' t'] ts IH]; cbn [lookupTimer app].
  - rewrite Pos.eqb_refl. reflexivity.
  - destruct (Pos.eqb h' h); [discriminate | exact IH].
Qed.

Lemma lookupTimer_app_other (h h' : positive) (t : Timer)
  (ts : list (positive * Timer)) :
  h' <> h -> lookupTimer h (ts ++ [(h', t)]) = lookupTimer h ts.
Proof.
  intros Hneq. induction ts as [|[h0 t0] ts IH]; cbn [lookupTimer app].
  - apply Pos.eqb_neq in Hneq. rewrite Hneq. reflexivity.
  - destruct (Pos.eqb h0 h); [reflexivity | exact IH].
Qed.

Lemma lookupTimer_above (h n : positive) (ts : list (positive * Timer)) :
  forallb (fun p => Pos.ltb (fst p) n) ts = true -> (n <= h)%positive ->
  lookupTimer h ts = None.
Proof.
  intros Hall Hle. induction ts as [|[h' t'] ts IH]; [reflexivity|].
  cbn [forallb fst] in Hall. apply andb_true_iff in Hall as [Hlt Hall].
  cbn [lookupTimer]. apply Pos.ltb_lt in Hlt.
  destruct (Pos.eqb_spec h' h) as [->|_]; [lia | exact (IH Hall)].
Qed.

(** C9 (amended): [startAlarmSound] on a siren that is already running is a
    restart: the pending repeat timer is cancelled, the oscillator the
    component refers to is cut (it no longer sounds), one burst is played
    at once, at the volume of the last committed render, and a new repeat
    timer is scheduled under a new handle, which becomes the only interval
    the component refers to. *)
Theorem startAlarmSound_restarts_running_siren (h : positive) (s : App)
  (Hinterval : alarmIntervalRef s = Some h)
  (Hrunning : audioContextRef s = Some running)
  (Hhandle : (h < nextHandle s)%positive)
  (Hfresh : handlesBelowNext s = true) :
  let s' := startAlarmSound s in
  let h' := Pos.succ (Pos.succ (nextHandle s)) in
  burstsPlayed s' = S (burstsPlayed s)
  /\ oscillatorRef s' = Some (nextHandle s)
  /\ alarmIntervalRef s' = Some h'
  /\ h' <> h
  /\ lookupTimer h (timers s') = None
  /\ lookupTimer h' (timers s') = Some AlarmInterval
  /\ timers s'
     = (filter (fun p => negb (Pos.eqb (fst p) h)) (timers s)
        ++ [(h', AlarmInterval)])%list
  /\ playing s'
     = (match oscillatorRef s with
        | Some o => filter (fun p => negb (Pos.eqb (fst p) o)) (playing s)
        | None => playing s
        end ++ [(nextHandle s, renderedVolume s)])%list
  /\ (forall o, oscillatorRef s = Some o -> o <> nextHandle s ->
      ~ In o (map fst (playing s')))
  /\ s' <> s.
Proof.
  cbv zeta. unfold startAlarmSound. rewrite Hinterval.
  cbn [clearTimerRef].
  rewrite (getAudioContext_running (clearTimer h s)) by exact Hrunning.
  cbv zeta. unfold playSirenBurst.
  rewrite (getAudioContext_running
             (set_sirenVolume (renderedVolume (clearTimer h s))
                (clearTimer h s))) by exact Hrunning.
  assert (Hneq : Pos.succ (Pos.succ (nextHandle s)) <> h) by lia.
  assert (Hnone :
    lookupTimer (Pos.succ (Pos.succ (nextHandle s)))
      (filter (fun p => negb (Pos.eqb (fst p) h)) (timers s)) = None).
  { apply lookupTimer_filter_None.
    apply (lookupTimer_above _ (nextHandle s)); [exact Hfresh | lia]. }
  change (oscillatorRef
            (set_sirenVolume (renderedVolume (clearTimer h s))
               (clearTimer h s)))
    with (oscillatorRef s).
  assert (Hcut : forall (o : positive) (ps : list (positive * float))
                   (new : positive * float),
             o <> fst new ->
             ~ In o (map fst
                       (filter (fun p => negb (Pos.eqb (fst p) o)) ps
                        ++ [new])%list)).
  { intros o ps new Hnew. rewrite map_app, in_app_iff. cbn [map In].
    intros [Hin | [Hin | []]]; [|apply Hnew; symmetry; exact Hin].
    apply in_map_iff in Hin as ([o' g'] & Ho' & Hin).
    apply filter_In in Hin as [_ Hkeep]. cbn [fst] in *. subst o'.
    rewrite Pos.eqb_refl in Hkeep. discriminate Hkeep. }
  destruct (oscillatorRef s) as [o|];
    (split; [reflexivity|]); (split; [reflexivity|]);
    (split; [reflexivity|]); (split; [exact Hneq|]);
    (split; [cbn [timers setTimer set_alarmIntervalRef set_nextHandle
                  set_timers set_gainNodeRef set_oscillatorRef
                  set_burstsPlayed set_playing stopOscillator clearTimer
                  set_sirenVolume fst snd];
             rewrite lookupTimer_app_other by exact Hneq;
             apply lookupTimer_cleared|]);
    (split; [cbn [timers setTimer set_alarmIntervalRef set_nextHandle
                  set_timers set_gainNodeRef set_oscillatorRef
                  set_burstsPlayed set_playing stopOscillator clearTimer
                  set_sirenVolume fst snd];
             apply lookupTimer_app_fresh, Hnone|]);
    (split; [reflexivity|]); (split; [reflexivity|]);
    (split;
     [intros o' Ho' Hnew; try discriminate Ho';
      try (injection Ho' as <-; apply Hcut; exact Hnew)|]);
    intros Heq; apply (f_equal burstsPlayed) in Heq;
    cbn [burstsPlayed setTimer set_alarmIntervalRef set_nextHandle
         set_timers set_gainNodeRef set_oscillatorRef set_burstsPlayed
         set_playing stopOscillator clearTimer set_sirenVolume fst snd]
      in Heq;
    lia.
Qed.

(** ** Deactivating while arming *)

Lemma quiet_transfer (s t : App) :
  control t = control s -> wiring t = wiring s -> quiet s -> quiet t.
Proof.
  intros Hc Hw (Hsvc & Harm & Hal & Hl & Ht).
  apply control_flags in Hc as (Hc1 & Hc2 & Hc3).
  unfold wiring in Hw. injection Hw as Hw1 Hw2.
  unfold quiet, noActivationTimer in *.
  rewrite Hc1, Hc2, Hc3, Hw1, Hw2. auto.
Qed.

Lemma quiet_inactive (s : App) : quiet s -> serviceState s = Inactive.
Proof.
  intros (Hsvc & Harm & Hal & _). unfold serviceState.
  rewrite Hsvc, Harm, Hal. reflexivity.
Qed.

Lemma forallb_filter {A : Type} (f g : A -> bool) (l : list A) :
  forallb f l = true -> forallb f (filter g l) = true.
Proof.
  induction l as [|a l IH]; cbn [forallb filter]; [reflexivity|].
  intros H. apply andb_true_iff in H as [Ha Hl].
  destruct (g a); cbn [forallb]; rewrite ?Ha; auto.
Qed.

Lemma lookupTimer_activation (h : positive) (ts : list (positive * Timer)) :
  forallb (fun p => match snd p with
                    | ActivationLogTimeout => false
                    | _ => true
                    end) ts = true ->
  lookupTimer h ts <> Some ActivationLogTimeout.
Proof.
  induction ts as [|[h' t] ts IH]; cbn [forallb lookupTimer snd];
    [discriminate|].
  intros H. apply andb_true_iff in H as [Ht Hts].
  destruct (Pos.eqb h' h); [|exact (IH Hts)].
  destruct t; try discriminate.
Qed.

Lemma quiet_clearTimer (h : positive) (s : App) :
  quiet s -> quiet (clearTimer h s).
Proof.
  intros (Hsvc & Harm & Hal & Hl & Ht).
  repeat split; try assumption.
  unfold noActivationTimer, clearTimer. cbn [timers set_timers].
  apply forallb_filter, Ht.
Qed.

Lemma armingTimeoutCallback_quiet (s : App) :
  quiet s -> quiet (armingTimeoutCallback s).
Proof.
  intros Hq. unfold armingTimeoutCallback.
  destruct (negb (isServiceActiveRef s) || negb (isArmingRef s))%bool;
    [exact Hq|].
  destruct Hq as (Hsvc & Harm & Hal & Hl & Ht).
  repeat split; assumption.
Qed.

(** What the mirrors hold after a commit. *)
Lemma commit_mirrors (s : App) :
  isServiceActiveRef (commit s) = isServiceActive s
  /\ isArmingRef (commit s) = isArming s
  /\ isAlarmPlayingRef (commit s) = isAlarmPlaying s.
Proof.
  rewrite commit_cases.
  destruct (flagsChanged s); [|destruct (volumeChanged s)].
  - set (t := mirrorEffects _).
    pose proof (sensorEffects_control (activationEffect t)) as H.
    rewrite activationEffect_control in H.
    apply control_mirrors in H as (H1 & H2 & H3).
    rewrite H1, H2, H3. unfold t, clearTimerRef.
    destruct (activationLogCleanup s); repeat split.
  - set (t := mirrorEffects _).
    pose proof (sensorEffects_control t) as H.
    apply control_mirrors in H as (H1 & H2 & H3).
    rewrite H1, H2, H3. repeat split.
  - repeat split.
Qed.

Lemma sensorEffects_unwanted (s : App) :
  isServiceActive s = false -> sensorEffects s = s.
Proof. intros H. unfold sensorEffects. rewrite H. reflexivity. Qed.

Lemma activationEffect_unwanted (s : App) :
  isServiceActive s = false ->
  activationEffect s
  = set_hasLoggedActivationRef false
      (set_activationLogCleanup None
         (set_prevIsArmingRef (Some (isArming s)) s)).
Proof.
  intros H. unfold activationEffect.
  change (isServiceActive
            (set_activationLogCleanup None
               (set_prevIsArmingRef (Some (isArming s)) s)))
    with (isServiceActive s).
  rewrite H. reflexivity.
Qed.

Lemma commit_quiet (s : App) : quiet s -> quiet (commit s).
Proof.
  intros Hq. rewrite commit_cases.
  destruct (flagsChanged s); [|destruct (volumeChanged s)].
  - set (s0 := clearTimerRef (activationLogCleanup s)
                 (set_renderedVolume (alarmVolume s) s)).
    assert (Hq0 : quiet s0).
    { unfold s0, clearTimerRef. destruct (activationLogCleanup s);
        [apply quiet_clearTimer|]; exact Hq. }
    destruct Hq0 as (Hsvc & Harm & Hal & Hl & Ht).
    set (t := mirrorEffects (sensorCleanups s0)).
    assert (Hsvct : isServiceActive t = false) by exact Hsvc.
    rewrite (activationEffect_unwanted t Hsvct).
    rewrite sensorEffects_unwanted by exact Hsvct.
    repeat split; try assumption; reflexivity.
  - destruct Hq as (Hsvc & Harm & Hal & Hl & Ht).
    set (t := mirrorEffects _).
    assert (Hsvct : isServiceActive t = false) by exact Hsvc.
    rewrite sensorEffects_unwanted by exact Hsvct.
    repeat split; try assumption; reflexivity.
  - destruct Hq as (Hsvc & Harm & Hal & Hl & Ht).
    repeat split; assumption.
Qed.

Lemma deliver_quiet (kind : SensorKind) (handler : App -> App) (s : App) :
  quiet s -> deliver kind handler s = s.
Proof.
  intros (_ & _ & _ & Hl & _). unfold deliver, attached.
  rewrite Hl. reflexivity.
Qed.

Lemma adjustVolume_frame (delta : float) (s : App) :
  control (adjustVolume delta s) = control s
  /\ wiring (adjustVolume delta s) = wiring s.
Proof.
  unfold adjustVolume. cbv zeta.
  destruct (gainNodeRef s); [|split; reflexivity].
  destruct (audioContextRef s) as [[]|]; split; reflexivity.
Qed.

Lemma clickOn_quiet (disabled : bool) (handler : App -> App) (s : App) :
  quiet s -> quiet (handler s) -> quiet (clickOn disabled handler s).
Proof.
  intros Hq Hh. unfold clickOn. destruct disabled; [exact Hq|].
  apply (quiet_transfer (handler s));
    [apply getAudioContext_control | apply getAudioContext_wiring | exact Hh].
Qed.

Lemma step_quiet (e : Event) (s : App) :
  e <> MainButtonClick -> quiet s -> quiet (step e s).
Proof.
  intros He Hq.
  destruct e; cbn [step]; try (rewrite deliver_quiet by exact Hq; exact Hq).
  - (* Tick *)
    apply (quiet_transfer s); [reflexivity | reflexivity | exact Hq].
  - (* Commit *)
    apply commit_quiet, Hq.
  - (* MainButtonClick *)
    contradiction He; reflexivity.
  - (* ClearLogsClick *)
    apply clickOn_quiet; [exact Hq|].
    apply (quiet_transfer s); [reflexivity | reflexivity | exact Hq].
  - (* TimerFires *)
    unfold fireTimer.
    destruct (lookupTimer h (timers s)) as [[| |]|] eqn:E.
    + apply armingTimeoutCallback_quiet, quiet_clearTimer, Hq.
    + apply (quiet_transfer s);
        [apply playSirenBurst_control | apply playSirenBurst_wiring | exact Hq].
    + destruct Hq as (_ & _ & _ & _ & Ht).
      exfalso. exact (lookupTimer_activation h (timers s) Ht E).
    + exact Hq.
  - (* OscillatorEnded *)
    apply (quiet_transfer s); [| | exact Hq];
      unfold oscillatorEnded;
      destruct (oscillatorRef (stopOscillator o s)) as [o'|];
      try reflexivity; destruct (Pos.eqb o' o); reflexivity.
  - (* AudioResumed *)
    apply (quiet_transfer s); [| | exact Hq];
      destruct (audioContextRef s) as [[]|]; reflexivity.
  - (* GeolocationSuccess *)
    apply (quiet_transfer s); [| | exact Hq];
      unfold geolocationSuccess;
      destruct (nth_error (geolocationPending s) i); reflexivity.
  - (* GeolocationError *)
    apply (quiet_transfer s); [| | exact Hq];
      unfold geolocationError;
      destruct (nth_error (geolocationPending s) i); reflexivity.
  - (* VolumeUpClick *)
    apply clickOn_quiet; [exact Hq|].
    apply (quiet_transfer s); [| | exact Hq]; apply adjustVolume_frame.
  - (* VolumeDownClick *)
    apply clickOn_quiet; [exact Hq|].
    apply (quiet_transfer s); [| | exact Hq]; apply adjustVolume_frame.
  - (* PageClick *)
    apply clickOn_quiet; exact Hq.
Qed.

Lemma run_quiet (events : list Event) (s : App) :
  ~ In MainButtonClick events -> quiet s -> quiet (run events s).
Proof.
  revert s. induction events as [|e events IH]; intros s Hno Hq;
    [exact Hq|].
  cbn [run fold_left]. apply IH.
  - intros Hin. apply Hno. right. exact Hin.
  - apply step_quiet; [|exact Hq].
    intros ->. apply Hno. left. reflexivity.
Qed.

Lemma getAudioContext_armingTimeoutRef (s : App) :
  armingTimeoutRef (snd (getAudioContext s)) = armingTimeoutRef s.
Proof.
  unfold getAudioContext.
  destruct (audioContextRef s); [reflexivity|].
  destruct (audioContextCtor _); reflexivity.
Qed.

(** [toggleService] while arming: the deactivation branch runs, the arming
    timer is cancelled and the service is off. *)
Lemma toggleService_while_arming (s : App) :
  committed s -> serviceState s = Arming ->
  listeners s = [] -> noActivationTimer s = true ->
  quiet (toggleService s)
  /\ (forall h, armingTimeoutRef s = Some h ->
        lookupTimer h (timers (toggleService s)) = None).
Proof.
  intros (Hplay & Hsvc & Harm) Hstate Hl Ht.
  assert (Hflags : isAlarmPlaying s = false /\ isArming s = true).
  { revert Hstate. unfold serviceState.
    destruct (isAlarmPlaying s), (isArming s), (isServiceActive s);
      intros; try discriminate; auto. }
  destruct Hflags as [Hquiet Harming].
  unfold toggleService.
  set (s0 := setSupportedSensors [] (setErrorMessage None s)).
  pose proof (getAudioContext_control s0) as Hc.
  pose proof (getAudioContext_wiring s0) as Hw.
  pose proof (getAudioContext_armingTimeoutRef s0) as Hr.
  destruct (getAudioContext s0) as [ctx s']. cbn [snd] in Hc, Hw, Hr.
  change (control s0) with (control s) in Hc.
  change (wiring s0) with (wiring s) in Hw.
  change (armingTimeoutRef s0) with (armingTimeoutRef s) in Hr.
  pose proof (control_flags _ _ Hc) as (_ & _ & Hal).
  apply control_mirrors in Hc as (_ & Harmr & Halr).
  unfold wiring in Hw. injection Hw as Hls Hts.
  rewrite Harmr, Harm, Harming, orb_true_r.
  set (s1 := set_lastPressureRef None _).
  assert (Halr1 : isAlarmPlayingRef s1 = false).
  { transitivity (isAlarmPlayingRef s');
      [|rewrite Halr, Hplay; exact Hquiet].
    unfold s1, clearTimerRef. destruct (armingTimeoutRef s'); reflexivity. }
  rewrite Halr1.
  assert (Hnoact : noActivationTimer s' = true).
  { unfold noActivationTimer. rewrite Hts. exact Ht. }
  split.
  - unfold s1, clearTimerRef.
    destruct (armingTimeoutRef s') as [h'|];
      (split; [reflexivity|]); (split; [reflexivity|]);
      (split; [rewrite <- Hquiet, <- Hal; reflexivity|]);
      (split; [rewrite <- Hl, <- Hls; reflexivity|]).
    + unfold noActivationTimer, clearTimer. cbn [timers addLogEntry setLogs
        setErrorMessage set_lastPressureRef set_lastMagnetometerReadingRef
        set_lastIlluminanceRef set_lastAccelRef setIsArming
        setIsServiceActive set_timers].
      apply forallb_filter. exact Hnoact.
    + exact Hnoact.
  - intros h Hh. rewrite <- Hr in Hh. unfold s1. rewrite Hh.
    cbn [clearTimerRef]. unfold clearTimer.
    cbn [timers addLogEntry setLogs setErrorMessage set_lastPressureRef
         set_lastMagnetometerReadingRef set_lastIlluminanceRef
         set_lastAccelRef setIsArming setIsServiceActive set_timers].
    apply lookupTimer_cleared.
Qed.

(** C5: when [toggleService] runs while the service is arming, the service
    is off at once and the arming timer is cancelled: firing its handle does
    nothing, and its callback, were it run after the next commit, returns
    at its re-check.  Whatever happens next, short of another press of the
    main button (time passing, commits, timers of any handle firing,
    readings, position answers), the service stays Inactive, no reading
    handler is attached, and no activation entry is scheduled. *)
Theorem deactivating_while_arming_never_activates
  (s : App) (events : list Event)
  (Hcommitted : committed s) (Harming : serviceState s = Arming)
  (Hdetached : listeners s = []) (Hnolog : noActivationTimer s = true)
  (Hnoclick : ~ In MainButtonClick events) :
  let s' := toggleService s in
  serviceState s' = Inactive
  /\ (forall h, armingTimeoutRef s = Some h ->
        lookupTimer h (timers s') = None /\ fireTimer h s' = s')
  /\ armingTimeoutCallback (commit s') = commit s'
  /\ (let sN := run events s' in
      serviceState sN = Inactive
      /\ isServiceActive sN = false
      /\ listeners sN = []
      /\ noActivationTimer sN = true).
Proof.
  cbv zeta.
  destruct (toggleService_while_arming s Hcommitted Harming Hdetached Hnolog)
    as [Hq Hcancel].
  split; [apply quiet_inactive, Hq|].
  split.
  { intros h Hh. pose proof (Hcancel h Hh) as Hnone.
    split; [exact Hnone|]. unfold fireTimer. rewrite Hnone. reflexivity. }
  split.
  { unfold armingTimeoutCallback.
    destruct (commit_mirrors (toggleService s)) as (Hm & _ & _).
    destruct Hq as (Hsvc & _). rewrite Hm, Hsvc. reflexivity. }
  pose proof (run_quiet events _ Hnoclick Hq) as HqN.
  split; [apply quiet_inactive, HqN|].
  destruct HqN as (Hsvc & _ & _ & Hl & Ht). auto.
Qed.

(** ** A second detection before the commit *)

(** A detection that passes the guard of [triggerAlarm], on a device whose
    audio runs and that has no position service. *)
Lemma triggerAlarm_fires (src : string) (s : App) :
  isAlarmPlayingRef s = false -> audioContextRef s = Some running ->
  hasGeolocation (platform s) = false ->
  let s' := triggerAlarm src s in
  isAlarmPlaying s' = true
  /\ isAlarmPlayingRef s' = false
  /\ audioContextRef s' = Some running
  /\ platform s' = platform s
  /\ logs s'
     = {| id := freshId s; timestamp := clock s;
          message := src ++ " (Geolocalizacao nao suportada)";
          coordinates := None |} :: firstn 49 (logs s)
  /\ burstsPlayed s' = S (burstsPlayed s)
  /\ oscillatorRef s' = Some (nextHandle s)
  /\ alarmIntervalRef s' = Some (Pos.succ (Pos.succ (nextHandle s)))
  /\ nextHandle s' = Pos.succ (Pos.succ (Pos.succ (nextHandle s))).
Proof.
  intros Href Hrunning Hgeo. cbv zeta.
  unfold triggerAlarm. rewrite Href. cbn [negb]. cbv zeta.
  unfold startAlarmSound. cbv zeta.
  set (s0 := clearTimerRef _ _).
  assert (H0 : audioContextRef s0 = Some running
               /\ isAlarmPlayingRef s0 = false
               /\ platform s0 = platform s /\ logs s0 = logs s
               /\ burstsPlayed s0 = burstsPlayed s
               /\ nextHandle s0 = nextHandle s /\ clock s0 = clock s
               /\ isAlarmPlaying s0 = true).
  { unfold s0, clearTimerRef. cbn [alarmIntervalRef setIsAlarmPlaying].
    destruct (alarmIntervalRef s);
      repeat match goal with |- _ /\ _ => split end;
      first [exact Hrunning | exact Href | reflexivity]. }
  destruct H0 as (A1 & A2 & A3 & A4 & A5 & A6 & A7 & A8). clearbody s0.
  rewrite (getAudioContext_running s0 A1). cbv zeta.
  unfold playSirenBurst.
  rewrite (getAudioContext_running
             (set_sirenVolume (renderedVolume s0) s0)) by exact A1.
  cbv zeta. unfold setTimer. cbv zeta.
  change (oscillatorRef (set_sirenVolume (renderedVolume s0) s0))
    with (oscillatorRef s0).
  destruct (oscillatorRef s0);
    cbn [platform setErrorMessage set_alarmIntervalRef set_nextHandle
         set_timers set_gainNodeRef set_oscillatorRef set_burstsPlayed
         set_playing stopOscillator set_sirenVolume];
    rewrite A3, Hgeo;
    unfold appendErrorMessage, addLogEntry, freshId;
    cbn [isAlarmPlaying isAlarmPlayingRef audioContextRef platform logs
         burstsPlayed oscillatorRef alarmIntervalRef nextHandle clock
         setLogs setErrorMessage set_alarmIntervalRef set_nextHandle
         set_timers set_gainNodeRef set_oscillatorRef set_burstsPlayed
         set_playing stopOscillator set_sirenVolume];
    rewrite A1, A2, A3, A4, A5, A6, A7, A8; repeat split.
Qed.

(** C3: the guard of [triggerAlarm] reads the mirror ref, which only the
    next commit sets.  A second detection that arrives in the Alarming
    state before that commit passes the guard: it appends a second entry to
    the incident log and restarts the siren (another burst is played at
    once, under a new oscillator and a new repeat timer).  After the commit
    the same call is a no-op. *)
Theorem second_detection_before_commit_retriggers
  (src1 src2 : string) (s : App)
  (Href : isAlarmPlayingRef s = false)
  (Hrunning : audioContextRef s = Some running)
  (Hgeo : hasGeolocation (platform s) = false) :
  let s1 := triggerAlarm src1 s in
  let s2 := triggerAlarm src2 s1 in
  serviceState s1 = Alarming
  /\ logs s2
     = {| id := freshId s1; timestamp := clock s1;
          message := src2 ++ " (Geolocalizacao nao suportada)";
          coordinates := None |} :: firstn 49 (logs s1)
  /\ burstsPlayed s2 = S (burstsPlayed s1)
  /\ oscillatorRef s2 <> oscillatorRef s1
  /\ alarmIntervalRef s2 <> alarmIntervalRef s1
  /\ s2 <> s1
  /\ triggerAlarm src2 (commit s1) = commit s1.
Proof.
  cbv zeta.
  destruct (triggerAlarm_fires src1 s Href Hrunning Hgeo)
    as (F1 & F2 & F3 & F4 & _ & _ & F7 & F8 & F9).
  cbv zeta in F1, F2, F3, F4, F7, F8, F9.
  set (s1 := triggerAlarm src1 s) in *. clearbody s1.
  rewrite <- F4 in Hgeo.
  destruct (triggerAlarm_fires src2 s1 F2 F3 Hgeo)
    as (_ & _ & _ & _ & G5 & G6 & G7 & G8 & _).
  cbv zeta in G5, G6, G7, G8.
  split; [unfold serviceState; rewrite F1; reflexivity|].
  split; [exact G5|]. split; [exact G6|].
  split; [rewrite G7, F7, F9; intros H; injection H as H; lia|].
  split; [rewrite G8, F8, F9; intros H; injection H as H; lia|].
  split.
  - intros Heq. apply (f_equal burstsPlayed) in Heq. rewrite G6 in Heq.
    lia.
  - apply triggerAlarm_while_ref_set.
    destruct (commit_mirrors s1) as (_ & _ & Hm). rewrite Hm. exact F1.
Qed.

(** * The properties on the example phone *)



Lemma gyroscope_triggers_on_current_reading_witness :
  committed exampleActive
  /\ serviceState exampleActive = Active
  /\ gyroscopeExceeds (reading 0.1 (-0.9) 0.1) = true
  /\ isAlarmPlaying
       (gyroscopeOnReading (reading 0.1 (-0.9) 0.1) exampleActive) = true.
Proof.
  assert (Hc : committed exampleActive) by (vm_compute; auto).
  assert (Ha : serviceState exampleActive = Active)
    by (vm_compute; reflexivity).
  assert (He : gyroscopeExceeds (reading 0.1 (-0.9) 0.1) = true)
    by (vm_compute; reflexivity).
  split; [exact Hc|]. split; [exact Ha|]. split; [exact He|].
  exact (proj2 (proj1 (gyroscope_triggers_on_current_reading
                         (reading 0.1 (-0.9) 0.1) exampleActive Hc Ha)) He).
Defined.

(** C2, as stated, fails in both directions.  From (0.5, 0.5, 0.5) to
    (-0.5, -0.5, -0.5) every axis changes by 1.0 rad/s and the alarm stays
    silent; from (0.5, 0.5, 0.5) to (0.9, 0.5, 0.5) no axis changes by more
    than 0.4 rad/s and the alarm starts. *)
Lemma gyroscope_ignores_previous_reading :
  let prev := mkVec3 0.5 0.5 0.5 in
  let still := run [GyroscopeReading (reading 0.5 0.5 0.5)] exampleActive in
  serviceState still = Active
  /\ (GYROSCOPE_THRESHOLD <? gyroscopeDeltaPerSpec prev (mkVec3 (-0.5) (-0.5) (-0.5)))
     = true
  /\ serviceState (step (GyroscopeReading (reading (-0.5) (-0.5) (-0.5))) still)
     = Active
  /\ (GYROSCOPE_THRESHOLD <? gyroscopeDeltaPerSpec prev (mkVec3 0.9 0.5 0.5))
     = false
  /\ serviceState (step (GyroscopeReading (reading 0.9 0.5 0.5)) still)
     = Alarming.
Proof. vm_compute. auto. Qed.

Lemma triggerAlarm_noop_while_alarming_witness :
  committed exampleAlarming
  /\ serviceState exampleAlarming = Alarming
  /\ triggerAlarm "Rotacao (Giroscopio) detectada!" exampleAlarming
     = exampleAlarming.
Proof.
  assert (Hc : committed exampleAlarming) by (vm_compute; auto).
  assert (Ha : serviceState exampleAlarming = Alarming)
    by (vm_compute; reflexivity).
  split; [exact Hc|]. split; [exact Ha|].
  exact (proj1 (triggerAlarm_noop_while_alarming
                  "Rotacao (Giroscopio) detectada!" exampleAlarming Hc Ha)).
Defined.

(** The resting phone is lifted and turned before React commits: the
    accelerometer and the gyroscope both raise the alarm, two entries are
    logged and two bursts are played; with a commit in between, the second
    reading changes nothing. *)
Lemma second_detection_before_commit_retriggers_witness :
  isAlarmPlayingRef exampleResting = false
  /\ audioContextRef exampleResting = Some running
  /\ hasGeolocation (platform exampleResting) = false
  /\ burstsPlayed
       (triggerAlarm "Rotacao (Giroscopio) detectada!"
          (triggerAlarm "Movimento (Acelerometro) detectado!"
             exampleResting))
     = S (burstsPlayed
            (triggerAlarm "Movimento (Acelerometro) detectado!"
               exampleResting))
  /\ map message
       (firstn 2
          (logs (run [DeviceMotion (Some (reading 0 0 11.0));
                      GyroscopeReading (reading 1 1 1)] exampleResting)))
     = ["Rotacao (Giroscopio) detectada! (Geolocalizacao nao suportada)";
        "Movimento (Acelerometro) detectado! (Geolocalizacao nao suportada)"]
  /\ burstsPlayed
       (run [DeviceMotion (Some (reading 0 0 11.0));
             GyroscopeReading (reading 1 1 1)] exampleResting) = 2%nat
  /\ burstsPlayed
       (run [DeviceMotion (Some (reading 0 0 11.0)); Commit;
             GyroscopeReading (reading 1 1 1)] exampleResting) = 1%nat.
Proof.
  assert (Hr : isAlarmPlayingRef exampleResting = false)
    by (vm_compute; reflexivity).
  assert (Ha : audioContextRef exampleResting = Some running)
    by (vm_compute; reflexivity).
  assert (Hg : hasGeolocation (platform exampleResting) = false)
    by (vm_compute; reflexivity).
  split; [exact Hr|]. split; [exact Ha|]. split; [exact Hg|].
  split.
  - exact (proj1 (proj2 (proj2 (second_detection_before_commit_retriggers
                                  "Movimento (Acelerometro) detectado!"
                                  "Rotacao (Giroscopio) detectada!"
                                  exampleResting Hr Ha Hg)))).
  - split; [vm_compute; reflexivity|]. split; vm_compute; reflexivity.
Defined.

Lemma deactivating_while_arming_never_activates_witness :
  let events :=
    [Tick 3000; TimerFires 1; Commit; TimerFires 2;
     DeviceMotion (Some (reading 0 0 9.8));
     DeviceMotion (Some (reading 0 0 11.0));
     GyroscopeReading (reading 1 1 1); Commit] in
  committed exampleArming
  /\ serviceState exampleArming = Arming
  /\ listeners exampleArming = []
  /\ noActivationTimer exampleArming = true
  /\ ~ In MainButtonClick events
  /\ serviceState (run events (toggleService exampleArming)) = Inactive.
Proof.
  cbv zeta.
  assert (Hc : committed exampleArming) by (vm_compute; auto).
  assert (Ha : serviceState exampleArming = Arming)
    by (vm_compute; reflexivity).
  assert (Hl : listeners exampleArming = []) by (vm_compute; reflexivity).
  assert (Ht : noActivationTimer exampleArming = true)
    by (vm_compute; reflexivity).
  match goal with
  | |- _ /\ _ /\ _ /\ _ /\ ~ In _ ?events /\ _ =>
      assert (Hno : ~ In MainButtonClick events)
        by (cbn [In]; intros H;
            repeat (destruct H as [H|H]; [discriminate H|]); exact H);
      pose proof (deactivating_while_arming_never_activates
                    exampleArming events Hc Ha Hl Ht Hno) as H
  end.
  cbv zeta in H. destruct H as (_ & _ & _ & Hrun & _).
  repeat (split; [assumption|]). exact Hrun.
Defined.


Lemma addLogEntry_evicts_oldest_witness :
  List.length (logs exampleFullLog) = 50%nat
  /\ List.length
       (logs (addLogEntry "Giroscopio ativado." None exampleFullLog))
     = 50%nat.
Proof.
  assert (Hfull : List.length (logs exampleFullLog) = 50%nat)
    by (vm_compute; reflexivity).
  split; [exact Hfull|].
  destruct (addLogEntry_evicts_oldest "Giroscopio ativado." None
              exampleFullLog Hfull) as (e & _ & _ & Hlen & _).
  exact Hlen.
Defined.

Lemma startAlarmSound_restarts_running_siren_witness :
  alarmIntervalRef exampleAlarming = Some 5%positive
  /\ audioContextRef exampleAlarming = Some running
  /\ (5 < nextHandle exampleAlarming)%positive
  /\ handlesBelowNext exampleAlarming = true
  /\ burstsPlayed (startAlarmSound exampleAlarming)
     = S (burstsPlayed exampleAlarming)
  /\ oscillatorRef exampleAlarming = Some 3%positive
  /\ In 3%positive (map fst (playing exampleAlarming))
  /\ ~ In 3%positive (map fst (playing (startAlarmSound exampleAlarming))).
Proof.
  assert (Hi : alarmIntervalRef exampleAlarming = Some 5%positive)
    by (vm_compute; reflexivity).
  assert (Hr : audioContextRef exampleAlarming = Some running)
    by (vm_compute; reflexivity).
  assert (Hh : (5 < nextHandle exampleAlarming)%positive)
    by (vm_compute; reflexivity).
  assert (Hf : handlesBelowNext exampleAlarming = true)
    by (vm_compute; reflexivity).
  split; [exact Hi|]. split; [exact Hr|]. split; [exact Hh|].
  assert (Ho : oscillatorRef exampleAlarming = Some 3%positive)
    by (vm_compute; reflexivity).
  assert (Hn : 3%positive <> nextHandle exampleAlarming)
    by (vm_compute; discriminate).
  pose proof (startAlarmSound_restarts_running_siren 5 exampleAlarming
                Hi Hr Hh Hf) as H.
  cbv zeta in H.
  split; [exact Hf|]. split; [exact (proj1 H)|]. split; [exact Ho|].
  split; [vm_compute; left; reflexivity|].
  exact (proj1 (proj2 (proj2 (proj2 (proj2 (proj2 (proj2 (proj2 (proj2 H))))))))
           3%positive Ho Hn).
Defined.

(** C9, as stated, fails: on the phone whose siren is running, a second
    [startAlarmSound] plays a second burst at once and replaces the repeat
    timer 5 by the new timer 8. *)
Lemma startAlarmSound_is_not_idempotent :
  alarmIntervalRef exampleAlarming = Some 5%positive
  /\ lookupTimer 5 (timers exampleAlarming) = Some AlarmInterval
  /\ burstsPlayed exampleAlarming = 1%nat
  /\ burstsPlayed (startAlarmSound exampleAlarming) = 2%nat
  /\ alarmIntervalRef (startAlarmSound exampleAlarming) = Some 8%positive
  /\ lookupTimer 5 (timers (startAlarmSound exampleAlarming)) = None
  /\ map fst (playing exampleAlarming) = [3%positive]
  /\ map fst (playing (startAlarmSound exampleAlarming)) = [6%positive]
  /\ startAlarmSound exampleAlarming <> exampleAlarming.
Proof.
  repeat (split; [vm_compute; reflexivity|]).
  intros H. apply (f_equal burstsPlayed) in H. vm_compute in H.
  discriminate H.
Qed.

Lemma gyroscope_ignores_zero_axis_witness :
  let sensor := reading 5 0 1 in
  (zeroOrMissing (ax sensor) || zeroOrMissing (ay sensor)
   || zeroOrMissing (az sensor))%bool = true
  /\ (GYROSCOPE_THRESHOLD <? abs 5) = true
  /\ gyroscopeOnReading sensor exampleActive = exampleActive.
Proof.
  cbv zeta.
  assert (Hz : (zeroOrMissing (ax (reading 5 0 1))
                || zeroOrMissing (ay (reading 5 0 1))
                || zeroOrMissing (az (reading 5 0 1)))%bool = true)
    by (vm_compute; reflexivity).
  split; [exact Hz|]. split; [vm_compute; reflexivity|].
  exact (proj1 (gyroscope_ignores_zero_axis (reading 5 0 1) exampleActive Hz)).
Defined.

(** * Further properties *)

(** ** The siren and the log stay in order *)

Lemma sound_kept (s t : App) : kept t = kept s -> sound s -> sound t.
Proof.
  unfold kept. intros H. injection H as Hp Ho Ht Ha Hl.
  unfold sound, oneVoice, oneSirenTimer, logWithinCap, intervals.
  rewrite Hp, Ho, Ht, Ha, Hl. auto.
Qed.

Lemma sound_addLogEntry (m : string) (c : option Coordinates) (s : App) :
  sound s -> sound (addLogEntry m c s).
Proof.
  intros (Hv & Ht & Hl). split; [exact Hv|]. split; [exact Ht|].
  unfold logWithinCap. rewrite addLogEntry_length. lia.
Qed.

Lemma sound_clearLogs (s : App) : sound s -> sound (clearLogs s).
Proof.
  intros (Hv & Ht & Hl). split; [exact Hv|]. split; [exact Ht|].
  unfold logWithinCap, clearLogs. cbn [logs setLogs List.length]. lia.
Qed.

Lemma filter_filter_comm {A : Type} (f g : A -> bool) (l : list A) :
  filter f (filter g l) = filter g (filter f l).
Proof.
  induction l as [|a l IH]; [reflexivity|]. cbn [filter].
  destruct (f a) eqn:Ef, (g a) eqn:Eg; cbn [filter];
    rewrite ?Ef, ?Eg, IH; reflexivity.
Qed.

Lemma sound_clearTimer (h : positive) (s : App) :
  sound s -> sound (clearTimer h s).
Proof.
  intros (Hv & Ht & Hl). split; [exact Hv|]. split; [|exact Hl].
  unfold oneSirenTimer, intervals, clearTimer in *.
  cbn [timers set_timers alarmIntervalRef]. rewrite filter_filter_comm.
  destruct Ht as [-> | (h0 & -> & Href)]; [left; reflexivity|].
  cbn [filter fst]. destruct (negb (Pos.eqb h0 h)); [|left; reflexivity].
  right. exists h0. auto.
Qed.

Lemma sound_clearTimerRef (r : option positive) (s : App) :
  sound s -> sound (clearTimerRef r s).
Proof.
  intros H. destruct r; [apply sound_clearTimer|]; exact H.
Qed.

(** Queueing a timer that is no repeat timer of the siren. *)
Lemma sound_queue (h : positive) (t : Timer) (s : App) :
  t <> AlarmInterval -> sound s ->
  sound (set_timers (timers s ++ [(h, t)]) s).
Proof.
  intros Hneq (Hv & Ht & Hl). split; [exact Hv|]. split; [|exact Hl].
  unfold oneSirenTimer, intervals in *. cbn [timers set_timers alarmIntervalRef].
  rewrite filter_app. cbn [filter isAlarmInterval snd].
  destruct t; try contradiction; rewrite app_nil_r; exact Ht.
Qed.

Lemma getAudioContext_kept (s : App) :
  kept (snd (getAudioContext s)) = kept s.
Proof.
  unfold getAudioContext.
  destruct (audioContextRef s); [reflexivity|].
  destruct (audioContextCtor _); reflexivity.
Qed.

Lemma sound_playSirenBurst (s : App) : sound s -> sound (playSirenBurst s).
Proof.
  intros Hs. unfold playSirenBurst.
  pose proof (sound_kept _ _ (getAudioContext_kept s) Hs) as Hs'.
  destruct (getAudioContext s) as [ctx s']. cbn [snd] in Hs'.
  destruct ctx as [[]|]; try exact Hs'.
  destruct Hs' as (Hv & Ht & Hl). unfold oneVoice in Hv.
  destruct Hv as [Hnil | (o & g & Hone & Href)].
  - destruct (oscillatorRef s') as [o'|];
      (split; [|split; [exact Ht | exact Hl]]);
      right; do 2 eexists; (split; [|reflexivity]);
      cbn [playing set_gainNodeRef set_oscillatorRef set_burstsPlayed
           set_playing set_nextHandle stopOscillator];
      rewrite Hnil; reflexivity.
  - rewrite Href.
    split; [|split; [exact Ht | exact Hl]].
    right. do 2 eexists. split; [|reflexivity].
    cbn [playing set_gainNodeRef set_oscillatorRef set_burstsPlayed
         set_playing set_nextHandle stopOscillator].
    rewrite Hone. cbn [filter fst]. rewrite Pos.eqb_refl. reflexivity.
Qed.

Lemma sound_oscillatorEnded (o : positive) (s : App) :
  sound s -> sound (oscillatorEnded o s).
Proof.
  intros (Hv & Ht & Hl). unfold oscillatorEnded.
  change (oscillatorRef (stopOscillator o s)) with (oscillatorRef s).
  unfold oneVoice in Hv.
  destruct Hv as [Hnil | (o0 & g & Hone & Href)].
  - destruct (oscillatorRef s) as [o'|]; [destruct (Pos.eqb o' o)|];
      (split; [|split; [exact Ht | exact Hl]]); left;
      cbn [playing stopOscillator set_playing set_oscillatorRef
           set_gainNodeRef];
      rewrite Hnil; reflexivity.
  - rewrite Href. destruct (Pos.eqb o0 o) eqn:E;
      (split; [|split; [exact Ht | exact Hl]]); unfold oneVoice;
      cbn [playing stopOscillator set_playing set_oscillatorRef
           set_gainNodeRef oscillatorRef];
      rewrite Hone; cbn [filter fst]; rewrite E; cbn [negb].
    + left. reflexivity.
    + right. exists o0, g. split; [reflexivity | exact Href].
Qed.

(** A start clears the repeat timer the component refers to, which is the
    only one there can be. *)
Lemma intervals_cleared (s : App) :
  oneSirenTimer s ->
  intervals (clearTimerRef (alarmIntervalRef s) s) = [].
Proof.
  unfold oneSirenTimer, intervals.
  intros [Hnil | (h & Hone & Href)].
  - unfold clearTimerRef, clearTimer. destruct (alarmIntervalRef s);
      cbn [timers set_timers]; [|exact Hnil].
    rewrite filter_filter_comm, Hnil. reflexivity.
  - rewrite Href. cbn [clearTimerRef clearTimer timers set_timers].
    rewrite filter_filter_comm, Hone. cbn [filter fst].
    rewrite Pos.eqb_refl. reflexivity.
Qed.

Lemma playSirenBurst_timers (s : App) :
  timers (playSirenBurst s) = timers s
  /\ alarmIntervalRef (playSirenBurst s) = alarmIntervalRef s.
Proof.
  unfold playSirenBurst.
  pose proof (getAudioContext_kept s) as H.
  destruct (getAudioContext s) as [ctx s']. cbn [snd] in H.
  unfold kept in H. injection H as _ _ Ht Ha _.
  destruct ctx as [[]|]; auto.
  destruct (oscillatorRef s'); auto.
Qed.

Lemma sound_startAlarmSound (s : App) : sound s -> sound (startAlarmSound s).
Proof.
  intros Hs. unfold startAlarmSound.
  pose proof (intervals_cleared s (proj1 (proj2 Hs))) as Hcleared.
  pose proof (sound_clearTimerRef (alarmIntervalRef s) s Hs) as Hs0.
  set (s0 := clearTimerRef (alarmIntervalRef s) s) in *.
  pose proof (sound_kept _ _ (getAudioContext_kept s0) Hs0) as Hs'.
  pose proof (getAudioContext_kept s0) as Hk.
  destruct (getAudioContext s0) as [ctx s']. cbn [snd] in Hs', Hk.
  destruct ctx as [[]|];
    try (apply (sound_kept s'); [reflexivity | exact Hs']).
  assert (Hs'' : sound (set_sirenVolume (renderedVolume s') s'))
    by (apply (sound_kept s'); [reflexivity | exact Hs']).
  pose proof (sound_playSirenBurst _ Hs'') as (Hv & _ & Hl).
  destruct (playSirenBurst_timers (set_sirenVolume (renderedVolume s') s'))
    as [Ht _].
  change (timers (set_sirenVolume (renderedVolume s') s')) with (timers s')
    in Ht.
  unfold kept in Hk. injection Hk as _ _ Hts _ _.
  split; [exact Hv|]. split; [|exact Hl].
  right. eexists. split; [|reflexivity].
  unfold intervals in *. cbn [setTimer timers set_alarmIntervalRef
                               set_nextHandle set_timers].
  rewrite filter_app, Ht, Hts, Hcleared. reflexivity.
Qed.

Lemma sound_stopAlarmSound (s : App) :
  sound s ->
  sound (stopAlarmSound s)
  /\ playing (stopAlarmSound s) = []
  /\ intervals (stopAlarmSound s) = [].
Proof.
  intros (Hv & Ht & Hl).
  assert (Hplay : playing (stopAlarmSound s) = []).
  { unfold stopAlarmSound, oneVoice in *.
    destruct (alarmIntervalRef s);
      cbn [oscillatorRef set_alarmIntervalRef clearTimer set_timers];
      destruct Hv as [Hnil | (o & g & Hone & Href)];
      [ destruct (oscillatorRef s) | rewrite Href
      | destruct (oscillatorRef s) | rewrite Href ];
      cbn [gainNodeRef set_oscillatorRef stopOscillator set_playing
           set_alarmIntervalRef clearTimer set_timers];
      destruct (gainNodeRef s);
      cbn [playing set_gainNodeRef set_oscillatorRef stopOscillator
           set_playing set_alarmIntervalRef clearTimer set_timers];
      rewrite ?Hnil, ?Hone; cbn [filter fst]; rewrite ?Pos.eqb_refl;
      reflexivity. }
  assert (Hint : intervals (stopAlarmSound s) = []).
  { pose proof (intervals_cleared s Ht) as Hc.
    unfold stopAlarmSound, oneSirenTimer, intervals, clearTimerRef in *.
    destruct (alarmIntervalRef s);
      cbn [oscillatorRef set_alarmIntervalRef clearTimer set_timers];
      destruct (oscillatorRef s);
      cbn [gainNodeRef set_oscillatorRef stopOscillator set_playing
           set_alarmIntervalRef clearTimer set_timers];
      destruct (gainNodeRef s); exact Hc. }
  split; [|split; assumption].
  split; [left; exact Hplay|]. split; [left; exact Hint|].
  destruct (stopAlarmSound_spec s) as (_ & _ & _ & Hlogs & _).
  unfold logWithinCap. rewrite Hlogs. exact Hl.
Qed.

(** The setters of the cells [kept] does not read. *)
Lemma kept_setIsServiceActive (v : bool) (s : App) :
  kept (setIsServiceActive v s) = kept s.
Proof. reflexivity. Qed.

Lemma kept_setIsArming (v : bool) (s : App) :
  kept (setIsArming v s) = kept s.
Proof. reflexivity. Qed.

Lemma kept_setIsAlarmPlaying (v : bool) (s : App) :
  kept (setIsAlarmPlaying v s) = kept s.
Proof. reflexivity. Qed.

Lemma kept_setErrorMessage (v : option string) (s : App) :
  kept (setErrorMessage v s) = kept s.
Proof. reflexivity. Qed.

Lemma kept_setSupportedSensors (v : list string) (s : App) :
  kept (setSupportedSensors v s) = kept s.
Proof. reflexivity. Qed.

Lemma kept_set_lastAccelRef (v : option Vec3) (s : App) :
  kept (set_lastAccelRef v s) = kept s.
Proof. reflexivity. Qed.

Lemma kept_set_armingTimeoutRef (v : option positive) (s : App) :
  kept (set_armingTimeoutRef v s) = kept s.
Proof. reflexivity. Qed.

Lemma kept_set_audioContextRef (v : option AudioContextState) (s : App) :
  kept (set_audioContextRef v s) = kept s.
Proof. reflexivity. Qed.

Lemma kept_set_gainNodeRef (v : option positive) (s : App) :
  kept (set_gainNodeRef v s) = kept s.
Proof. reflexivity. Qed.

Lemma kept_set_lastIlluminanceRef (v : option float) (s : App) :
  kept (set_lastIlluminanceRef v s) = kept s.
Proof. reflexivity. Qed.

Lemma kept_set_lastMagnetometerReadingRef (v : option Vec3) (s : App) :
  kept (set_lastMagnetometerReadingRef v s) = kept s.
Proof. reflexivity. Qed.

Lemma kept_set_lastPressureRef (v : option float) (s : App) :
  kept (set_lastPressureRef v s) = kept s.
Proof. reflexivity. Qed.

Lemma kept_set_isAlarmPlayingRef (v : bool) (s : App) :
  kept (set_isAlarmPlayingRef v s) = kept s.
Proof. reflexivity. Qed.

Lemma kept_set_isServiceActiveRef (v : bool) (s : App) :
  kept (set_isServiceActiveRef v s) = kept s.
Proof. reflexivity. Qed.

Lemma kept_set_isArmingRef (v : bool) (s : App) :
  kept (set_isArmingRef v s) = kept s.
Proof. reflexivity. Qed.

Lemma kept_set_supportedSensorsRef (v : list string) (s : App) :
  kept (set_supportedSensorsRef v s) = kept s.
Proof. reflexivity. Qed.

Lemma kept_set_prevIsArmingRef (v : option bool) (s : App) :
  kept (set_prevIsArmingRef v s) = kept s.
Proof. reflexivity. Qed.

Lemma kept_set_hasLoggedActivationRef (v : bool) (s : App) :
  kept (set_hasLoggedActivationRef v s) = kept s.
Proof. reflexivity. Qed.

Lemma kept_set_activationLogCleanup (v : option positive) (s : App) :
  kept (set_activationLogCleanup v s) = kept s.
Proof. reflexivity. Qed.

Lemma kept_set_listeners (v : list SensorKind) (s : App) :
  kept (set_listeners v s) = kept s.
Proof. reflexivity. Qed.

Lemma kept_set_clock (v : N) (s : App) :
  kept (set_clock v s) = kept s.
Proof. reflexivity. Qed.

Lemma kept_set_nextHandle (v : positive) (s : App) :
  kept (set_nextHandle v s) = kept s.
Proof. reflexivity. Qed.

Lemma kept_set_burstsPlayed (v : nat) (s : App) :
  kept (set_burstsPlayed v s) = kept s.
Proof. reflexivity. Qed.

Lemma kept_set_geolocationPending (v : list string) (s : App) :
  kept (set_geolocationPending v s) = kept s.
Proof. reflexivity. Qed.

Lemma kept_setAlarmVolume (v : float) (s : App) :
  kept (setAlarmVolume v s) = kept s.
Proof. reflexivity. Qed.

Lemma kept_set_renderedVolume (v : float) (s : App) :
  kept (set_renderedVolume v s) = kept s.
Proof. reflexivity. Qed.

Lemma kept_set_sirenVolume (v : float) (s : App) :
  kept (set_sirenVolume v s) = kept s.
Proof. reflexivity. Qed.

Lemma kept_handleSensorPermissionError (sensorName : string)
  (error : SensorError) (s : App) :
  kept (handleSensorPermissionError sensorName error s) = kept s.
Proof. reflexivity. Qed.

Lemma kept_appendErrorMessage (m : string) (s : App) :
  kept (appendErrorMessage m s) = kept s.
Proof. reflexivity. Qed.

Lemma kept_addSupportedSensor (name : string) (s : App) :
  kept (addSupportedSensor name s) = kept s.
Proof.
  unfold addSupportedSensor. destruct (existsb _ _); reflexivity.
Qed.

Create HintDb kept_db discriminated.

#[local] Hint Resolve kept_setIsServiceActive kept_setIsArming
  kept_setIsAlarmPlaying kept_setErrorMessage kept_setSupportedSensors
  kept_set_lastAccelRef kept_set_armingTimeoutRef kept_set_audioContextRef
  kept_set_gainNodeRef kept_set_lastIlluminanceRef
  kept_set_lastMagnetometerReadingRef kept_set_lastPressureRef
  kept_set_isAlarmPlayingRef kept_set_isServiceActiveRef kept_set_isArmingRef
  kept_set_supportedSensorsRef kept_set_prevIsArmingRef
  kept_set_hasLoggedActivationRef kept_set_activationLogCleanup
  kept_set_listeners kept_set_clock kept_set_nextHandle kept_set_burstsPlayed
  kept_set_geolocationPending kept_setAlarmVolume kept_set_renderedVolume
  kept_set_sirenVolume kept_handleSensorPermissionError
  kept_appendErrorMessage kept_addSupportedSensor
  : kept_db.


(** Applies the lemma of the operation at the head of a goal [sound (...)];
    [sound_composite] is extended below as operations get their lemma. *)
Ltac sound_leaf :=
  match goal with
  | |- sound (addLogEntry _ _ _) => apply sound_addLogEntry
  | |- sound (clearLogs _) => apply sound_clearLogs
  | |- sound (clearTimerRef _ _) => apply sound_clearTimerRef
  | |- sound (clearTimer _ _) => apply sound_clearTimer
  | |- sound (set_timers (timers _ ++ [(_, _)]) _) =>
      apply sound_queue; [discriminate|]
  | |- sound (playSirenBurst _) => apply sound_playSirenBurst
  | |- sound (oscillatorEnded _ _) => apply sound_oscillatorEnded
  | |- sound (startAlarmSound _) => apply sound_startAlarmSound
  | |- sound (stopAlarmSound ?t) =>
      apply (fun H => proj1 (sound_stopAlarmSound t H))
  end.

Ltac sound_composite := fail.

(** Peels a goal [sound (...)] down to the state it starts from: branches
    are split, operations go by their lemma, and the setters that leave
    [kept] alone are dropped. *)
Ltac sound_peel :=
  cbv zeta;
  repeat match goal with
         | |- sound ?t => is_var t; assumption
         | |- sound (match ?x with _ => _ end) => destruct x
         | |- sound _ => sound_leaf
         | |- sound _ => sound_composite
         | |- sound (?f ?t) =>
             apply (sound_kept t); [solve [auto 1 with kept_db nocore]|]
         | |- sound (?f _ ?t) =>
             apply (sound_kept t); [solve [auto 1 with kept_db nocore]|]
         end.

Lemma sound_triggerAlarm (src : string) (s : App) :
  sound s -> sound (triggerAlarm src s).
Proof. intros Hs. unfold triggerAlarm. sound_peel. Qed.

Lemma sound_geolocationSuccess (i : nat) (c : Coordinates) (s : App) :
  sound s -> sound (geolocationSuccess i c s).
Proof. intros Hs. unfold geolocationSuccess. sound_peel. Qed.

Lemma sound_geolocationError (i : nat) (e : string) (s : App) :
  sound s -> sound (geolocationError i e s).
Proof. intros Hs. unfold geolocationError. sound_peel. Qed.

Lemma sound_stopAlarm (s : App) : sound s -> sound (stopAlarm s).
Proof. intros Hs. unfold stopAlarm. sound_peel. Qed.

Ltac sound_composite ::=
  match goal with
  | |- sound (triggerAlarm _ _) => apply sound_triggerAlarm
  | |- sound (stopAlarm _) => apply sound_stopAlarm
  | |- sound (geolocationSuccess _ _ _) => apply sound_geolocationSuccess
  | |- sound (geolocationError _ _ _) => apply sound_geolocationError
  end.

Lemma sound_toggleService (s : App) : sound s -> sound (toggleService s).
Proof.
  intros Hs. unfold toggleService.
  assert (Hs0 : sound (setSupportedSensors [] (setErrorMessage None s)))
    by sound_peel.
  pose proof (sound_kept _ _ (getAudioContext_kept _) Hs0) as Hs'.
  destruct (getAudioContext _) as [ctx s']. cbn [snd] in Hs'.
  destruct (isServiceActiveRef s' || isArmingRef s')%bool.
  - sound_peel.
  - unfold setTimer. cbv beta iota zeta. sound_peel.
Qed.

Lemma sound_armingTimeoutCallback (s : App) :
  sound s -> sound (armingTimeoutCallback s).
Proof. intros Hs. unfold armingTimeoutCallback. sound_peel. Qed.

Lemma sound_activationLogCallback (s : App) :
  sound s -> sound (activationLogCallback s).
Proof. intros Hs. unfold activationLogCallback. sound_peel. Qed.

Lemma sound_handlers (s : App) :
  sound s ->
  (forall acc, sound (motionHandlerInternal acc s))
  /\ (forall r, sound (gyroscopeOnReading r s))
  /\ (forall near, sound (proximityOnReading near s))
  /\ (forall value max, sound (proximityEventHandler value max s))
  /\ (forall v, sound (lightOnActivate v s))
  /\ (forall v, sound (lightOnReading v s))
  /\ (forall r, sound (magnetometerOnReading r s))
  /\ (forall v, sound (barometerOnActivate v s))
  /\ (forall v, sound (barometerOnReading v s)).
Proof.
  intros Hs.
  repeat match goal with |- _ /\ _ => split end; intros;
    unfold motionHandlerInternal, gyroscopeOnReading, proximityOnReading,
      proximityEventHandler, lightOnActivate, lightOnReading,
      magnetometerOnReading, barometerOnActivate, barometerOnReading;
    sound_peel.
Qed.

Lemma sound_activationEffect (s : App) :
  sound s -> sound (activationEffect s).
Proof.
  intros Hs. unfold activationEffect, setTimer. cbv beta iota zeta.
  sound_peel.
Qed.

Lemma sound_startSensor (kind : SensorKind) (logText name : string)
  (s : App) :
  sound s -> sound (startSensor kind logText name s).
Proof.
  intros Hs. unfold startSensor, addSupportedSensor. sound_peel.
Qed.

Ltac sound_composite ::=
  match goal with
  | |- sound (triggerAlarm _ _) => apply sound_triggerAlarm
  | |- sound (stopAlarm _) => apply sound_stopAlarm
  | |- sound (geolocationSuccess _ _ _) => apply sound_geolocationSuccess
  | |- sound (geolocationError _ _ _) => apply sound_geolocationError
  | |- sound (toggleService _) => apply sound_toggleService
  | |- sound (armingTimeoutCallback _) => apply sound_armingTimeoutCallback
  | |- sound (activationLogCallback _) => apply sound_activationLogCallback
  | |- sound (activationEffect _) => apply sound_activationEffect
  | |- sound (startSensor _ _ _ _) => apply sound_startSensor
  end.

Lemma sound_sensorEffects (s : App) : sound s -> sound (sensorEffects s).
Proof. intros Hs. unfold sensorEffects, tryStartSensor. sound_peel. Qed.

(** A write to the gain of a node leaves the nodes that sound the same. *)
Lemma sound_adjustVolume (delta : float) (s : App) :
  sound s -> sound (adjustVolume delta s).
Proof.
  intros Hs. unfold adjustVolume. cbv zeta.
  destruct (gainNodeRef s) as [g|];
    [|apply (sound_kept s); [reflexivity | exact Hs]].
  destruct (audioContextRef s) as [[]|];
    try (apply (sound_kept s); [reflexivity | exact Hs]).
  apply (sound_kept (setGain g (mathMax 0 (mathMin 1 (alarmVolume s + delta))) s));
    [reflexivity|].
  destruct Hs as (Hv & Ht & Hl). split; [|split; assumption].
  unfold oneVoice, setGain in *. cbn [playing oscillatorRef set_playing].
  destruct Hv as [-> | (o & g0 & -> & Href)]; [left; reflexivity|].
  right. cbn [map fst]. destruct (Pos.eqb (Pos.succ o) g); eauto.
Qed.

Lemma sound_clickOn (disabled : bool) (handler : App -> App) (s : App) :
  sound s -> sound (handler s) -> sound (clickOn disabled handler s).
Proof.
  intros Hs Hh. unfold clickOn. destruct disabled; [exact Hs|].
  exact (sound_kept _ _ (getAudioContext_kept _) Hh).
Qed.

Lemma sound_sensorOnError (kind : SensorKind) (error : SensorError)
  (s : App) :
  sound s -> sound (sensorOnError kind error s).
Proof.
  intros Hs. unfold sensorOnError, gyroscopeOnError, proximityOnError,
    lightOnError, magnetometerOnError, barometerOnError.
  sound_peel.
Qed.

Lemma sound_commit (s : App) : sound s -> sound (commit s).
Proof.
  intros Hs. rewrite commit_cases.
  destruct (flagsChanged s); [|destruct (volumeChanged s)].
  - apply sound_sensorEffects, sound_activationEffect.
    unfold mirrorEffects, sensorCleanups. sound_peel.
  - apply sound_sensorEffects. unfold mirrorEffects, sensorCleanups.
    sound_peel.
  - unfold mirrorEffects. sound_peel.
Qed.

Lemma sound_step (e : Event) (s : App) : sound s -> sound (step e s).
Proof.
  intros Hs. destruct (sound_handlers s Hs)
    as (H1 & H2 & H3 & H4 & H5 & H6 & H7 & H8 & H9).
  destruct e; cbn [step]; unfold deliver;
    try (destruct (attached _ s); [auto | exact Hs]).
  - sound_peel.
  - apply sound_commit, Hs.
  - apply sound_clickOn; [exact Hs|]. unfold mainButtonClick. sound_peel.
  - apply sound_clickOn; [exact Hs|]. apply sound_clearLogs, Hs.
  - unfold fireTimer. sound_peel.
  - apply sound_oscillatorEnded, Hs.
  - sound_peel.
  - apply sound_geolocationSuccess, Hs.
  - apply sound_geolocationError, Hs.
  - apply sound_clickOn; [exact Hs|]. apply sound_adjustVolume, Hs.
  - apply sound_clickOn; [exact Hs|]. apply sound_adjustVolume, Hs.
  - apply sound_clickOn; exact Hs.
  - apply sound_sensorOnError, Hs.
Qed.

Lemma sound_run (events : list Event) (s : App) :
  sound s -> sound (run events s).
Proof.
  revert s. induction events as [|e events IH]; intros s Hs; [exact Hs|].
  cbn [run fold_left]. apply IH, sound_step, Hs.
Qed.

Lemma sound_initialApp (p : Platform) (now : N) : sound (initialApp p now).
Proof.
  split; [left; reflexivity|]. split; [left; reflexivity|].
  unfold logWithinCap. cbn. lia.
Qed.

(** ** Handlers are attached only while the service is active *)

(** The setters of the cells [shell] does not read. *)
Lemma shell_setIsServiceActive (v : bool) (s : App) :
  shell (setIsServiceActive v s) = shell s.
Proof. reflexivity. Qed.

Lemma shell_setIsArming (v : bool) (s : App) :
  shell (setIsArming v s) = shell s.
Proof. reflexivity. Qed.

Lemma shell_setLogs (v : list LogEntry) (s : App) :
  shell (setLogs v s) = shell s.
Proof. reflexivity. Qed.

Lemma shell_setIsAlarmPlaying (v : bool) (s : App) :
  shell (setIsAlarmPlaying v s) = shell s.
Proof. reflexivity. Qed.

Lemma shell_setErrorMessage (v : option string) (s : App) :
  shell (setErrorMessage v s) = shell s.
Proof. reflexivity. Qed.

Lemma shell_setSupportedSensors (v : list string) (s : App) :
  shell (setSupportedSensors v s) = shell s.
Proof. reflexivity. Qed.

Lemma shell_set_lastAccelRef (v : option Vec3) (s : App) :
  shell (set_lastAccelRef v s) = shell s.
Proof. reflexivity. Qed.

Lemma shell_set_armingTimeoutRef (v : option positive) (s : App) :
  shell (set_armingTimeoutRef v s) = shell s.
Proof. reflexivity. Qed.

Lemma shell_set_audioContextRef (v : option AudioContextState) (s : App) :
  shell (set_audioContextRef v s) = shell s.
Proof. reflexivity. Qed.

Lemma shell_set_oscillatorRef (v : option positive) (s : App) :
  shell (set_oscillatorRef v s) = shell s.
Proof. reflexivity. Qed.

Lemma shell_set_gainNodeRef (v : option positive) (s : App) :
  shell (set_gainNodeRef v s) = shell s.
Proof. reflexivity. Qed.

Lemma shell_set_alarmIntervalRef (v : option positive) (s : App) :
  shell (set_alarmIntervalRef v s) = shell s.
Proof. reflexivity. Qed.

Lemma shell_set_lastIlluminanceRef (v : option float) (s : App) :
  shell (set_lastIlluminanceRef v s) = shell s.
Proof. reflexivity. Qed.

Lemma shell_set_lastMagnetometerReadingRef (v : option Vec3) (s : App) :
  shell (set_lastMagnetometerReadingRef v s) = shell s.
Proof. reflexivity. Qed.

Lemma shell_set_lastPressureRef (v : option float) (s : App) :
  shell (set_lastPressureRef v s) = shell s.
Proof. reflexivity. Qed.

Lemma shell_set_isAlarmPlayingRef (v : bool) (s : App) :
  shell (set_isAlarmPlayingRef v s) = shell s.
Proof. reflexivity. Qed.

Lemma shell_set_supportedSensorsRef (v : list string) (s : App) :
  shell (set_supportedSensorsRef v s) = shell s.
Proof. reflexivity. Qed.

Lemma shell_set_prevIsArmingRef (v : option bool) (s : App) :
  shell (set_prevIsArmingRef v s) = shell s.
Proof. reflexivity. Qed.

Lemma shell_set_hasLoggedActivationRef (v : bool) (s : App) :
  shell (set_hasLoggedActivationRef v s) = shell s.
Proof. reflexivity. Qed.

Lemma shell_set_activationLogCleanup (v : option positive) (s : App) :
  shell (set_activationLogCleanup v s) = shell s.
Proof. reflexivity. Qed.

Lemma shell_set_clock (v : N) (s : App) :
  shell (set_clock v s) = shell s.
Proof. reflexivity. Qed.

Lemma shell_set_timers (v : list (positive * Timer)) (s : App) :
  shell (set_timers v s) = shell s.
Proof. reflexivity. Qed.

Lemma shell_set_nextHandle (v : positive) (s : App) :
  shell (set_nextHandle v s) = shell s.
Proof. reflexivity. Qed.

Lemma shell_set_playing (v : list (positive * float)) (s : App) :
  shell (set_playing v s) = shell s.
Proof. reflexivity. Qed.

Lemma shell_set_burstsPlayed (v : nat) (s : App) :
  shell (set_burstsPlayed v s) = shell s.
Proof. reflexivity. Qed.

Lemma shell_set_geolocationPending (v : list string) (s : App) :
  shell (set_geolocationPending v s) = shell s.
Proof. reflexivity. Qed.

Lemma shell_setAlarmVolume (v : float) (s : App) :
  shell (setAlarmVolume v s) = shell s.
Proof. reflexivity. Qed.

Lemma shell_set_renderedVolume (v : float) (s : App) :
  shell (set_renderedVolume v s) = shell s.
Proof. reflexivity. Qed.

Lemma shell_set_sirenVolume (v : float) (s : App) :
  shell (set_sirenVolume v s) = shell s.
Proof. reflexivity. Qed.

Lemma shell_handleSensorPermissionError (sensorName : string)
  (error : SensorError) (s : App) :
  shell (handleSensorPermissionError sensorName error s) = shell s.
Proof. reflexivity. Qed.

Lemma shell_appendErrorMessage (m : string) (s : App) :
  shell (appendErrorMessage m s) = shell s.
Proof. reflexivity. Qed.

Lemma shell_addLogEntry (m : string) (c : option Coordinates) (s : App) :
  shell (addLogEntry m c s) = shell s.
Proof. reflexivity. Qed.

Lemma shell_clearLogs (s : App) :
  shell (clearLogs s) = shell s.
Proof. reflexivity. Qed.

Lemma shell_clearTimer (h : positive) (s : App) :
  shell (clearTimer h s) = shell s.
Proof. reflexivity. Qed.

Lemma shell_stopOscillator (o : positive) (s : App) :
  shell (stopOscillator o s) = shell s.
Proof. reflexivity. Qed.

Lemma shell_clearTimerRef (r : option positive) (s : App) :
  shell (clearTimerRef r s) = shell s.
Proof. destruct r; reflexivity. Qed.

Lemma shell_addSupportedSensor (name : string) (s : App) :
  shell (addSupportedSensor name s) = shell s.
Proof. unfold addSupportedSensor. destruct (existsb _ _); reflexivity. Qed.

Create Rewrite HintDb shell_rw.

#[local] Hint Rewrite shell_setIsServiceActive shell_setIsArming shell_setLogs
  shell_setIsAlarmPlaying shell_setErrorMessage shell_setSupportedSensors
  shell_set_lastAccelRef shell_set_armingTimeoutRef shell_set_audioContextRef
  shell_set_oscillatorRef shell_set_gainNodeRef shell_set_alarmIntervalRef
  shell_set_lastIlluminanceRef shell_set_lastMagnetometerReadingRef
  shell_set_lastPressureRef shell_set_isAlarmPlayingRef
  shell_set_supportedSensorsRef shell_set_prevIsArmingRef
  shell_set_hasLoggedActivationRef shell_set_activationLogCleanup
  shell_set_clock shell_set_timers shell_set_nextHandle shell_set_playing
  shell_set_burstsPlayed shell_set_geolocationPending shell_setAlarmVolume
  shell_set_renderedVolume shell_set_sirenVolume
  shell_handleSensorPermissionError shell_appendErrorMessage
  shell_addLogEntry shell_clearLogs shell_clearTimer shell_stopOscillator
  shell_clearTimerRef shell_addSupportedSensor : shell_rw.

(** Peels a goal [shell (...) = shell s] by rewriting, splitting the
    branches on the way. *)
Ltac shell_peel :=
  cbv zeta;
  repeat match goal with
         | |- ?a = ?b => constr_eq a b; reflexivity
         | |- shell (match ?x with _ => _ end) = _ => destruct x
         | |- _ => progress autorewrite with shell_rw
         end.

Lemma shell_getAudioContext (s : App) :
  shell (snd (getAudioContext s)) = shell s.
Proof.
  unfold getAudioContext.
  destruct (audioContextRef s); [reflexivity|].
  destruct (audioContextCtor _); reflexivity.
Qed.

Lemma shell_playSirenBurst (s : App) : shell (playSirenBurst s) = shell s.
Proof.
  unfold playSirenBurst. pose proof (shell_getAudioContext s) as H.
  destruct (getAudioContext s) as [ctx s']. cbn [snd] in H.
  rewrite <- H. shell_peel.
Qed.

#[local] Hint Rewrite shell_playSirenBurst : shell_rw.

Lemma shell_startAlarmSound (s : App) : shell (startAlarmSound s) = shell s.
Proof.
  unfold startAlarmSound.
  pose proof (shell_getAudioContext (clearTimerRef (alarmIntervalRef s) s))
    as H.
  destruct (getAudioContext _) as [ctx s']. cbn [snd] in H.
  rewrite shell_clearTimerRef in H. rewrite <- H.
  unfold setTimer. shell_peel.
Qed.

Lemma shell_stopAlarmSound (s : App) : shell (stopAlarmSound s) = shell s.
Proof.
  unfold stopAlarmSound.
  destruct (alarmIntervalRef s);
    cbn [oscillatorRef set_alarmIntervalRef clearTimer set_timers];
    destruct (oscillatorRef s);
    cbn [gainNodeRef set_oscillatorRef stopOscillator set_playing
         set_alarmIntervalRef clearTimer set_timers];
    destruct (gainNodeRef s); reflexivity.
Qed.

Lemma shell_oscillatorEnded (o : positive) (s : App) :
  shell (oscillatorEnded o s) = shell s.
Proof. unfold oscillatorEnded. shell_peel. Qed.

#[local] Hint Rewrite shell_startAlarmSound shell_stopAlarmSound
  shell_oscillatorEnded : shell_rw.

Lemma shell_triggerAlarm (src : string) (s : App) :
  shell (triggerAlarm src s) = shell s.
Proof. unfold triggerAlarm. shell_peel. Qed.

Lemma shell_stopAlarm (s : App) : shell (stopAlarm s) = shell s.
Proof. unfold stopAlarm. shell_peel. Qed.

Lemma shell_geolocationSuccess (i : nat) (c : Coordinates) (s : App) :
  shell (geolocationSuccess i c s) = shell s.
Proof. unfold geolocationSuccess. shell_peel. Qed.

Lemma shell_geolocationError (i : nat) (e : string) (s : App) :
  shell (geolocationError i e s) = shell s.
Proof. unfold geolocationError. shell_peel. Qed.

#[local] Hint Rewrite shell_triggerAlarm shell_stopAlarm
  shell_geolocationSuccess shell_geolocationError : shell_rw.

Lemma shell_toggleService (s : App) : shell (toggleService s) = shell s.
Proof.
  unfold toggleService.
  pose proof (shell_getAudioContext
                (setSupportedSensors [] (setErrorMessage None s))) as H.
  destruct (getAudioContext _) as [ctx s']. cbn [snd] in H.
  autorewrite with shell_rw in H. rewrite <- H.
  unfold setTimer. shell_peel.
Qed.

Lemma shell_armingTimeoutCallback (s : App) :
  shell (armingTimeoutCallback s) = shell s.
Proof. unfold armingTimeoutCallback. shell_peel. Qed.

Lemma shell_activationLogCallback (s : App) :
  shell (activationLogCallback s) = shell s.
Proof. unfold activationLogCallback. shell_peel. Qed.

#[local] Hint Rewrite shell_toggleService shell_armingTimeoutCallback
  shell_activationLogCallback : shell_rw.

Lemma shell_handlers (s : App) :
  (forall acc, shell (motionHandlerInternal acc s) = shell s)
  /\ (forall r, shell (gyroscopeOnReading r s) = shell s)
  /\ (forall near, shell (proximityOnReading near s) = shell s)
  /\ (forall value max, shell (proximityEventHandler value max s) = shell s)
  /\ (forall v, shell (lightOnActivate v s) = shell s)
  /\ (forall v, shell (lightOnReading v s) = shell s)
  /\ (forall r, shell (magnetometerOnReading r s) = shell s)
  /\ (forall v, shell (barometerOnActivate v s) = shell s)
  /\ (forall v, shell (barometerOnReading v s) = shell s).
Proof.
  repeat match goal with |- _ /\ _ => split end; intros;
    unfold motionHandlerInternal, gyroscopeOnReading, proximityOnReading,
      proximityEventHandler, lightOnActivate, lightOnReading,
      magnetometerOnReading, barometerOnActivate, barometerOnReading;
    shell_peel.
Qed.

Lemma shell_adjustVolume (delta : float) (s : App) :
  shell (adjustVolume delta s) = shell s.
Proof.
  unfold adjustVolume. cbv zeta.
  destruct (gainNodeRef s); [|reflexivity].
  destruct (audioContextRef s) as [[]|]; reflexivity.
Qed.

Lemma shell_clickOn (disabled : bool) (handler : App -> App) (s : App) :
  shell (handler s) = shell s -> shell (clickOn disabled handler s) = shell s.
Proof.
  intros H. unfold clickOn. destruct disabled; [reflexivity|].
  rewrite shell_getAudioContext. exact H.
Qed.

Lemma shell_sensorOnError (kind : SensorKind) (error : SensorError)
  (s : App) :
  shell (sensorOnError kind error s) = shell s.
Proof. destruct kind; reflexivity. Qed.

(** Every event but a commit leaves the attached handlers and the mirrors
    of the two flags as they are. *)
Lemma shell_step (e : Event) (s : App) :
  e <> Commit -> shell (step e s) = shell s.
Proof.
  intros He.
  destruct (shell_handlers s) as (H1 & H2 & H3 & H4 & H5 & H6 & H7 & H8 & H9).
  destruct e; cbn [step]; unfold deliver;
    try (destruct (attached _ s); [auto | reflexivity]).
  - reflexivity.
  - contradiction He; reflexivity.
  - apply shell_clickOn. unfold mainButtonClick. shell_peel.
  - apply shell_clickOn. reflexivity.
  - unfold fireTimer. shell_peel.
  - apply shell_oscillatorEnded.
  - shell_peel.
  - apply shell_geolocationSuccess.
  - apply shell_geolocationError.
  - apply shell_clickOn, shell_adjustVolume.
  - apply shell_clickOn, shell_adjustVolume.
  - apply shell_clickOn. reflexivity.
  - apply shell_sensorOnError.
Qed.

Lemma shell_activationEffect (s : App) :
  shell (activationEffect s) = shell s.
Proof. unfold activationEffect, setTimer. shell_peel. Qed.

Lemma attached_shell (s t : App) :
  shell t = shell s -> attachedOnlyWhileActive s -> attachedOnlyWhileActive t.
Proof.
  unfold shell, attachedOnlyWhileActive. intros H. injection H as Hl Hs Ha.
  rewrite Hl, Hs, Ha. auto.
Qed.

(** The state the effects of a commit start from, once the cleanups and the
    mirrors have run. *)
Lemma commit_cleaned (c : option positive) (s : App) :
  control (mirrorEffects (sensorCleanups (clearTimerRef c s)))
  = ((lastAccelRef s, None, None, None),
     (isServiceActive s, isArming s, isAlarmPlaying s),
     (isServiceActive s, isArming s, isAlarmPlaying s))
  /\ listeners (mirrorEffects (sensorCleanups (clearTimerRef c s))) = [].
Proof. destruct c; split; reflexivity. Qed.

Lemma flagsChanged_false (s : App) :
  flagsChanged s = false ->
  isServiceActiveRef s = isServiceActive s /\ isArmingRef s = isArming s.
Proof.
  unfold flagsChanged. intros H. apply orb_false_iff in H as [H1 H2].
  apply negb_false_iff, Bool.eqb_prop in H1.
  apply negb_false_iff, Bool.eqb_prop in H2. auto.
Qed.

(** The sensor effects, run on a state whose handlers were detached and
    whose mirrors are up to date. *)
Lemma attached_sensorEffects (s : App) :
  listeners s = [] -> isServiceActiveRef s = isServiceActive s ->
  isArmingRef s = isArming s ->
  attachedOnlyWhileActive (sensorEffects s).
Proof.
  intros Hl Hsvc Harm.
  destruct (isServiceActive s && negb (isArming s))%bool eqn:Hlive.
  - right. apply andb_true_iff in Hlive as [H1 H2].
    apply negb_true_iff in H2.
    pose proof (control_mirrors _ _ (sensorEffects_control s)) as (M1 & M2 & _).
    rewrite M1, M2, Hsvc, Harm. auto.
  - left. unfold sensorEffects. rewrite Hlive. exact Hl.
Qed.

Lemma attached_commit (s : App) :
  attachedOnlyWhileActive s -> attachedOnlyWhileActive (commit s).
Proof.
  intros Hs. rewrite commit_cases.
  destruct (flagsChanged s) eqn:Hchanged; [|destruct (volumeChanged s)].
  - destruct (commit_cleaned (activationLogCleanup s)
                (set_renderedVolume (alarmVolume s) s)) as [Hy Hly].
    set (y := mirrorEffects _) in *. clearbody y.
    pose proof (activationEffect_control y) as Hx. rewrite Hy in Hx.
    pose proof (shell_activationEffect y) as Hlx.
    unfold shell in Hlx. injection Hlx as Hlx _ _. rewrite ?Hly in Hlx.
    set (x := activationEffect y) in *. clearbody x.
    unfold control in Hx. injection Hx as _ _ _ _ X1 X2 _ X4 X5 _.
    apply attached_sensorEffects; [exact Hlx | |];
      rewrite ?X1, ?X2, ?X4, ?X5; reflexivity.
  - destruct (commit_cleaned None (set_renderedVolume (alarmVolume s) s))
      as [Hy Hly].
    cbn [clearTimerRef] in Hy, Hly.
    set (y := mirrorEffects _) in *. clearbody y.
    unfold control in Hy. injection Hy as _ _ _ _ X1 X2 _ X4 X5 _.
    apply attached_sensorEffects; [exact Hly | |];
      rewrite ?X1, ?X2, ?X4, ?X5; reflexivity.
  - destruct (flagsChanged_false s Hchanged) as [H1 H2].
    unfold attachedOnlyWhileActive, mirrorEffects in *.
    cbn [listeners isServiceActiveRef isArmingRef set_supportedSensorsRef
         set_isArmingRef set_isServiceActiveRef set_isAlarmPlayingRef
         isServiceActive isArming set_renderedVolume].
    rewrite <- H1, <- H2. exact Hs.
Qed.

Lemma attached_run (events : list Event) (s : App) :
  attachedOnlyWhileActive s -> attachedOnlyWhileActive (run events s).
Proof.
  revert s. induction events as [|e events IH]; intros s Hs; [exact Hs|].
  cbn [run fold_left]. apply IH.
  destruct e; try (apply (attached_shell s);
                   [apply shell_step; discriminate | exact Hs]).
  apply attached_commit, Hs.
Qed.

(** X1: on a device whose browser does not ask for the motion permission
    ([DeviceMotionEvent.requestPermission] is absent, so that no handler is
    attached from a late answer to it), whatever happens to the mounted
    component (clicks on the main, clear and volume buttons and elsewhere on
    the page, commits, timers, ends of bursts, the audio context resuming,
    position answers, readings and errors of the sensors, in any order),
    reading handlers are attached only while the committed flags say that
    the service is active and no longer arming: during the arming delay and
    after a deactivation has been committed, no handler is attached. *)
Theorem handlers_attached_only_while_active
  (p : Platform) (now : N) (events : list Event)
  (Hprompt : motionNeedsPermission p = false) :
  attachedOnlyWhileActive (run events (initialApp p now)).
Proof. apply attached_run. left. reflexivity. Qed.

Lemma handlers_attached_only_while_active_witness :
  motionNeedsPermission examplePhone = false
  /\ attachedOnlyWhileActive (run exampleEvening (initialApp examplePhone 1000))
  /\ listeners (run exampleEvening (initialApp examplePhone 1000)) = [].
Proof.
  split; [reflexivity|]. split.
  - apply handlers_attached_only_while_active. reflexivity.
  - vm_compute. reflexivity.
Defined.

(** X2: on a device whose browser does not ask for the motion permission,
    whatever happens to the mounted component (the events listed at X1), at
    most one oscillator sounds at any time, and it is the one
    [oscillatorRef] holds: bursts never overlap. *)
Theorem bursts_never_overlap (p : Platform) (now : N) (events : list Event)
  (Hprompt : motionNeedsPermission p = false) :
  oneVoice (run events (initialApp p now)).
Proof. apply (sound_run events), sound_initialApp. Qed.

Lemma bursts_never_overlap_witness :
  motionNeedsPermission examplePhone = false
  /\ oneVoice (run exampleLifted (initialApp examplePhone 1000))
  /\ map fst (playing (run exampleLifted (initialApp examplePhone 1000)))
     = [3%positive].
Proof.
  split; [reflexivity|]. split.
  - apply bursts_never_overlap. reflexivity.
  - vm_compute. reflexivity.
Defined.

(** X3: on a device whose browser does not ask for the motion permission,
    whatever happens to the mounted component (the events listed at X1), at
    most one repeat timer of the siren is pending, and it is the one
    [alarmIntervalRef] holds: no interval is ever left running behind. *)
Theorem siren_timer_never_leaks
  (p : Platform) (now : N) (events : list Event)
  (Hprompt : motionNeedsPermission p = false) :
  oneSirenTimer (run events (initialApp p now)).
Proof. apply (sound_run events), sound_initialApp. Qed.

Lemma siren_timer_never_leaks_witness :
  motionNeedsPermission examplePhone = false
  /\ oneSirenTimer (run exampleEvening (initialApp examplePhone 1000))
  /\ intervals (run exampleEvening (initialApp examplePhone 1000)) = [].
Proof.
  split; [reflexivity|]. split.
  - apply siren_timer_never_leaks. reflexivity.
  - vm_compute. reflexivity.
Defined.

(** X4: on a device whose browser does not ask for the motion permission,
    whatever happens to the mounted component (the events listed at X1),
    the incident log never holds more than 50 entries. *)
Theorem log_never_exceeds_cap (p : Platform) (now : N) (events : list Event)
  (Hprompt : motionNeedsPermission p = false) :
  (List.length (logs (run events (initialApp p now))) <= 50)%nat.
Proof. apply (sound_run events), sound_initialApp. Qed.

Lemma log_never_exceeds_cap_witness :
  motionNeedsPermission examplePhone = false
  /\ (List.length (logs (run exampleShaken (initialApp examplePhone 1000)))
      <= 50)%nat
  /\ List.length (logs (run exampleShaken (initialApp examplePhone 1000)))
     = 50%nat.
Proof.
  split; [reflexivity|]. split.
  - apply log_never_exceeds_cap. reflexivity.
  - vm_compute. reflexivity.
Defined.

(** ** Stopping leaves nothing behind *)

Lemma silent_kept (s t : App) : kept t = kept s -> silent s -> silent t.
Proof.
  unfold kept, silent, intervals. intros H. injection H as Hp _ Ht _ _.
  rewrite Hp, Ht. auto.
Qed.

Lemma silent_clearTimerRef (r : option positive) (s : App) :
  silent s -> silent (clearTimerRef r s).
Proof.
  intros [Hp Hi]. destruct r as [h|]; [|split; assumption].
  split; [exact Hp|]. unfold intervals, clearTimerRef, clearTimer in *.
  cbn [timers set_timers]. rewrite filter_filter_comm, Hi. reflexivity.
Qed.

Lemma silent_stopAlarm (s : App) : sound s -> silent (stopAlarm s).
Proof.
  intros Hs. unfold stopAlarm. cbv zeta. apply silent_clearTimerRef.
  repeat match goal with
         | |- silent (stopAlarmSound _) => fail 1
         | |- silent (?f _ ?t) =>
             apply (silent_kept t); [solve [auto 1 with kept_db nocore]|]
         end.
  assert (Hs0 : sound (setIsAlarmPlaying false s)) by sound_peel.
  destruct (sound_stopAlarmSound _ Hs0) as (_ & Hp & Hi). split; assumption.
Qed.

(** X5: on a device whose browser does not ask for the motion permission,
    in every state the mounted component can reach (by clicks on the main,
    clear and volume buttons and elsewhere on the page, commits, timers,
    ends of bursts, the audio context resuming, position answers, readings
    and errors of the sensors, in any order), stopping the siren
    ([stopAlarmSound]) or the alarm ([stopAlarm]) leaves no oscillator
    sounding and no repeat timer of the siren pending, and so does the click
    on the main button while it shows as the stop button; stopping the siren
    a second time changes nothing. *)
Theorem stopping_silences_the_siren
  (p : Platform) (now : N) (events : list Event)
  (Hprompt : motionNeedsPermission p = false) :
  let s := run events (initialApp p now) in
  silent (stopAlarmSound s)
  /\ silent (stopAlarm s)
  /\ (isAlarmPlayingRef s = true -> silent (step MainButtonClick s))
  /\ stopAlarmSound (stopAlarmSound s) = stopAlarmSound s.
Proof.
  cbv zeta.
  pose proof (sound_run events _ (sound_initialApp p now)) as Hs.
  set (s := run events (initialApp p now)) in *. clearbody s.
  split; [|split; [|split]].
  - destruct (sound_stopAlarmSound s Hs) as (_ & Hp & Hi). split; assumption.
  - apply silent_stopAlarm, Hs.
  - intros Href. cbn [step]. unfold clickOn, mainButtonClick.
    rewrite Href, andb_false_r.
    apply (silent_kept (stopAlarm s)); [apply getAudioContext_kept|].
    apply silent_stopAlarm, Hs.
  - destruct (stopAlarmSound_spec s) as (Hi & Ho & Hg & _).
    cbv zeta in Hi, Ho, Hg.
    set (t := stopAlarmSound s) in *. clearbody t.
    unfold stopAlarmSound. rewrite Hi, Ho, Hg. reflexivity.
Qed.

Lemma stopping_silences_the_siren_witness :
  motionNeedsPermission examplePhone = false
  /\ playing (run exampleLifted (initialApp examplePhone 1000)) <> []
  /\ intervals (run exampleLifted (initialApp examplePhone 1000)) <> []
  /\ isAlarmPlayingRef (run exampleLifted (initialApp examplePhone 1000))
     = true
  /\ (let s := run exampleLifted (initialApp examplePhone 1000) in
      silent (stopAlarmSound s)
      /\ silent (stopAlarm s)
      /\ (isAlarmPlayingRef s = true -> silent (step MainButtonClick s))
      /\ stopAlarmSound (stopAlarmSound s) = stopAlarmSound s).
Proof.
  split; [reflexivity|].
  split; [vm_compute; discriminate|].
  split; [vm_compute; discriminate|].
  split; [vm_compute; reflexivity|].
  apply stopping_silences_the_siren. reflexivity.
Defined.

(** ** The gate of the reading handlers *)

Lemma not_active_committed (s : App) :
  committed s -> serviceState s <> Active -> ignoresReadings s = true.
Proof.
  intros (Hplay & Hsvc & Harm). unfold serviceState, ignoresReadings.
  rewrite Hplay, Hsvc, Harm.
  destruct (isAlarmPlaying s), (isArming s), (isServiceActive s);
    intros H; try reflexivity. contradiction H; reflexivity.
Qed.

(** X6: while the committed state is not Active (Inactive, Arming or
    Alarming), every reading handler returns at its guard: a reading changes
    nothing, not even the baseline of its sensor. *)
Theorem readings_ignored_unless_active (s : App)
  (Hcommitted : committed s) (Hnot : serviceState s <> Active) :
  (forall acc, motionHandlerInternal acc s = s)
  /\ (forall sensor, gyroscopeOnReading sensor s = s)
  /\ (forall near, proximityOnReading near s = s)
  /\ (forall value max, proximityEventHandler value max s = s)
  /\ (forall v, lightOnReading v s = s)
  /\ (forall sensor, magnetometerOnReading sensor s = s)
  /\ (forall v, barometerOnReading v s = s).
Proof.
  pose proof (not_active_committed s Hcommitted Hnot) as Hgate.
  repeat split; intros;
    unfold motionHandlerInternal, gyroscopeOnReading, proximityOnReading,
      proximityEventHandler, lightOnReading, magnetometerOnReading,
      barometerOnReading;
    rewrite Hgate; reflexivity.
Qed.

Lemma readings_ignored_unless_active_witness :
  committed exampleArming
  /\ serviceState exampleArming <> Active
  /\ motionHandlerInternal (Some (reading 30 40 50)) exampleArming
     = exampleArming.
Proof.
  assert (Hc : committed exampleArming) by (vm_compute; auto).
  assert (Hn : serviceState exampleArming <> Active)
    by (vm_compute; discriminate).
  split; [exact Hc|]. split; [exact Hn|].
  exact (proj1 (readings_ignored_unless_active exampleArming Hc Hn)
           (Some (reading 30 40 50))).
Defined.

(** ** The other change detectors *)

(** X7: with a baseline, the magnetometer handler triggers exactly when the
    absolute change of one axis is strictly above 20 microtesla, and the
    reading becomes the baseline whether it triggers or not. *)
Theorem magnetometer_triggers_above_threshold
  (x y z : float) (last : Vec3) (s : App)
  (Hcommitted : committed s) (Hactive : serviceState s = Active)
  (Hlast : lastMagnetometerReadingRef s = Some last) :
  let s' := magnetometerOnReading (reading x y z) s in
  (isAlarmPlaying s' = true <-> magnetometerExceeds last (mkVec3 x y z) = true)
  /\ lastMagnetometerReadingRef s' = Some (mkVec3 x y z)
  /\ (magnetometerExceeds last (mkVec3 x y z) = false ->
      s' = set_lastMagnetometerReadingRef (Some (mkVec3 x y z)) s).
Proof.
  destruct (active_committed s Hcommitted Hactive) as (Hgate & Href & Hquiet).
  cbv zeta. unfold magnetometerOnReading, reading. rewrite Hgate, Hlast.
  change ((MAGNETOMETER_CHANGE_THRESHOLD_UT <? abs (x - vx last))
          || (MAGNETOMETER_CHANGE_THRESHOLD_UT <? abs (y - vy last))
          || (MAGNETOMETER_CHANGE_THRESHOLD_UT <? abs (z - vz last)))%bool
    with (magnetometerExceeds last (mkVec3 x y z)).
  destruct (magnetometerExceeds last (mkVec3 x y z)).
  - split; [|split; [reflexivity | discriminate]].
    split; [reflexivity|]. intros _.
    exact (triggerAlarm_isAlarmPlaying _ s Href).
  - split; [|split; reflexivity].
    change (isAlarmPlaying
              (set_lastMagnetometerReadingRef (Some (mkVec3 x y z)) s))
      with (isAlarmPlaying s).
    rewrite Hquiet. split; discriminate.
Qed.

(** A change of 21 microtesla on one axis triggers; a change of exactly 20
    does not. *)
Lemma magnetometer_triggers_above_threshold_witness :
  committed exampleMagnetized
  /\ serviceState exampleMagnetized = Active
  /\ lastMagnetometerReadingRef exampleMagnetized = Some (mkVec3 10 20 30)
  /\ isAlarmPlaying
       (magnetometerOnReading (reading 10 20 51) exampleMagnetized) = true
  /\ magnetometerOnReading (reading 10 40 30) exampleMagnetized
     = set_lastMagnetometerReadingRef (Some (mkVec3 10 40 30))
         exampleMagnetized.
Proof.
  assert (Hc : committed exampleMagnetized) by (vm_compute; auto).
  assert (Ha : serviceState exampleMagnetized = Active)
    by (vm_compute; reflexivity).
  assert (Hl : lastMagnetometerReadingRef exampleMagnetized
               = Some (mkVec3 10 20 30)) by (vm_compute; reflexivity).
  assert (Hd : magnetometerExceeds (mkVec3 10 20 30) (mkVec3 10 20 51) = true)
    by (vm_compute; reflexivity).
  assert (He : magnetometerExceeds (mkVec3 10 20 30) (mkVec3 10 40 30) = false)
    by (vm_compute; reflexivity).
  split; [exact Hc|]. split; [exact Ha|]. split; [exact Hl|]. split.
  - exact (proj2 (proj1 (magnetometer_triggers_above_threshold
                           10 20 51 (mkVec3 10 20 30) exampleMagnetized
                           Hc Ha Hl)) Hd).
  - exact (proj2 (proj2 (magnetometer_triggers_above_threshold
                           10 40 30 (mkVec3 10 20 30) exampleMagnetized
                           Hc Ha Hl)) He).
Defined.


(** X8: with a baseline, the light handler triggers exactly when the
    illuminance differs from the baseline by strictly more than 50 lux, and
    the reading becomes the baseline whether it triggers or not. *)
Theorem light_triggers_above_threshold
  (current last : float) (s : App)
  (Hcommitted : committed s) (Hactive : serviceState s = Active)
  (Hlast : lastIlluminanceRef s = Some last) :
  let s' := lightOnReading (Some current) s in
  (isAlarmPlaying s' = true
   <-> (LIGHT_CHANGE_THRESHOLD_LUX <? abs (current - last)) = true)
  /\ lastIlluminanceRef s' = Some current
  /\ ((LIGHT_CHANGE_THRESHOLD_LUX <? abs (current - last)) = false ->
      s' = set_lastIlluminanceRef (Some current) s).
Proof.
  destruct (active_committed s Hcommitted Hactive) as (Hgate & Href & Hquiet).
  cbv zeta. unfold lightOnReading. rewrite Hgate, Hlast.
  destruct (LIGHT_CHANGE_THRESHOLD_LUX <? abs (current - last)).
  - split; [|split; [reflexivity | discriminate]].
    split; [reflexivity|]. intros _.
    exact (triggerAlarm_isAlarmPlaying _ s Href).
  - split; [|split; reflexivity].
    change (isAlarmPlaying (set_lastIlluminanceRef (Some current) s))
      with (isAlarmPlaying s).
    rewrite Hquiet. split; discriminate.
Qed.

(** From 100 lux, 151 lux triggers and 150 lux does not. *)
Lemma light_triggers_above_threshold_witness :
  committed exampleLit
  /\ serviceState exampleLit = Active
  /\ lastIlluminanceRef exampleLit = Some 100%float
  /\ isAlarmPlaying (lightOnReading (Some 151%float) exampleLit) = true
  /\ lightOnReading (Some 150%float) exampleLit
     = set_lastIlluminanceRef (Some 150%float) exampleLit.
Proof.
  assert (Hc : committed exampleLit) by (vm_compute; auto).
  assert (Ha : serviceState exampleLit = Active) by (vm_compute; reflexivity).
  assert (Hl : lastIlluminanceRef exampleLit = Some 100%float)
    by (vm_compute; reflexivity).
  assert (Hd : (LIGHT_CHANGE_THRESHOLD_LUX <? abs (151 - 100)) = true)
    by (vm_compute; reflexivity).
  assert (He : (LIGHT_CHANGE_THRESHOLD_LUX <? abs (150 - 100)) = false)
    by (vm_compute; reflexivity).
  split; [exact Hc|]. split; [exact Ha|]. split; [exact Hl|]. split.
  - exact (proj2 (proj1 (light_triggers_above_threshold
                           151 100 exampleLit Hc Ha Hl)) Hd).
  - exact (proj2 (proj2 (light_triggers_above_threshold
                           150 100 exampleLit Hc Ha Hl)) He).
Defined.


(** X9: with a baseline, the barometer handler triggers exactly when the
    pressure differs from the baseline by strictly more than 20 pascal, and
    the reading becomes the baseline whether it triggers or not. *)
Theorem barometer_triggers_above_threshold
  (current last : float) (s : App)
  (Hcommitted : committed s) (Hactive : serviceState s = Active)
  (Hlast : lastPressureRef s = Some last) :
  let s' := barometerOnReading (Some current) s in
  (isAlarmPlaying s' = true
   <-> (BAROMETER_CHANGE_THRESHOLD_PA <? abs (current - last)) = true)
  /\ lastPressureRef s' = Some current
  /\ ((BAROMETER_CHANGE_THRESHOLD_PA <? abs (current - last)) = false ->
      s' = set_lastPressureRef (Some current) s).
Proof.
  destruct (active_committed s Hcommitted Hactive) as (Hgate & Href & Hquiet).
  cbv zeta. unfold barometerOnReading. rewrite Hgate, Hlast.
  destruct (BAROMETER_CHANGE_THRESHOLD_PA <? abs (current - last)).
  - split; [|split; [reflexivity | discriminate]].
    split; [reflexivity|]. intros _.
    exact (triggerAlarm_isAlarmPlaying _ s Href).
  - split; [|split; reflexivity].
    change (isAlarmPlaying (set_lastPressureRef (Some current) s))
      with (isAlarmPlaying s).
    rewrite Hquiet. split; discriminate.
Qed.

(** From 101325 Pa, a drop of 21 Pa triggers and a drop of 20 Pa does not. *)
Lemma barometer_triggers_above_threshold_witness :
  committed examplePressurized
  /\ serviceState examplePressurized = Active
  /\ lastPressureRef examplePressurized = Some 101325%float
  /\ isAlarmPlaying (barometerOnReading (Some 101304%float) examplePressurized)
     = true
  /\ barometerOnReading (Some 101305%float) examplePressurized
     = set_lastPressureRef (Some 101305%float) examplePressurized.
Proof.
  assert (Hc : committed examplePressurized) by (vm_compute; auto).
  assert (Ha : serviceState examplePressurized = Active)
    by (vm_compute; reflexivity).
  assert (Hl : lastPressureRef examplePressurized = Some 101325%float)
    by (vm_compute; reflexivity).
  assert (Hd : (BAROMETER_CHANGE_THRESHOLD_PA <? abs (101304 - 101325)) = true)
    by (vm_compute; reflexivity).
  assert (He : (BAROMETER_CHANGE_THRESHOLD_PA <? abs (101305 - 101325)) = false)
    by (vm_compute; reflexivity).
  split; [exact Hc|]. split; [exact Ha|]. split; [exact Hl|]. split.
  - exact (proj2 (proj1 (barometer_triggers_above_threshold
                           101304 101325 examplePressurized Hc Ha Hl)) Hd).
  - exact (proj2 (proj2 (barometer_triggers_above_threshold
                           101305 101325 examplePressurized Hc Ha Hl)) He).
Defined.


(** X10: while the service is Active, the proximity handler triggers exactly
    when the sensor reports near, and the handler of the legacy event exactly
    when the distance is strictly below 5 cm and strictly below the maximum
    the event reports; a reading that does not trigger changes nothing. *)
Theorem proximity_triggers_when_near
  (near : option bool) (value max : float) (s : App)
  (Hcommitted : committed s) (Hactive : serviceState s = Active) :
  (isAlarmPlaying (proximityOnReading near s) = true <-> near = Some true)
  /\ (near <> Some true -> proximityOnReading near s = s)
  /\ (isAlarmPlaying (proximityEventHandler value max s) = true
      <-> ((value <? PROXIMITY_FALLBACK_THRESHOLD_CM) && (value <? max))%bool
          = true)
  /\ (((value <? PROXIMITY_FALLBACK_THRESHOLD_CM) && (value <? max))%bool
      = false -> proximityEventHandler value max s = s).
Proof.
  destruct (active_committed s Hcommitted Hactive) as (Hgate & Href & Hquiet).
  unfold proximityOnReading, proximityEventHandler. rewrite Hgate.
  pose proof (fun src => triggerAlarm_isAlarmPlaying src s Href) as Htrig.
  split; [|split; [|split]].
  - destruct near as [[|]|]; rewrite ?Htrig, ?Hquiet;
      split; intros H; try reflexivity; discriminate H.
  - destruct near as [[|]|]; intros H; try reflexivity.
    contradiction H; reflexivity.
  - destruct ((value <? PROXIMITY_FALLBACK_THRESHOLD_CM) && (value <? max))%bool;
      rewrite ?Htrig, ?Hquiet; split; intros H; try reflexivity;
      discriminate H.
  - intros ->. reflexivity.
Qed.

(** Near triggers; a legacy event at 3 cm of a maximum of 3 cm does not. *)
Lemma proximity_triggers_when_near_witness :
  committed exampleActive
  /\ serviceState exampleActive = Active
  /\ isAlarmPlaying (proximityOnReading (Some true) exampleActive) = true
  /\ proximityEventHandler 3 3 exampleActive = exampleActive.
Proof.
  assert (Hc : committed exampleActive) by (vm_compute; auto).
  assert (Ha : serviceState exampleActive = Active)
    by (vm_compute; reflexivity).
  assert (He : ((3 <? PROXIMITY_FALLBACK_THRESHOLD_CM) && (3 <? 3))%bool
               = false) by (vm_compute; reflexivity).
  split; [exact Hc|]. split; [exact Ha|]. split.
  - exact (proj2 (proj1 (proximity_triggers_when_near
                           (Some true) 3 3 exampleActive Hc Ha)) eq_refl).
  - exact (proj2 (proj2 (proj2 (proximity_triggers_when_near
                                  (Some true) 3 3 exampleActive Hc Ha))) He).
Defined.


(** ** The advisory text *)

Lemma string_app_assoc (a b c : string) : ((a ++ b) ++ c = a ++ (b ++ c))%string.
Proof.
  induction a as [|x a IH]; [reflexivity|]. cbn. rewrite IH. reflexivity.
Qed.

Lemma string_app_empty (a : string) : (a ++ "")%string = a.
Proof.
  induction a as [|x a IH]; [reflexivity|]. cbn. rewrite IH. reflexivity.
Qed.

Lemma splitLinesFrom_singleLine (s cur : string) :
  singleLine s = true -> splitLinesFrom cur s = [(cur ++ s)%string].
Proof.
  revert cur. induction s as [|c s IH]; intros cur H.
  - cbn. rewrite string_app_empty. reflexivity.
  - cbn in H |- *. destruct (Ascii.eqb c "010"%char); [discriminate H|].
    cbn in H. rewrite (IH _ H), string_app_assoc. reflexivity.
Qed.

Lemma splitLines_singleLine (s : string) :
  singleLine s = true -> splitLines s = [s].
Proof.
  intros H. unfold splitLines. rewrite (splitLinesFrom_singleLine s "" H).
  reflexivity.
Qed.

(** X11: a message of one line that is reported when no advisory text is
    shown, or when it is itself the whole advisory text, becomes
    (or stays) the advisory text: reporting it again does not repeat it. *)
Theorem appendErrorMessage_does_not_repeat (newMessage : string) (s : App)
  (Hline : singleLine newMessage = true)
  (Hshown : errorMessage s = None \/ errorMessage s = Some newMessage) :
  appendErrorMessage newMessage s = setErrorMessage (Some newMessage) s
  /\ appendErrorMessage newMessage (appendErrorMessage newMessage s)
     = appendErrorMessage newMessage s.
Proof.
  assert (Hsame : appendedErrorMessage newMessage (Some newMessage)
                  = newMessage).
  { unfold appendedErrorMessage. destruct newMessage as [|c m]; [reflexivity|].
    rewrite (splitLines_singleLine _ Hline). cbn [List.length Nat.eqb hd].
    rewrite String.eqb_refl. reflexivity. }
  assert (Hfirst : appendedErrorMessage newMessage (errorMessage s)
                   = newMessage).
  { destruct Hshown as [-> | ->]; [reflexivity | exact Hsame]. }
  assert (Hone : appendErrorMessage newMessage s
                 = setErrorMessage (Some newMessage) s).
  { unfold appendErrorMessage. rewrite Hfirst. reflexivity. }
  split; [exact Hone|]. rewrite Hone.
  unfold appendErrorMessage. cbn [errorMessage setErrorMessage].
  rewrite Hsame. reflexivity.
Qed.

(** The permission message of a sensor is shown once; a message of two
    lines is repeated, its lines being compared one by one. *)
Lemma appendErrorMessage_does_not_repeat_witness :
  singleLine "Permissao para Giroscopio negada." = true
  /\ errorMessage
       (appendErrorMessage "Permissao para Giroscopio negada."
          (appendErrorMessage "Permissao para Giroscopio negada."
             (initialApp examplePhone 1000)))
     = errorMessage
         (appendErrorMessage "Permissao para Giroscopio negada."
            (initialApp examplePhone 1000))
  /\ appendedErrorMessage ("a" ++ newline ++ "b")
       (Some ("a" ++ newline ++ "b"))%string
     = ("a" ++ newline ++ "b" ++ newline ++ "a" ++ newline ++ "b")%string.
Proof.
  assert (Hl : singleLine "Permissao para Giroscopio negada." = true)
    by (vm_compute; reflexivity).
  split; [exact Hl|]. split; [|vm_compute; reflexivity].
  exact (f_equal errorMessage
           (proj2 (appendErrorMessage_does_not_repeat
                     "Permissao para Giroscopio negada."
                     (initialApp examplePhone 1000) Hl
                     (or_introl eq_refl)))).
Defined.

(** ** The volume *)

Lemma SFcompare_antisym (a b : SpecFloat.spec_float) (c : comparison) :
  SpecFloat.SFcompare a b = Some c ->
  SpecFloat.SFcompare b a = Some (CompOpp c).
Proof.
  destruct a as [sa|sa| |sa ma ea], b as [sb|sb| |sb mb eb];
    cbn [SpecFloat.SFcompare]; intros H; try discriminate H;
    injection H as <-; try (destruct sa, sb; reflexivity);
    try (destruct sa; reflexivity); try (destruct sb; reflexivity).
  f_equal. change IntDef.Z.compare with BinInt.Z.compare.
  change PosDef.Pos.compare_cont with BinPos.Pos.compare_cont.
  rewrite (BinInt.Z.compare_antisym ea eb).
  pose proof (Pos.compare_cont_antisym ma mb Eq) as Hm. cbn [CompOpp] in Hm.
  destruct sa, sb; try reflexivity;
    destruct (BinInt.Z.compare ea eb); cbn [CompOpp]; try reflexivity;
    rewrite <- Hm; destruct (Pos.compare_cont Eq ma mb); reflexivity.
Qed.

Lemma SFcompare_defined (x y : float) :
  is_nan x = false -> is_nan y = false ->
  exists c, SpecFloat.SFcompare (FloatOps.Prim2SF x) (FloatOps.Prim2SF y)
            = Some c.
Proof.
  unfold is_nan. rewrite !FloatAxioms.eqb_spec. unfold SpecFloat.SFeqb.
  destruct (FloatOps.Prim2SF x) as [sa|sa| |sa ma ea],
           (FloatOps.Prim2SF y) as [sb|sb| |sb mb eb];
    cbn [SpecFloat.SFcompare negb]; intros Hx Hy;
    try discriminate Hx; try discriminate Hy; eexists; reflexivity.
Qed.

(** Two numbers, none NaN, are ordered one way or the other. *)
Lemma leb_of_not_ltb (x y : float) :
  is_nan x = false -> is_nan y = false ->
  (x <? y) = false -> (y <=? x) = true.
Proof.
  intros Hx Hy. destruct (SFcompare_defined x y Hx Hy) as [c Hc].
  rewrite FloatAxioms.ltb_spec, FloatAxioms.leb_spec.
  unfold SpecFloat.SFltb, SpecFloat.SFleb.
  rewrite Hc, (SFcompare_antisym _ _ c Hc).
  destruct c; cbn [CompOpp]; intros H; try reflexivity; discriminate H.
Qed.

Lemma leb_of_ltb (x y : float) : (x <? y) = true -> (x <=? y) = true.
Proof.
  rewrite FloatAxioms.ltb_spec, FloatAxioms.leb_spec.
  unfold SpecFloat.SFltb, SpecFloat.SFleb.
  destruct (SpecFloat.SFcompare _ _) as [[| |]|]; intros H;
    try reflexivity; discriminate H.
Qed.

(** The clamp of [adjustVolume]. *)
Lemma clamp_range (x : float) :
  is_nan x = false ->
  (0 <=? mathMax 0 (mathMin 1 x)) = true
  /\ (mathMax 0 (mathMin 1 x) <=? 1) = true.
Proof.
  intros Hx.
  assert (Hmin : is_nan (mathMin 1 x) = false /\ (mathMin 1 x <=? 1) = true).
  { unfold mathMin. rewrite Hx.
    change (is_nan 1 || false)%bool with false. cbv iota.
    destruct (1 <? x) eqn:Hlt; [split; vm_compute; reflexivity|].
    assert (Hle : (x <=? 1) = true)
      by (apply leb_of_not_ltb; [reflexivity | exact Hx | exact Hlt]).
    change (get_sign 1) with false. cbv iota.
    destruct (x <? 1); split; assumption. }
  destruct Hmin as [Hnan Hle]. set (y := mathMin 1 x) in *. clearbody y.
  unfold mathMax. rewrite Hnan.
  change (is_nan 0 || false)%bool with false. cbv iota.
  destruct (0 <? y) eqn:Hlt; [split; [apply leb_of_ltb, Hlt | exact Hle]|].
  change (get_sign 0) with false. cbv iota.
  destruct (y <? 0); split; vm_compute; reflexivity.
Qed.

Lemma clamp_nan (x : float) :
  is_nan x = true -> is_nan (mathMax 0 (mathMin 1 x)) = true.
Proof.
  intros Hx. unfold mathMin. rewrite Hx, orb_true_r. reflexivity.
Qed.

Lemma adjustVolume_alarmVolume (delta : float) (s : App) :
  alarmVolume (adjustVolume delta s)
  = mathMax 0 (mathMin 1 (alarmVolume s + delta)).
Proof.
  unfold adjustVolume. cbv zeta.
  destruct (gainNodeRef s) as [g|]; [|reflexivity].
  destruct (audioContextRef s) as [[]|]; reflexivity.
Qed.

(** X12: [adjustVolume] stores a volume between 0 and 1 whenever the sum of
    the volume and the change is a number; a sum that is NaN is stored as
    NaN.  The gain node the component refers to is set to the new volume
    only while the audio context runs, and nothing but the volume and that
    gain changes. *)
Theorem adjustVolume_clamps (delta : float) (s : App) :
  let s' := adjustVolume delta s in
  (is_nan (alarmVolume s + delta) = false ->
   (0 <=? alarmVolume s') = true /\ (alarmVolume s' <=? 1) = true)
  /\ (is_nan (alarmVolume s + delta) = true -> is_nan (alarmVolume s') = true)
  /\ (audioContextRef s <> Some running \/ gainNodeRef s = None ->
      s' = setAlarmVolume (alarmVolume s') s)
  /\ (forall gainNode, audioContextRef s = Some running ->
      gainNodeRef s = Some gainNode ->
      s' = setAlarmVolume (alarmVolume s')
             (setGain gainNode (alarmVolume s') s)).
Proof.
  cbv zeta. rewrite adjustVolume_alarmVolume.
  split; [apply clamp_range|]. split; [apply clamp_nan|].
  unfold adjustVolume. cbv zeta. split.
  - intros [H | H].
    + destruct (gainNodeRef s); [|reflexivity].
      destruct (audioContextRef s) as [[]|]; try reflexivity.
      contradiction H; reflexivity.
    + rewrite H. reflexivity.
  - intros g -> ->. reflexivity.
Qed.

Lemma adjustVolume_clamps_witness :
  alarmVolume (adjustVolume 0.5 exampleAlarming) = 1
  /\ alarmVolume (adjustVolume (-2) exampleAlarming) = 0
  /\ is_nan (alarmVolume (adjustVolume nan exampleAlarming)) = true.
Proof.
  split; [vm_compute; reflexivity|]. split; [vm_compute; reflexivity|].
  exact (proj1 (proj2 (adjustVolume_clamps nan exampleAlarming)) eq_refl).
Defined.

Lemma volumeLevels_closed (v : float) :
  In v volumeLevels ->
  In (mathMax 0 (mathMin 1 (v + 0.1))) volumeLevels
  /\ In (mathMax 0 (mathMin 1 (v + -0.1))) volumeLevels.
Proof.
  intros H.
  repeat (destruct H as [<- | H];
          [split; vm_compute; repeat (first [left; reflexivity | right])|]).
  destruct H.
Qed.

Lemma volumeLevels_range (v : float) :
  In v volumeLevels -> (0 <=? v) = true /\ (v <=? 1) = true.
Proof.
  intros H.
  repeat (destruct H as [<- | H]; [split; vm_compute; reflexivity|]).
  destruct H.
Qed.

(** X13: from the initial volume 0.9, whatever the two volume buttons are
    pressed in whatever order, the volume is a number between 0 and 1. *)
Theorem volume_buttons_stay_in_range
  (p : Platform) (now : N) (presses : list bool) :
  let s := fold_left
             (fun (s : App) (up : bool) =>
                if up then onVolumeUp s else onVolumeDown s)
             presses (initialApp p now) in
  (0 <=? alarmVolume s) = true /\ (alarmVolume s <=? 1) = true.
Proof.
  cbv zeta. apply volumeLevels_range.
  assert (H0 : In (alarmVolume (initialApp p now)) volumeLevels).
  { cbn [alarmVolume initialApp]. unfold volumeLevels.
    repeat (first [left; reflexivity | right]). }
  revert H0. generalize (initialApp p now).
  induction presses as [|up presses IH]; intros s Hs; [exact Hs|].
  cbn [fold_left]. apply IH.
  destruct (volumeLevels_closed _ Hs) as [Hup Hdown].
  destruct up; unfold onVolumeUp, onVolumeDown;
    rewrite adjustVolume_alarmVolume; assumption.
Qed.

(** ** A detection is logged once *)

Lemma getAudioContext_journal (s : App) :
  journal (snd (getAudioContext s)) = journal s.
Proof.
  unfold getAudioContext.
  destruct (audioContextRef s); [reflexivity|].
  destruct (audioContextCtor _); reflexivity.
Qed.

Lemma playSirenBurst_journal (s : App) :
  journal (playSirenBurst s) = journal s.
Proof.
  unfold playSirenBurst.
  pose proof (getAudioContext_journal s) as H.
  destruct (getAudioContext s) as [ctx s']. cbn [snd] in H.
  destruct ctx as [[]|]; try exact H.
  destruct (oscillatorRef s'); through H.
Qed.

Lemma startAlarmSound_journal (s : App) :
  journal (startAlarmSound s) = journal s.
Proof.
  unfold startAlarmSound.
  set (s0 := clearTimerRef (alarmIntervalRef s) s).
  assert (H0 : journal s0 = journal s).
  { unfold s0, clearTimerRef. destruct (alarmIntervalRef s); reflexivity. }
  pose proof (getAudioContext_journal s0) as H.
  destruct (getAudioContext s0) as [ctx s']. cbn [snd] in H.
  rewrite H0 in H.
  destruct ctx as [[]|]; try through H.
  pose proof (playSirenBurst_journal (set_sirenVolume (renderedVolume s') s'))
    as Hb.
  change (journal (set_sirenVolume (renderedVolume s') s'))
    with (journal s') in Hb.
  rewrite H in Hb.
  unfold setTimer. through Hb.
Qed.

Lemma nth_error_last {A : Type} (l : list A) (x : A) :
  nth_error (l ++ [x]) (List.length l) = Some x.
Proof. induction l as [|a l IH]; [reflexivity | exact IH]. Qed.

Lemma removeNth_last {A : Type} (l : list A) (x : A) :
  removeNth (List.length l) (l ++ [x]) = l.
Proof.
  induction l as [|a l IH]; [reflexivity|]. cbn. rewrite IH. reflexivity.
Qed.

(** X14: a detection that [triggerAlarm] accepts is logged exactly once.
    Without a position service the entry is written at once, marked as
    unsupported; with one, nothing is logged until the position request is
    answered, and the answer, at whatever instant it comes, writes the one
    entry: with the coordinates on success, marked as unavailable on
    failure.  In each case the entry goes on top of the log, capped at 50. *)
Theorem detection_is_logged_once (src : string) (s : App)
  (Href : isAlarmPlayingRef s = false) :
  let s' := triggerAlarm src s in
  (hasGeolocation (platform s) = false ->
   logs s'
   = {| id := freshId s; timestamp := clock s;
        message := src ++ " (Geolocalizacao nao suportada)";
        coordinates := None |} :: firstn 49 (logs s)
   /\ geolocationPending s' = geolocationPending s)
  /\ (hasGeolocation (platform s) = true ->
      logs s' = logs s
      /\ geolocationPending s' = (geolocationPending s ++ [src])%list
      /\ (forall (t : N) (coords : Coordinates),
          let answered :=
            geolocationSuccess (List.length (geolocationPending s)) coords
              (set_clock t s') in
          logs answered
          = {| id := decimal t; timestamp := t; message := src;
               coordinates := Some coords |} :: firstn 49 (logs s)
          /\ geolocationPending answered = geolocationPending s)
      /\ (forall (t : N) (errorText : string),
          let answered :=
            geolocationError (List.length (geolocationPending s)) errorText
              (set_clock t s') in
          logs answered
          = {| id := decimal t; timestamp := t;
               message := src ++ " (Localizacao indisponivel)";
               coordinates := None |} :: firstn 49 (logs s)
          /\ geolocationPending answered = geolocationPending s)).
Proof.
  cbv zeta.
  pose proof (startAlarmSound_journal (setIsAlarmPlaying true s)) as Hj.
  change (journal (setIsAlarmPlaying true s)) with (journal s) in Hj.
  unfold triggerAlarm. rewrite Href. cbn [negb].
  set (s1 := startAlarmSound (setIsAlarmPlaying true s)) in *. clearbody s1.
  unfold journal in Hj. injection Hj as Hlogs Hpend Hclock Hplat.
  change (platform (setErrorMessage (Some ("ALERTA! " ++ src)) s1))
    with (platform s1).
  rewrite Hplat. split; intros Hgeo; rewrite Hgeo.
  - unfold appendErrorMessage, addLogEntry, freshId.
    cbn [logs setLogs setErrorMessage geolocationPending clock].
    rewrite Hlogs, Hpend, Hclock. split; reflexivity.
  - cbn [logs geolocationPending set_geolocationPending setErrorMessage].
    rewrite Hlogs, Hpend. split; [reflexivity|]. split; [reflexivity|].
    split; intros t x; unfold geolocationSuccess, geolocationError;
      cbn [geolocationPending set_geolocationPending set_clock
           setErrorMessage];
      rewrite ?Hpend, nth_error_last, removeNth_last;
      unfold appendErrorMessage, addLogEntry, freshId;
      cbn [logs setLogs setErrorMessage geolocationPending clock
           set_geolocationPending set_clock];
      rewrite ?Hlogs; [destruct x|]; split; reflexivity.
Qed.

Lemma detection_is_logged_once_witness :
  isAlarmPlayingRef exampleResting = false
  /\ hasGeolocation (platform exampleResting) = false
  /\ logs (triggerAlarm "Movimento detectado" exampleResting)
     = {| id := freshId exampleResting; timestamp := clock exampleResting;
          message := "Movimento detectado (Geolocalizacao nao suportada)";
          coordinates := None |} :: firstn 49 (logs exampleResting).
Proof.
  assert (Href : isAlarmPlayingRef exampleResting = false)
    by (vm_compute; reflexivity).
  assert (Hgeo : hasGeolocation (platform exampleResting) = false)
    by (vm_compute; reflexivity).
  split; [exact Href|]. split; [exact Hgeo|].
  exact (proj1 (proj1 (detection_is_logged_once "Movimento detectado"
                         exampleResting Href) Hgeo)).
Defined.

(** ** The siren sounds only while the alarm shows *)

Lemma siren_setIsServiceActive (v : bool) (s : App) :
  siren (setIsServiceActive v s) = siren s.
Proof. reflexivity. Qed.

Lemma siren_setIsArming (v : bool) (s : App) :
  siren (setIsArming v s) = siren s.
Proof. reflexivity. Qed.

Lemma siren_setLogs (v : list LogEntry) (s : App) :
  siren (setLogs v s) = siren s.
Proof. reflexivity. Qed.

Lemma siren_setErrorMessage (v : option string) (s : App) :
  siren (setErrorMessage v s) = siren s.
Proof. reflexivity. Qed.

Lemma siren_setSupportedSensors (v : list string) (s : App) :
  siren (setSupportedSensors v s) = siren s.
Proof. reflexivity. Qed.

Lemma siren_set_lastAccelRef (v : option Vec3) (s : App) :
  siren (set_lastAccelRef v s) = siren s.
Proof. reflexivity. Qed.

Lemma siren_set_armingTimeoutRef (v : option positive) (s : App) :
  siren (set_armingTimeoutRef v s) = siren s.
Proof. reflexivity. Qed.

Lemma siren_set_audioContextRef (v : option AudioContextState) (s : App) :
  siren (set_audioContextRef v s) = siren s.
Proof. reflexivity. Qed.

Lemma siren_set_oscillatorRef (v : option positive) (s : App) :
  siren (set_oscillatorRef v s) = siren s.
Proof. reflexivity. Qed.

Lemma siren_set_gainNodeRef (v : option positive) (s : App) :
  siren (set_gainNodeRef v s) = siren s.
Proof. reflexivity. Qed.

Lemma siren_set_alarmIntervalRef (v : option positive) (s : App) :
  siren (set_alarmIntervalRef v s) = siren s.
Proof. reflexivity. Qed.

Lemma siren_set_lastIlluminanceRef (v : option float) (s : App) :
  siren (set_lastIlluminanceRef v s) = siren s.
Proof. reflexivity. Qed.

Lemma siren_set_lastMagnetometerReadingRef (v : option Vec3) (s : App) :
  siren (set_lastMagnetometerReadingRef v s) = siren s.
Proof. reflexivity. Qed.

Lemma siren_set_lastPressureRef (v : option float) (s : App) :
  siren (set_lastPressureRef v s) = siren s.
Proof. reflexivity. Qed.

Lemma siren_set_isAlarmPlayingRef (v : bool) (s : App) :
  siren (set_isAlarmPlayingRef v s) = siren s.
Proof. reflexivity. Qed.

Lemma siren_set_isServiceActiveRef (v : bool) (s : App) :
  siren (set_isServiceActiveRef v s) = siren s.
Proof. reflexivity. Qed.

Lemma siren_set_isArmingRef (v : bool) (s : App) :
  siren (set_isArmingRef v s) = siren s.
Proof. reflexivity. Qed.

Lemma siren_set_supportedSensorsRef (v : list string) (s : App) :
  siren (set_supportedSensorsRef v s) = siren s.
Proof. reflexivity. Qed.

Lemma siren_set_prevIsArmingRef (v : option bool) (s : App) :
  siren (set_prevIsArmingRef v s) = siren s.
Proof. reflexivity. Qed.

Lemma siren_set_hasLoggedActivationRef (v : bool) (s : App) :
  siren (set_hasLoggedActivationRef v s) = siren s.
Proof. reflexivity. Qed.

Lemma siren_set_activationLogCleanup (v : option positive) (s : App) :
  siren (set_activationLogCleanup v s) = siren s.
Proof. reflexivity. Qed.

Lemma siren_set_listeners (v : list SensorKind) (s : App) :
  siren (set_listeners v s) = siren s.
Proof. reflexivity. Qed.

Lemma siren_set_clock (v : N) (s : App) :
  siren (set_clock v s) = siren s.
Proof. reflexivity. Qed.

Lemma siren_set_nextHandle (v : positive) (s : App) :
  siren (set_nextHandle v s) = siren s.
Proof. reflexivity. Qed.

Lemma siren_set_burstsPlayed (v : nat) (s : App) :
  siren (set_burstsPlayed v s) = siren s.
Proof. reflexivity. Qed.

Lemma siren_set_geolocationPending (v : list string) (s : App) :
  siren (set_geolocationPending v s) = siren s.
Proof. reflexivity. Qed.

Lemma siren_setAlarmVolume (v : float) (s : App) :
  siren (setAlarmVolume v s) = siren s.
Proof. reflexivity. Qed.

Lemma siren_set_renderedVolume (v : float) (s : App) :
  siren (set_renderedVolume v s) = siren s.
Proof. reflexivity. Qed.

Lemma siren_set_sirenVolume (v : float) (s : App) :
  siren (set_sirenVolume v s) = siren s.
Proof. reflexivity. Qed.

Lemma siren_handleSensorPermissionError (sensorName : string)
  (error : SensorError) (s : App) :
  siren (handleSensorPermissionError sensorName error s) = siren s.
Proof. reflexivity. Qed.

Lemma siren_appendErrorMessage (m : string) (s : App) :
  siren (appendErrorMessage m s) = siren s.
Proof. reflexivity. Qed.

Lemma siren_addSupportedSensor (name : string) (s : App) :
  siren (addSupportedSensor name s) = siren s.
Proof.
  unfold addSupportedSensor. destruct (existsb _ _); reflexivity.
Qed.

Lemma siren_addLogEntry (m : string) (c : option Coordinates) (s : App) :
  siren (addLogEntry m c s) = siren s.
Proof. reflexivity. Qed.

Lemma siren_clearLogs (s : App) : siren (clearLogs s) = siren s.
Proof. reflexivity. Qed.

Create HintDb siren_db discriminated.

#[local] Hint Resolve siren_setIsServiceActive siren_setIsArming
  siren_setLogs siren_setErrorMessage siren_setSupportedSensors
  siren_set_lastAccelRef siren_set_armingTimeoutRef siren_set_audioContextRef
  siren_set_oscillatorRef siren_set_gainNodeRef siren_set_alarmIntervalRef
  siren_set_lastIlluminanceRef siren_set_lastMagnetometerReadingRef
  siren_set_lastPressureRef siren_set_isAlarmPlayingRef
  siren_set_isServiceActiveRef siren_set_isArmingRef
  siren_set_supportedSensorsRef siren_set_prevIsArmingRef
  siren_set_hasLoggedActivationRef siren_set_activationLogCleanup
  siren_set_listeners siren_set_clock siren_set_nextHandle
  siren_set_burstsPlayed siren_set_geolocationPending siren_setAlarmVolume
  siren_set_renderedVolume siren_set_sirenVolume
  siren_handleSensorPermissionError siren_appendErrorMessage
  siren_addSupportedSensor siren_addLogEntry siren_clearLogs : siren_db.

Lemma hushed_siren (s t : App) : siren t = siren s -> hushed s -> hushed t.
Proof.
  unfold siren, hushed, silent, intervals. intros H.
  injection H as Hf Hp Ht. rewrite Hf, Hp, Ht. auto.
Qed.

Lemma hushed_flag (s : App) : isAlarmPlaying s = true -> hushed s.
Proof. intros H Hoff. rewrite H in Hoff. discriminate Hoff. Qed.

Lemma hushed_silent (s : App) : silent s -> hushed s.
Proof. intros H _. exact H. Qed.

Lemma hushed_clearTimer (h : positive) (s : App) :
  hushed s -> hushed (clearTimer h s).
Proof.
  intros H Hoff. destruct (H Hoff) as [Hp Hi]. split; [exact Hp|].
  unfold intervals, clearTimer in *. cbn [timers set_timers].
  rewrite filter_filter_comm, Hi. reflexivity.
Qed.

Lemma hushed_clearTimerRef (r : option positive) (s : App) :
  hushed s -> hushed (clearTimerRef r s).
Proof. intros H. destruct r; [apply hushed_clearTimer|]; exact H. Qed.

Lemma hushed_queue (h : positive) (t : Timer) (s : App) :
  t <> AlarmInterval -> hushed s ->
  hushed (set_timers (timers s ++ [(h, t)]) s).
Proof.
  intros Hneq H Hoff. destruct (H Hoff) as [Hp Hi]. split; [exact Hp|].
  unfold intervals in *. cbn [timers set_timers].
  rewrite filter_app, Hi. cbn [filter isAlarmInterval snd].
  destruct t; try contradiction; reflexivity.
Qed.

Lemma hushed_oscillatorEnded (o : positive) (s : App) :
  hushed s -> hushed (oscillatorEnded o s).
Proof.
  intros H Hoff.
  assert (Hflag : isAlarmPlaying (oscillatorEnded o s) = isAlarmPlaying s).
  { unfold oscillatorEnded. cbv zeta.
    destruct (oscillatorRef (stopOscillator o s)) as [o'|]; [|reflexivity].
    destruct (Pos.eqb o' o); reflexivity. }
  rewrite Hflag in Hoff. destruct (H Hoff) as [Hp Hi].
  unfold silent, intervals, oscillatorEnded in *. cbv zeta.
  destruct (oscillatorRef (stopOscillator o s)) as [o'|];
    [destruct (Pos.eqb o' o)|];
    cbn [playing timers set_gainNodeRef set_oscillatorRef stopOscillator
         set_playing];
    rewrite Hp; split; try reflexivity; exact Hi.
Qed.

Lemma hushed_getAudioContext (s : App) :
  siren (snd (getAudioContext s)) = siren s.
Proof.
  unfold getAudioContext.
  destruct (audioContextRef s); [reflexivity|].
  destruct (audioContextCtor _); reflexivity.
Qed.

Lemma hushed_triggerAlarm (src : string) (s : App) :
  hushed s -> hushed (triggerAlarm src s).
Proof.
  intros H. destruct (isAlarmPlayingRef s) eqn:Href.
  - rewrite (triggerAlarm_while_ref_set src s Href). exact H.
  - apply hushed_flag, triggerAlarm_isAlarmPlaying, Href.
Qed.

Lemma hushed_stopAlarm (s : App) : sound s -> hushed (stopAlarm s).
Proof. intros Hs. apply hushed_silent, silent_stopAlarm, Hs. Qed.

Lemma lookupTimer_interval (h : positive) (ts : list (positive * Timer)) :
  lookupTimer h ts = Some AlarmInterval -> filter isAlarmInterval ts <> [].
Proof.
  induction ts as [|[h' t] ts IH]; [discriminate|]. cbn [lookupTimer filter].
  destruct (Pos.eqb h' h).
  - intros H. injection H as ->. cbn. discriminate.
  - intros H. unfold isAlarmInterval at 1. cbn [snd].
    destruct t; try discriminate; exact (IH H).
Qed.

(** Applies the lemma of the operation at the head of a goal
    [hushed (...)]. *)
Ltac hushed_leaf :=
  match goal with
  | |- hushed (clearTimerRef _ _) => apply hushed_clearTimerRef
  | |- hushed (clearTimer _ _) => apply hushed_clearTimer
  | |- hushed (set_timers (timers _ ++ [(_, _)]) _) =>
      apply hushed_queue; [discriminate|]
  | |- hushed (oscillatorEnded _ _) => apply hushed_oscillatorEnded
  | |- hushed (triggerAlarm _ _) => apply hushed_triggerAlarm
  | |- hushed (stopAlarm _) => apply hushed_stopAlarm; solve [sound_peel]
  end.

Ltac hushed_composite := fail.

Ltac hushed_peel :=
  cbv zeta;
  repeat match goal with
         | |- hushed ?t => is_var t; assumption
         | |- hushed (match ?x with _ => _ end) => destruct x
         | |- hushed _ => hushed_leaf
         | |- hushed _ => hushed_composite
         | |- hushed (?f ?t) =>
             apply (hushed_siren t); [solve [auto 1 with siren_db nocore]|]
         | |- hushed (?f _ ?t) =>
             apply (hushed_siren t); [solve [auto 1 with siren_db nocore]|]
         | |- hushed (?f _ _ ?t) =>
             apply (hushed_siren t); [solve [auto 1 with siren_db nocore]|]
         end.

Lemma hushed_geolocationSuccess (i : nat) (c : Coordinates) (s : App) :
  hushed s -> hushed (geolocationSuccess i c s).
Proof. intros Hh. unfold geolocationSuccess. hushed_peel. Qed.

Lemma hushed_geolocationError (i : nat) (e : string) (s : App) :
  hushed s -> hushed (geolocationError i e s).
Proof. intros Hh. unfold geolocationError. hushed_peel. Qed.

Lemma hushed_toggleService (s : App) :
  sound s -> hushed s -> hushed (toggleService s).
Proof.
  intros Hs Hh. unfold toggleService.
  assert (Hs0 : sound (setSupportedSensors [] (setErrorMessage None s)))
    by sound_peel.
  assert (Hh0 : hushed (setSupportedSensors [] (setErrorMessage None s)))
    by hushed_peel.
  pose proof (sound_kept _ _ (getAudioContext_kept _) Hs0) as Hs'.
  pose proof (hushed_siren _ _ (hushed_getAudioContext _) Hh0) as Hh'.
  destruct (getAudioContext _) as [ctx s']. cbn [snd] in Hs', Hh'.
  destruct (isServiceActiveRef s' || isArmingRef s')%bool.
  - hushed_peel.
  - unfold setTimer. cbv beta iota zeta. hushed_peel.
Qed.

Lemma hushed_armingTimeoutCallback (s : App) :
  hushed s -> hushed (armingTimeoutCallback s).
Proof. intros Hh. unfold armingTimeoutCallback. hushed_peel. Qed.

Lemma hushed_activationLogCallback (s : App) :
  hushed s -> hushed (activationLogCallback s).
Proof. intros Hh. unfold activationLogCallback. hushed_peel. Qed.

Lemma hushed_handlers (s : App) :
  hushed s ->
  (forall acc, hushed (motionHandlerInternal acc s))
  /\ (forall r, hushed (gyroscopeOnReading r s))
  /\ (forall near, hushed (proximityOnReading near s))
  /\ (forall value max, hushed (proximityEventHandler value max s))
  /\ (forall v, hushed (lightOnActivate v s))
  /\ (forall v, hushed (lightOnReading v s))
  /\ (forall r, hushed (magnetometerOnReading r s))
  /\ (forall v, hushed (barometerOnActivate v s))
  /\ (forall v, hushed (barometerOnReading v s)).
Proof.
  intros Hh.
  repeat match goal with |- _ /\ _ => split end; intros;
    unfold motionHandlerInternal, gyroscopeOnReading, proximityOnReading,
      proximityEventHandler, lightOnActivate, lightOnReading,
      magnetometerOnReading, barometerOnActivate, barometerOnReading;
    hushed_peel.
Qed.

Lemma hushed_activationEffect (s : App) :
  hushed s -> hushed (activationEffect s).
Proof.
  intros Hh. unfold activationEffect, setTimer. cbv beta iota zeta.
  hushed_peel.
Qed.

Lemma hushed_startSensor (kind : SensorKind) (logText name : string)
  (s : App) :
  hushed s -> hushed (startSensor kind logText name s).
Proof. intros Hh. unfold startSensor. hushed_peel. Qed.

Ltac hushed_composite ::=
  match goal with
  | |- hushed (geolocationSuccess _ _ _) => apply hushed_geolocationSuccess
  | |- hushed (geolocationError _ _ _) => apply hushed_geolocationError
  | |- hushed (armingTimeoutCallback _) => apply hushed_armingTimeoutCallback
  | |- hushed (activationLogCallback _) => apply hushed_activationLogCallback
  | |- hushed (activationEffect _) => apply hushed_activationEffect
  | |- hushed (startSensor _ _ _ _) => apply hushed_startSensor
  end.

Lemma hushed_sensorEffects (s : App) : hushed s -> hushed (sensorEffects s).
Proof. intros Hh. unfold sensorEffects, tryStartSensor. hushed_peel. Qed.

Lemma hushed_commit (s : App) : hushed s -> hushed (commit s).
Proof.
  intros Hh. rewrite commit_cases.
  destruct (flagsChanged s); [|destruct (volumeChanged s)].
  - apply hushed_sensorEffects, hushed_activationEffect.
    unfold mirrorEffects, sensorCleanups. hushed_peel.
  - apply hushed_sensorEffects.
    unfold mirrorEffects, sensorCleanups. hushed_peel.
  - unfold mirrorEffects. hushed_peel.
Qed.

Lemma hushed_clickOn (disabled : bool) (handler : App -> App) (s : App) :
  hushed s -> hushed (handler s) -> hushed (clickOn disabled handler s).
Proof.
  intros Hh Hf. unfold clickOn. destruct disabled; [exact Hh|].
  apply (hushed_siren (handler s)); [apply hushed_getAudioContext | exact Hf].
Qed.

Lemma hushed_setGain (gainNode : positive) (v : float) (s : App) :
  hushed s -> hushed (setGain gainNode v s).
Proof.
  unfold hushed, silent, setGain.
  cbn [isAlarmPlaying playing set_playing]. intros Hh Hflag.
  destruct (Hh Hflag) as [Hp Hi]. rewrite Hp. split; [reflexivity | exact Hi].
Qed.

Lemma hushed_adjustVolume (delta : float) (s : App) :
  hushed s -> hushed (adjustVolume delta s).
Proof.
  intros Hh. unfold adjustVolume. cbv zeta.
  apply (hushed_siren
           (match gainNodeRef s, audioContextRef s with
            | Some gainNode, Some running =>
                setGain gainNode
                  (mathMax 0 (mathMin 1 (alarmVolume s + delta))) s
            | _, _ => s
            end)); [reflexivity|].
  destruct (gainNodeRef s); [|exact Hh].
  destruct (audioContextRef s) as [[]|]; try exact Hh.
  apply hushed_setGain, Hh.
Qed.

Lemma hushed_sensorOnError (kind : SensorKind) (error : SensorError)
  (s : App) :
  hushed s -> hushed (sensorOnError kind error s).
Proof.
  intros Hh. unfold sensorOnError, gyroscopeOnError, proximityOnError,
    lightOnError, magnetometerOnError, barometerOnError.
  hushed_peel.
Qed.

Lemma hushed_fireTimer (h : positive) (s : App) :
  hushed s -> hushed (fireTimer h s).
Proof.
  intros Hh. unfold fireTimer.
  destruct (lookupTimer h (timers s)) as [[]|] eqn:Hlook; try hushed_peel.
  apply hushed_flag.
  rewrite (control_isAlarmPlaying _ _ (playSirenBurst_control s)).
  destruct (isAlarmPlaying s) eqn:Hflag; [reflexivity|].
  destruct (Hh Hflag) as [_ Hi].
  contradiction (lookupTimer_interval h _ Hlook Hi).
Qed.

Lemma hushed_step (e : Event) (s : App) :
  sound s -> hushed s -> hushed (step e s).
Proof.
  intros Hs Hh. destruct (hushed_handlers s Hh)
    as (H1 & H2 & H3 & H4 & H5 & H6 & H7 & H8 & H9).
  destruct e; cbn [step]; unfold deliver;
    try (destruct (attached _ s); [auto | exact Hh]).
  - hushed_peel.
  - apply hushed_commit, Hh.
  - apply hushed_clickOn; [exact Hh|]. unfold mainButtonClick.
    destruct (isAlarmPlayingRef s); [apply hushed_stopAlarm, Hs|].
    destruct (isArmingRef s); [exact Hh|].
    apply hushed_toggleService; assumption.
  - apply hushed_clickOn; [exact Hh|]. hushed_peel.
  - apply hushed_fireTimer, Hh.
  - apply hushed_oscillatorEnded, Hh.
  - hushed_peel.
  - apply hushed_geolocationSuccess, Hh.
  - apply hushed_geolocationError, Hh.
  - apply hushed_clickOn; [exact Hh|]. apply hushed_adjustVolume, Hh.
  - apply hushed_clickOn; [exact Hh|]. apply hushed_adjustVolume, Hh.
  - apply hushed_clickOn; exact Hh.
  - apply hushed_sensorOnError, Hh.
Qed.

Lemma hushed_run (events : list Event) (s : App) :
  sound s -> hushed s -> hushed (run events s).
Proof.
  revert s. induction events as [|e events IH]; intros s Hs Hh; [exact Hh|].
  cbn [run fold_left].
  apply IH; [apply sound_step, Hs | apply hushed_step; assumption].
Qed.

(** X15: the siren sounds only while the alarm shows.  On a device whose
    browser does not ask for the motion permission, in every state the
    mounted component can reach (by clicks on the main, clear and volume
    buttons and elsewhere on the page, commits, timers, ends of bursts, the
    audio context resuming, position answers, readings and errors of the
    sensors, in any order) in which the alarm flag is off, no oscillator
    sounds and no repeat timer of the siren is pending. *)
Theorem siren_only_while_alarm_shows
  (p : Platform) (now : N) (events : list Event)
  (Hprompt : motionNeedsPermission p = false) :
  let s := run events (initialApp p now) in
  isAlarmPlaying s = false -> playing s = [] /\ intervals s = [].
Proof.
  cbv zeta.
  apply (hushed_run events (initialApp p now) (sound_initialApp p now)).
  intros _. split; reflexivity.
Qed.

(** The evening of the examples ends with the alarm stopped; before the
    stop, in [exampleLifted], the siren sounds. *)
Lemma siren_only_while_alarm_shows_witness :
  motionNeedsPermission examplePhone = false
  /\ isAlarmPlaying (run exampleEvening (initialApp examplePhone 1000))
     = false
  /\ (playing (run exampleEvening (initialApp examplePhone 1000)) = []
      /\ intervals (run exampleEvening (initialApp examplePhone 1000)) = [])
  /\ playing (run exampleLifted (initialApp examplePhone 1000)) <> [].
Proof.
  assert (Hoff : isAlarmPlaying
                   (run exampleEvening (initialApp examplePhone 1000))
                 = false)
    by (vm_compute; reflexivity).
  split; [reflexivity|]. split; [exact Hoff|].
  split; [|vm_compute; discriminate].
  exact (siren_only_while_alarm_shows examplePhone 1000 exampleEvening
           eq_refl Hoff).
Defined.

(** ** Entering Active attaches the sensors of the device *)

Lemma startSensor_listeners (kind : SensorKind) (logText name : string)
  (s : App) :
  listeners (startSensor kind logText name s) = (listeners s ++ [kind])%list.
Proof.
  unfold startSensor, addSupportedSensor, addLogEntry.
  cbn [supportedSensors setLogs set_listeners].
  destruct (existsb _ _); reflexivity.
Qed.

Lemma tryStartSensor_listeners (fails : option SensorError)
  (kind : SensorKind) (errorLabel logText name : string) (s : App) :
  listeners (tryStartSensor fails kind errorLabel logText name s)
  = (listeners s ++ match fails with None => [kind] | Some _ => [] end)%list.
Proof.
  destruct fails; cbn [tryStartSensor].
  - rewrite app_nil_r. reflexivity.
  - apply startSensor_listeners.
Qed.

(** One sensor of the Generic Sensor API: the effect tests for the
    constructor and tries to start the sensor. *)
Lemma generic_stage_listeners (has : bool) (fails : option SensorError)
  (kind : SensorKind) (errorLabel logText name : string) (s : App) :
  listeners (if has
             then tryStartSensor fails kind errorLabel logText name s
             else s)
  = (listeners s
     ++ (if match fails with None => has | Some _ => false end
         then [kind] else []))%list.
Proof.
  destruct has; [rewrite tryStartSensor_listeners|];
    destruct fails; rewrite ?app_nil_r; reflexivity.
Qed.

(** The accelerometer: where the permission has to be asked for, the effect
    attaches nothing itself. *)
Lemma motion_stage_listeners (has prompt : bool) (logText name : string)
  (s : App) :
  listeners (if has
             then if prompt then s
                  else startSensor Accelerometer logText name s
             else s)
  = (listeners s
     ++ (if (has && negb prompt)%bool then [Accelerometer] else []))%list.
Proof.
  destruct has, prompt; cbn [andb negb];
    rewrite ?startSensor_listeners, ?app_nil_r; reflexivity.
Qed.

(** Proximity: the sensor where the browser has it, the legacy event
    otherwise. *)
Lemma proximity_stage_listeners (has legacy : bool)
  (fails : option SensorError) (errorLabel logText name logText' name' : string)
  (s : App) :
  listeners (if has
             then tryStartSensor fails Proximity errorLabel logText name s
             else if legacy
                  then startSensor ProximityLegacy logText' name' s
                  else s)
  = (listeners s
     ++ (if match fails with None => has | Some _ => false end
         then [Proximity] else [])
     ++ (if (negb has && legacy)%bool then [ProximityLegacy] else []))%list.
Proof.
  destruct has, legacy, fails; cbn [andb negb tryStartSensor];
    rewrite ?startSensor_listeners, ?app_nil_r; reflexivity.
Qed.

Lemma filter_cons_app {A : Type} (f : A -> bool) (x : A) (l : list A) :
  filter f (x :: l) = ((if f x then [x] else []) ++ filter f l)%list.
Proof. cbn [filter]. destruct (f x); reflexivity. Qed.

Lemma sensorEffects_listeners (s : App) :
  isServiceActive s = true -> isArming s = false ->
  listeners (sensorEffects s)
  = (listeners s ++ availableSensors (platform s))%list.
Proof.
  intros Hsvc Harm. unfold sensorEffects, availableSensors.
  rewrite Hsvc, Harm. cbn [negb andb]. cbv zeta.
  generalize (platform s); intros p.
  rewrite !filter_cons_app. cbn [filter available].
  rewrite !generic_stage_listeners, proximity_stage_listeners,
    generic_stage_listeners, motion_stage_listeners.
  rewrite <- !app_assoc, ?app_nil_r. reflexivity.
Qed.

Lemma activationEffect_platform (s : App) :
  platform (activationEffect s) = platform s.
Proof.
  unfold activationEffect, setTimer. cbv zeta.
  cbn [isServiceActive isArming hasLoggedActivationRef set_prevIsArmingRef
       set_activationLogCleanup].
  destruct (isServiceActive s); [|reflexivity].
  destruct (prevIsArmingRef s) as [[|]|]; try reflexivity.
  destruct (negb (isArming s) && negb (hasLoggedActivationRef s))%bool;
    reflexivity.
Qed.

Lemma SensorKind_eqb_eq (a b : SensorKind) :
  SensorKind_eqb a b = true -> a = b.
Proof. destruct a, b; intros H; try discriminate H; reflexivity. Qed.

Lemma existsb_filter (f : SensorKind -> bool) (kind : SensorKind)
  (l : list SensorKind) :
  existsb (SensorKind_eqb kind) (filter f l)
  = (f kind && existsb (SensorKind_eqb kind) l)%bool.
Proof.
  induction l as [|x l IH]; cbn [filter existsb].
  - rewrite andb_false_r. reflexivity.
  - destruct (SensorKind_eqb kind x) eqn:Hx.
    + apply SensorKind_eqb_eq in Hx. subst x.
      destruct (f kind) eqn:Hf; cbn [existsb orb andb].
      * destruct kind; reflexivity.
      * exact IH.
    + cbn [orb]. destruct (f x); cbn [existsb]; rewrite ?Hx; exact IH.
Qed.

Lemma attached_availableSensors (p : Platform) (kind : SensorKind) :
  existsb (SensorKind_eqb kind) (availableSensors p) = available p kind.
Proof.
  unfold availableSensors. rewrite existsb_filter.
  destruct kind; cbn [existsb SensorKind_eqb orb]; apply andb_true_r.
Qed.

(** The commit in which the service becomes active. *)
Lemma commit_enters_active (s : App) :
  isServiceActive s = true -> isArming s = false -> isArmingRef s = true ->
  listeners (commit s) = availableSensors (platform s)
  /\ control (commit s)
     = ((lastAccelRef s, None, None, None),
        (true, false, isAlarmPlaying s), (true, false, isAlarmPlaying s)).
Proof.
  intros Hsvc Harm Href. rewrite commit_cases. unfold flagsChanged.
  rewrite Harm, Href. cbn [Bool.eqb negb]. rewrite orb_true_r.
  destruct (commit_cleaned (activationLogCleanup s)
              (set_renderedVolume (alarmVolume s) s)) as [Hy Hly].
  assert (Hpy : platform (mirrorEffects
                            (sensorCleanups
                               (clearTimerRef (activationLogCleanup s)
                                  (set_renderedVolume (alarmVolume s) s))))
                = platform s)
    by (destruct (activationLogCleanup s); reflexivity).
  set (y := mirrorEffects _) in *. clearbody y.
  cbn [lastAccelRef isServiceActive isArming isAlarmPlaying
       set_renderedVolume] in Hy.
  rewrite Hsvc, Harm in Hy.
  pose proof (activationEffect_control y) as Hx. rewrite Hy in Hx.
  pose proof (shell_activationEffect y) as Hlx.
  unfold shell in Hlx. injection Hlx as Hlx _ _. rewrite ?Hly in Hlx.
  pose proof (activationEffect_platform y) as Hpx. rewrite Hpy in Hpx.
  set (x := activationEffect y) in *. clearbody x.
  split.
  - unfold control in Hx. injection Hx as _ _ _ _ Hx1 Hx2 _ _ _ _.
    rewrite (sensorEffects_listeners x Hx1 Hx2), Hlx, Hpx. reflexivity.
  - rewrite sensorEffects_control. exact Hx.
Qed.

(** The arming timer and the commit that follows it. *)
Lemma activation_after_arming (s : App)
  (Hcommitted : committed s) (Harming : serviceState s = Arming)
  (Hwanted : isServiceActive s = true) :
  let s' := commit (armingTimeoutCallback s) in
  serviceState s' = Active
  /\ committed s'
  /\ listeners s' = availableSensors (platform s)
  /\ (forall kind, attached kind s' = available (platform s) kind).
Proof.
  cbv zeta. destruct Hcommitted as (Hplay & Hsvc & Harm).
  assert (Hflags : isAlarmPlaying s = false /\ isArming s = true).
  { unfold serviceState in Harming.
    destruct (isAlarmPlaying s), (isArming s), (isServiceActive s);
      try discriminate Harming; auto. }
  destruct Hflags as [Hquiet Hisarming].
  rewrite Hwanted in Hsvc. rewrite Hisarming in Harm.
  unfold armingTimeoutCallback. rewrite Hsvc, Harm. cbn [negb orb].
  cbv zeta.
  set (u := setErrorMessage _ _).
  assert (Hu : isServiceActive u = true /\ isArming u = false
               /\ isArmingRef u = true /\ isAlarmPlaying u = false
               /\ platform u = platform s).
  { unfold u. cbn. auto. }
  destruct Hu as (Hu1 & Hu2 & Hu3 & Hu4 & Hu5). clearbody u.
  destruct (commit_enters_active u Hu1 Hu2 Hu3) as [Hl Hctl].
  rewrite Hu4 in Hctl. rewrite Hu5 in Hl.
  unfold control in Hctl.
  injection Hctl as _ _ _ _ Hc1 Hc2 Hc3 Hc4 Hc5 Hc6.
  split; [unfold serviceState; rewrite Hc1, Hc2, Hc3; reflexivity|].
  split; [unfold committed; rewrite Hc1, Hc2, Hc3, Hc4, Hc5, Hc6; auto|].
  split; [exact Hl|].
  intros kind. unfold attached. rewrite Hl.
  apply attached_availableSensors.
Qed.

(** X16: when the arming delay elapses in the Arming state, the callback of
    the arming timer and the commit that follows make the service Active
    and attach a reading handler for exactly the sensors of the device that
    start, in the order of the effects: a sensor of the Generic Sensor API
    whose constructor is present and whose start throws nothing (one that
    throws gets no handler), the legacy proximity event only where the
    proximity sensor is missing, and the accelerometer only where the
    browser does not ask for the motion permission (where it does, the
    effect attaches no handler itself). *)
Theorem activation_attaches_available_sensors (s : App)
  (Hcommitted : committed s) (Harming : serviceState s = Arming)
  (Hwanted : isServiceActive s = true) :
  let s' := commit (armingTimeoutCallback s) in
  serviceState s' = Active
  /\ committed s'
  /\ listeners s' = availableSensors (platform s)
  /\ (forall kind, attached kind s' = available (platform s) kind).
Proof.
  exact (activation_after_arming s Hcommitted Harming Hwanted).
Qed.

Lemma activation_attaches_available_sensors_witness :
  committed exampleArming
  /\ serviceState exampleArming = Arming
  /\ isServiceActive exampleArming = true
  /\ listeners (commit (armingTimeoutCallback exampleArming))
     = availableSensors (platform exampleArming)
  /\ availableSensors (platform exampleArming)
     = [Accelerometer; GyroscopeSensor; Proximity; AmbientLight;
        MagnetometerSensor; BarometerSensor]
  /\ listeners (commit (armingTimeoutCallback exampleGuardedArming))
     = availableSensors (platform exampleGuardedArming)
  /\ availableSensors (platform exampleGuardedArming)
     = [ProximityLegacy; AmbientLight].
Proof.
  assert (Hc : committed exampleArming) by (vm_compute; auto).
  assert (Ha : serviceState exampleArming = Arming)
    by (vm_compute; reflexivity).
  assert (Hw : isServiceActive exampleArming = true)
    by (vm_compute; reflexivity).
  assert (Hc' : committed exampleGuardedArming) by (vm_compute; auto).
  assert (Ha' : serviceState exampleGuardedArming = Arming)
    by (vm_compute; reflexivity).
  assert (Hw' : isServiceActive exampleGuardedArming = true)
    by (vm_compute; reflexivity).
  split; [exact Hc|]. split; [exact Ha|]. split; [exact Hw|].
  split; [exact (proj1 (proj2 (proj2 (activation_attaches_available_sensors
                                        exampleArming Hc Ha Hw))))|].
  split; [vm_compute; reflexivity|].
  split; [|vm_compute; reflexivity].
  exact (proj1 (proj2 (proj2 (activation_attaches_available_sensors
                                exampleGuardedArming Hc' Ha' Hw')))).
Defined.

(** ** Switching the service off *)

Lemma stopAlarm_control (s : App) :
  control (stopAlarm s)
  = ((None, None, None, None), (false, false, false),
     (isServiceActiveRef s, isArmingRef s, isAlarmPlayingRef s)).
Proof.
  unfold stopAlarm. cbv zeta.
  destruct (stopAlarmSound_spec (setIsAlarmPlaying false s))
    as (_ & _ & _ & _ & Hctl & _).
  cbv zeta in Hctl.
  set (s1 := stopAlarmSound (setIsAlarmPlaying false s)) in *. clearbody s1.
  unfold control in Hctl.
  injection Hctl as _ _ _ _ _ _ H3 H4 H5 H6.
  cbn [isAlarmPlaying isServiceActiveRef isArmingRef isAlarmPlayingRef
       setIsAlarmPlaying] in H3, H4, H5, H6.
  rewrite <- H4, <- H5, <- H6.
  unfold clearTimerRef.
  destruct (armingTimeoutRef _); unfold control, clearTimer;
    cbn [setErrorMessage setIsServiceActive setIsArming set_lastAccelRef
         set_lastIlluminanceRef set_lastMagnetometerReadingRef
         set_lastPressureRef set_timers lastAccelRef lastIlluminanceRef
         lastMagnetometerReadingRef lastPressureRef isServiceActive isArming
         isAlarmPlaying isServiceActiveRef isArmingRef isAlarmPlayingRef];
    rewrite H3; reflexivity.
Qed.

Lemma control_addLogEntry (m : string) (c : option Coordinates) (s : App) :
  control (addLogEntry m c s) = control s.
Proof. reflexivity. Qed.

Lemma control_setErrorMessage (v : option string) (s : App) :
  control (setErrorMessage v s) = control s.
Proof. reflexivity. Qed.

Lemma errorMessage_addLogEntry (m : string) (c : option Coordinates)
  (s : App) :
  errorMessage (addLogEntry m c s) = errorMessage s.
Proof. reflexivity. Qed.

(** The branch of [toggleService] that switches the service off. *)
Lemma toggleService_off (s : App) :
  (isServiceActiveRef s || isArmingRef s)%bool = true ->
  control (toggleService s)
  = ((None, None, None, None),
     (false, false, if isAlarmPlayingRef s then false else isAlarmPlaying s),
     (isServiceActiveRef s, isArmingRef s, isAlarmPlayingRef s))
  /\ errorMessage (toggleService s)
     = Some (if isAlarmPlayingRef s
             then "Alarme parado. Servico DESATIVADO."
             else "Servico DESATIVADO.").
Proof.
  intros Hon. unfold toggleService.
  pose proof (getAudioContext_control
                (setSupportedSensors [] (setErrorMessage None s))) as H.
  destruct (getAudioContext _) as [ctx s']. cbn [snd] in H.
  change (control (setSupportedSensors [] (setErrorMessage None s)))
    with (control s) in H.
  unfold control in H. injection H as _ _ _ _ _ _ Hal Hs Ha Hr.
  rewrite Hs, Ha, Hon. cbv zeta.
  set (s1 := set_lastPressureRef None _).
  assert (H1 : isAlarmPlayingRef s1 = isAlarmPlayingRef s
               /\ isServiceActiveRef s1 = isServiceActiveRef s
               /\ isArmingRef s1 = isArmingRef s
               /\ isAlarmPlaying s1 = isAlarmPlaying s).
  { rewrite <- Hr, <- Hs, <- Ha, <- Hal. unfold s1, clearTimerRef.
    destruct (armingTimeoutRef s'); repeat split. }
  destruct H1 as (H1 & H2 & H3 & H4).
  assert (Hbase : lastAccelRef s1 = None /\ lastIlluminanceRef s1 = None
                  /\ lastMagnetometerReadingRef s1 = None
                  /\ lastPressureRef s1 = None
                  /\ isServiceActive s1 = false /\ isArming s1 = false)
    by (repeat split).
  destruct Hbase as (B1 & B2 & B3 & B4 & B5 & B6).
  clearbody s1. rewrite H1.
  destruct (isAlarmPlayingRef s).
  - split.
    + rewrite control_addLogEntry, stopAlarm_control, H1, H2, H3.
      reflexivity.
    + rewrite errorMessage_addLogEntry.
      destruct (stopAlarm_spec s1) as (_ & _ & _ & _ & _ & _ & He & _).
      exact He.
  - split; [|reflexivity].
    rewrite control_addLogEntry, control_setErrorMessage.
    unfold control.
    rewrite B1, B2, B3, B4, B5, B6, H1, H2, H3, H4. reflexivity.
Qed.

(** A commit leaves the three state flags as they are. *)
Lemma commit_flags (s : App) :
  isServiceActive (commit s) = isServiceActive s
  /\ isArming (commit s) = isArming s
  /\ isAlarmPlaying (commit s) = isAlarmPlaying s.
Proof.
  rewrite commit_cases.
  destruct (flagsChanged s); [|destruct (volumeChanged s)].
  - set (t := mirrorEffects _).
    pose proof (sensorEffects_control (activationEffect t)) as H.
    rewrite activationEffect_control in H.
    apply control_flags in H as (H1 & H2 & H3).
    rewrite H1, H2, H3. unfold t, clearTimerRef.
    destruct (activationLogCleanup s); repeat split.
  - set (t := mirrorEffects _).
    pose proof (sensorEffects_control t) as H.
    apply control_flags in H as (H1 & H2 & H3).
    rewrite H1, H2, H3. repeat split.
  - repeat split.
Qed.

(** X17: [toggleService] while the service is wanted (Active, Arming, or
    Alarming with the service on) switches it off: the state is Inactive,
    the four baselines are empty, the advisory text says so and the
    deactivation entry is on top of the log.  The commit that follows
    detaches every reading handler, after which no reading reaches a
    handler. *)
Theorem toggleService_switches_off (s : App)
  (Hcommitted : committed s)
  (Hwanted : (isServiceActive s || isArming s)%bool = true) :
  let s1 := toggleService s in
  let s' := commit s1 in
  serviceState s1 = Inactive
  /\ noBaselines s1
  /\ option_map message (hd_error (logs s1))
     = Some "Servico DESATIVADO pelo usuario."
  /\ errorMessage s1
     = Some (if isAlarmPlaying s
             then "Alarme parado. Servico DESATIVADO."
             else "Servico DESATIVADO.")
  /\ serviceState s' = Inactive
  /\ committed s'
  /\ listeners s' = []
  /\ (forall kind handler, deliver kind handler s' = s').
Proof.
  cbv zeta. destruct Hcommitted as (Hplay & Hsvc & Harm).
  assert (Hon : (isServiceActiveRef s || isArmingRef s)%bool = true)
    by (rewrite Hsvc, Harm; exact Hwanted).
  destruct (toggleService_off s Hon) as [Hctl Herr].
  pose proof (toggleService_logs_deactivation s Hon) as Hlog.
  rewrite Hplay in Hctl, Herr.
  assert (Hflag : (if isAlarmPlaying s then false else isAlarmPlaying s)
                  = false) by (destruct (isAlarmPlaying s); reflexivity).
  rewrite Hflag in Hctl.
  set (s1 := toggleService s) in *. clearbody s1.
  unfold control in Hctl.
  injection Hctl as B1 B2 B3 B4 F1 F2 F3 M1 M2 M3.
  assert (Hlisteners : listeners (commit s1) = []).
  { rewrite commit_cases. destruct (flagsChanged s1) eqn:Hchanged.
    - destruct (commit_cleaned (activationLogCleanup s1)
                  (set_renderedVolume (alarmVolume s1) s1)) as [Hy Hly].
      set (y := mirrorEffects _) in *. clearbody y.
      pose proof (control_flags _ _ (activationEffect_control y))
        as (Hx & _).
      pose proof (shell_activationEffect y) as Hlx.
      unfold shell in Hlx. injection Hlx as Hlx _ _.
      unfold control in Hy. injection Hy as _ _ _ _ Hy1 _ _ _ _ _.
      cbn [isServiceActive set_renderedVolume] in Hy1.
      rewrite Hy1, F1 in Hx.
      rewrite (sensorEffects_unwanted _ Hx), Hlx. exact Hly.
    - unfold flagsChanged in Hchanged.
      rewrite F1, F2, M1, M2, Hsvc, Harm in Hchanged.
      destruct (isServiceActive s), (isArming s);
        discriminate Hchanged || discriminate Hwanted. }
  destruct (commit_mirrors s1) as (C1 & C2 & C3).
  assert (Hflags : isServiceActive (commit s1) = false
                   /\ isArming (commit s1) = false
                   /\ isAlarmPlaying (commit s1) = false).
  { destruct (commit_flags s1) as (G1 & G2 & G3).
    rewrite G1, G2, G3. auto. }
  destruct Hflags as (G1 & G2 & G3).
  split; [unfold serviceState; rewrite F1, F2, F3; reflexivity|].
  split; [repeat split; assumption|].
  split; [exact Hlog|]. split; [exact Herr|].
  split; [unfold serviceState; rewrite G1, G2, G3; reflexivity|].
  split; [unfold committed; rewrite C1, C2, C3, G1, G2, G3; auto|].
  split; [exact Hlisteners|].
  intros kind handler. unfold deliver, attached. rewrite Hlisteners.
  reflexivity.
Qed.

Lemma toggleService_switches_off_witness :
  committed exampleResting
  /\ (isServiceActive exampleResting || isArming exampleResting)%bool = true
  /\ serviceState (toggleService exampleResting) = Inactive
  /\ listeners (commit (toggleService exampleResting)) = [].
Proof.
  assert (Hc : committed exampleResting) by (vm_compute; auto).
  assert (Hw : (isServiceActive exampleResting
                || isArming exampleResting)%bool = true)
    by (vm_compute; reflexivity).
  pose proof (toggleService_switches_off exampleResting Hc Hw) as H.
  cbv zeta in H.
  split; [exact Hc|]. split; [exact Hw|].
  split; [exact (proj1 H)|].
  exact (proj1 (proj2 (proj2 (proj2 (proj2 (proj2 (proj2 H))))))).
Defined.

(** ** From a press of the button to Active *)

Lemma getAudioContext_bench (s : App) :
  bench (snd (getAudioContext s)) = bench s.
Proof.
  unfold getAudioContext.
  destruct (audioContextRef s); [reflexivity|].
  destruct (audioContextCtor _); reflexivity.
Qed.

(** The branch of [toggleService] that arms the service. *)
Lemma toggleService_arms (s : App) :
  (isServiceActiveRef s || isArmingRef s)%bool = false ->
  control (toggleService s)
  = ((lastAccelRef s, lastIlluminanceRef s, lastMagnetometerReadingRef s,
      lastPressureRef s),
     (true, true, isAlarmPlaying s),
     (isServiceActiveRef s, isArmingRef s, isAlarmPlayingRef s))
  /\ bench (toggleService s)
     = (listeners s, (timers s ++ [(nextHandle s, ArmingTimeout)])%list,
        Pos.succ (nextHandle s), platform s, activationLogCleanup s)
  /\ armingTimeoutRef (toggleService s) = Some (nextHandle s)
  /\ option_map message (hd_error (logs (toggleService s)))
     = Some ("Servico armando em " ++ armingDelaySeconds ++ " segundos...").
Proof.
  intros Hoff. unfold toggleService.
  pose proof (getAudioContext_control
                (setSupportedSensors [] (setErrorMessage None s))) as Hc.
  pose proof (getAudioContext_bench
                (setSupportedSensors [] (setErrorMessage None s))) as Hb.
  destruct (getAudioContext _) as [ctx s']. cbn [snd] in Hc, Hb.
  change (control (setSupportedSensors [] (setErrorMessage None s)))
    with (control s) in Hc.
  change (bench (setSupportedSensors [] (setErrorMessage None s)))
    with (bench s) in Hb.
  unfold control in Hc. injection Hc as A1 A2 A3 A4 A5 A6 A7 A8 A9 A10.
  unfold bench, wiring in Hb. injection Hb as W1 W2 W3 W4 W5.
  rewrite A8, A9, Hoff. unfold setTimer. cbv zeta.
  rewrite <- A1, <- A2, <- A3, <- A4, <- A7, <- A8, <- A9, <- A10,
    <- W1, <- W2, <- W3, <- W4, <- W5.
  clear. repeat split.
Qed.

Lemma activationEffect_arming (s : App) :
  isServiceActive s = true -> isArming s = true ->
  activationEffect s
  = set_activationLogCleanup None (set_prevIsArmingRef (Some true) s).
Proof.
  intros Hsvc Harm. unfold activationEffect. cbv zeta.
  cbn [isServiceActive isArming hasLoggedActivationRef set_prevIsArmingRef
       set_activationLogCleanup].
  rewrite Hsvc, Harm. cbn [negb andb].
  destruct (prevIsArmingRef s) as [[|]|]; reflexivity.
Qed.

Lemma sensorEffects_arming (s : App) :
  isArming s = true -> sensorEffects s = s.
Proof.
  intros Harm. unfold sensorEffects. rewrite Harm, andb_false_r.
  reflexivity.
Qed.

(** The commit that follows the press: no handler is attached while the
    service arms. *)
Lemma commit_while_arming (s : App) :
  isServiceActive s = true -> isArming s = true ->
  isServiceActiveRef s = false -> activationLogCleanup s = None ->
  commit s
  = set_activationLogCleanup None
      (set_prevIsArmingRef (Some true)
         (mirrorEffects
            (sensorCleanups (set_renderedVolume (alarmVolume s) s)))).
Proof.
  intros Hsvc Harm Href Hclean. rewrite commit_cases. unfold flagsChanged.
  rewrite Hsvc, Href, Hclean. cbn [Bool.eqb negb orb clearTimerRef].
  rewrite sensorEffects_arming.
  - apply activationEffect_arming; [exact Hsvc | exact Harm].
  - rewrite activationEffect_arming; [exact Harm | exact Hsvc | exact Harm].
Qed.

(** X18: from a committed Inactive state, a click on the main button (its
    handler, then the click handler of the page it bubbles to) arms the
    service: the state is Arming, the arming entry is logged, the arming
    timer is pending and no reading handler is attached.  When that timer
    fires, the commit that follows makes the service Active with a handler
    attached for exactly the sensors of the device that start: those whose
    constructor is present and whose start throws nothing, the legacy
    proximity event only where the proximity sensor is missing, and the
    accelerometer only where the browser does not ask for the motion
    permission. *)
Theorem arming_then_activation (s : App)
  (Hcommitted : committed s) (Hinactive : serviceState s = Inactive)
  (Hhandles : handlesBelowNext s = true)
  (Hclean : activationLogCleanup s = None) :
  let s1 := run [MainButtonClick; Commit] s in
  let s2 := run [TimerFires (nextHandle s); Commit] s1 in
  serviceState s1 = Arming
  /\ committed s1
  /\ listeners s1 = []
  /\ lookupTimer (nextHandle s) (timers s1) = Some ArmingTimeout
  /\ option_map message (hd_error (logs s1))
     = Some ("Servico armando em " ++ armingDelaySeconds ++ " segundos...")
  /\ serviceState s2 = Active
  /\ committed s2
  /\ listeners s2 = availableSensors (platform s)
  /\ (forall kind, attached kind s2 = available (platform s) kind).
Proof.
  destruct Hcommitted as (Hplay & Hsvc & Harm). cbv zeta.
  pose proof Hinactive as Hstate.
  assert (Hflags : isAlarmPlaying s = false /\ isArming s = false
                   /\ isServiceActive s = false).
  { unfold serviceState in Hstate.
    destruct (isAlarmPlaying s), (isArming s), (isServiceActive s);
      try discriminate Hstate; auto. }
  destruct Hflags as (F1 & F2 & F3).
  rewrite F1 in Hplay. rewrite F2 in Harm. rewrite F3 in Hsvc.
  cbn [run fold_left step]. unfold clickOn, mainButtonClick.
  rewrite Hplay, Harm. cbn [andb].
  assert (Hoff : (isServiceActiveRef s || isArmingRef s)%bool = false)
    by (rewrite Hsvc, Harm; reflexivity).
  destruct (toggleService_arms s Hoff) as (Hctl & Hbench & Href & Hlog).
  rewrite F1, Hsvc, Harm, Hplay in Hctl.
  rewrite <- (getAudioContext_control (toggleService s)) in Hctl.
  rewrite <- (getAudioContext_bench (toggleService s)) in Hbench.
  assert (Hjournal : logs (snd (getAudioContext (toggleService s)))
                     = logs (toggleService s)).
  { pose proof (getAudioContext_journal (toggleService s)) as Hj.
    unfold journal in Hj. injection Hj as Hj _ _ _. exact Hj. }
  rewrite <- Hjournal in Hlog.
  set (t := snd (getAudioContext (toggleService s))) in *. clearbody t.
  unfold control in Hctl. injection Hctl as _ _ _ _ T1 T2 T3 T4 T5 T6.
  unfold bench, wiring in Hbench. injection Hbench as _ B2 _ B4 B5.
  rewrite Hclean in B5.
  rewrite (commit_while_arming t T1 T2 T4 B5).
  set (s1 := set_activationLogCleanup None _).
  assert (Hs1 : isServiceActive s1 = true /\ isArming s1 = true
                /\ isAlarmPlaying s1 = false
                /\ isServiceActiveRef s1 = true /\ isArmingRef s1 = true
                /\ isAlarmPlayingRef s1 = false
                /\ listeners s1 = [] /\ timers s1 = timers t
                /\ platform s1 = platform t /\ logs s1 = logs t).
  { unfold s1.
    repeat match goal with |- _ /\ _ => split end;
      first [exact T1 | exact T2 | exact T3 | reflexivity]. }
  destruct Hs1 as (S1 & S2 & S3 & S4 & S5 & S6 & S7 & S8 & S9 & S10).
  clearbody s1.
  assert (Hlook : lookupTimer (nextHandle s) (timers s1)
                  = Some ArmingTimeout).
  { rewrite S8, B2. apply lookupTimer_app_fresh.
    apply (lookupTimer_above _ (nextHandle s)); [exact Hhandles|].
    apply Pos.le_refl. }
  split; [unfold serviceState; rewrite S1, S2, S3; reflexivity|].
  split; [unfold committed; rewrite S1, S2, S3, S4, S5, S6; auto|].
  split; [exact S7|]. split; [exact Hlook|].
  split; [rewrite S10; exact Hlog|].
  unfold fireTimer. rewrite Hlook.
  assert (Hs1' : committed (clearTimer (nextHandle s) s1)
                 /\ serviceState (clearTimer (nextHandle s) s1) = Arming
                 /\ isServiceActive (clearTimer (nextHandle s) s1) = true
                 /\ platform (clearTimer (nextHandle s) s1) = platform s).
  { unfold committed, serviceState, clearTimer.
    cbn [isAlarmPlayingRef isAlarmPlaying isServiceActiveRef isServiceActive
         isArmingRef isArming platform set_timers].
    rewrite S1, S2, S3, S4, S5, S6, S9, B4. auto. }
  destruct Hs1' as (Hc' & Ha' & Hw' & Hp').
  pose proof (activation_after_arming _ Hc' Ha' Hw') as Hact.
  cbv zeta in Hact. rewrite Hp' in Hact. exact Hact.
Qed.

Lemma arming_then_activation_witness :
  committed (initialApp examplePhone 1000)
  /\ serviceState (initialApp examplePhone 1000) = Inactive
  /\ handlesBelowNext (initialApp examplePhone 1000) = true
  /\ activationLogCleanup (initialApp examplePhone 1000) = None
  /\ serviceState
       (run [TimerFires (nextHandle (initialApp examplePhone 1000)); Commit]
          (run [MainButtonClick; Commit] (initialApp examplePhone 1000)))
     = Active
  /\ listeners
       (run [TimerFires (nextHandle (initialApp exampleGuardedPhone 1000));
             Commit]
          (run [MainButtonClick; Commit]
             (initialApp exampleGuardedPhone 1000)))
     = availableSensors (platform (initialApp exampleGuardedPhone 1000))
  /\ availableSensors (platform (initialApp exampleGuardedPhone 1000))
     = [ProximityLegacy; AmbientLight].
Proof.
  assert (Hc : committed (initialApp examplePhone 1000))
    by (vm_compute; auto).
  assert (Hi : serviceState (initialApp examplePhone 1000) = Inactive)
    by reflexivity.
  assert (Hh : handlesBelowNext (initialApp examplePhone 1000) = true)
    by reflexivity.
  assert (Hn : activationLogCleanup (initialApp examplePhone 1000) = None)
    by reflexivity.
  assert (Hc' : committed (initialApp exampleGuardedPhone 1000))
    by (vm_compute; auto).
  assert (Hi' : serviceState (initialApp exampleGuardedPhone 1000)
                = Inactive) by reflexivity.
  assert (Hh' : handlesBelowNext (initialApp exampleGuardedPhone 1000)
                = true) by reflexivity.
  assert (Hn' : activationLogCleanup (initialApp exampleGuardedPhone 1000)
                = None) by reflexivity.
  split; [exact Hc|]. split; [exact Hi|]. split; [exact Hh|].
  split; [exact Hn|].
  split; [exact (proj1 (proj2 (proj2 (proj2 (proj2 (proj2
            (arming_then_activation (initialApp examplePhone 1000)
               Hc Hi Hh Hn)))))))|].
  split; [|vm_compute; reflexivity].
  exact (proj1 (proj2 (proj2 (proj2 (proj2 (proj2 (proj2 (proj2
           (arming_then_activation (initialApp exampleGuardedPhone 1000)
              Hc' Hi' Hh' Hn'))))))))).
Defined.

(** ** An alarm raised without running audio *)

Lemma silent_siren (s t : App) : siren t = siren s -> silent s -> silent t.
Proof.
  unfold siren, silent, intervals. intros H.
  injection H as _ Hp Ht. rewrite Hp, Ht. auto.
Qed.

Lemma silent_setIsAlarmPlaying (v : bool) (s : App) :
  silent s -> silent (setIsAlarmPlaying v s).
Proof. intros H. exact H. Qed.

Lemma silent_queue (h : positive) (t : Timer) (s : App) :
  t <> AlarmInterval -> silent s ->
  silent (set_timers (timers s ++ [(h, t)]) s).
Proof.
  intros Hneq [Hp Hi]. split; [exact Hp|].
  unfold intervals in *. cbn [timers set_timers].
  rewrite filter_app, Hi. cbn [filter isAlarmInterval snd].
  destruct t; try contradiction; reflexivity.
Qed.

Lemma silent_clearTimer (h : positive) (s : App) :
  silent s -> silent (clearTimer h s).
Proof. exact (silent_clearTimerRef (Some h) s). Qed.

Ltac silent_peel :=
  cbv zeta;
  repeat match goal with
         | |- silent _ => assumption
         | |- silent (match ?x with _ => _ end) => destruct x
         | |- silent (setIsAlarmPlaying _ _) => apply silent_setIsAlarmPlaying
         | |- silent (clearTimerRef _ _) => apply silent_clearTimerRef
         | |- silent (clearTimer _ _) => apply silent_clearTimer
         | |- silent (set_timers (timers _ ++ [(_, _)]) _) =>
             apply silent_queue; [discriminate|]
         | |- silent (?f ?t) =>
             apply (silent_siren t); [solve [auto 1 with siren_db nocore]|]
         | |- silent (?f _ ?t) =>
             apply (silent_siren t); [solve [auto 1 with siren_db nocore]|]
         | |- silent (?f _ _ ?t) =>
             apply (silent_siren t); [solve [auto 1 with siren_db nocore]|]
         | |- silent (?f _ _ _ ?t) =>
             apply (silent_siren t); [solve [auto 1 with siren_db nocore]|]
         end.

Lemma siren_startSensor (kind : SensorKind) (logText name : string)
  (s : App) :
  siren (startSensor kind logText name s) = siren s.
Proof.
  unfold startSensor, addSupportedSensor, addLogEntry.
  cbn [supportedSensors setLogs set_listeners].
  destruct (existsb _ _); reflexivity.
Qed.

#[local] Hint Resolve siren_startSensor : siren_db.

Lemma silent_sensorEffects (s : App) :
  silent s -> silent (sensorEffects s).
Proof. intros Hs. unfold sensorEffects, tryStartSensor. silent_peel. Qed.

Lemma silent_commit (s : App) : silent s -> silent (commit s).
Proof.
  intros Hs. rewrite commit_cases.
  destruct (flagsChanged s); [|destruct (volumeChanged s)].
  - assert (Hy : silent (mirrorEffects
                           (sensorCleanups
                              (clearTimerRef (activationLogCleanup s)
                                 (set_renderedVolume (alarmVolume s) s))))).
    { unfold mirrorEffects, sensorCleanups. silent_peel. }
    set (y := mirrorEffects _) in *. clearbody y.
    assert (Hx : silent (activationEffect y)).
    { unfold activationEffect, setTimer. cbv beta iota zeta. silent_peel. }
    apply silent_sensorEffects, Hx.
  - apply silent_sensorEffects.
    unfold mirrorEffects, sensorCleanups. silent_peel.
  - unfold mirrorEffects. silent_peel.
Qed.

Lemma silent_adjustVolume (delta : float) (s : App) :
  silent s -> silent (adjustVolume delta s).
Proof.
  intros Hs. unfold adjustVolume. cbv zeta.
  apply (silent_siren
           (match gainNodeRef s, audioContextRef s with
            | Some gainNode, Some running =>
                setGain gainNode
                  (mathMax 0 (mathMin 1 (alarmVolume s + delta))) s
            | _, _ => s
            end)); [reflexivity|].
  destruct (gainNodeRef s); [|exact Hs].
  destruct (audioContextRef s) as [[]|]; try exact Hs.
  destruct Hs as [Hp Hi]. unfold silent, intervals, setGain.
  cbn [playing timers set_playing]. rewrite Hp. split; [reflexivity|exact Hi].
Qed.

Lemma muted_ignores (s : App) : muted s -> ignoresReadings s = true.
Proof.
  intros (Href & _). unfold ignoresReadings. rewrite Href.
  apply orb_true_iff. left. apply orb_true_r.
Qed.

Lemma muted_step (e : Event) (s : App) :
  e <> MainButtonClick -> muted s -> muted (step e s).
Proof.
  intros He Hm. pose proof (muted_ignores s Hm) as Hgate.
  pose proof Hm as (Href & Hflag & Hs).
  assert (Hsetters : forall t, isAlarmPlayingRef t = isAlarmPlayingRef s ->
                               isAlarmPlaying t = isAlarmPlaying s ->
                               silent t -> muted t).
  { intros t H1 H2 H3. split; [rewrite H1; exact Href|].
    split; [rewrite H2; exact Hflag | exact H3]. }
  assert (Hclick : forall disabled handler,
             control (handler s) = control s -> silent (handler s) ->
             muted (clickOn disabled handler s)).
  { intros disabled handler Hc Hsil. unfold clickOn.
    destruct disabled; [exact Hm|].
    pose proof (getAudioContext_control (handler s)) as Hg.
    rewrite Hc in Hg.
    apply Hsetters;
      [exact (proj2 (proj2 (control_mirrors _ _ Hg)))
      |exact (proj2 (proj2 (control_flags _ _ Hg)))|].
    exact (silent_siren _ _ (hushed_getAudioContext (handler s)) Hsil). }
  destruct e as [ms| | | |h|o| |i coords|i errorText|acc|sensor|near
                |value max|v|v|sensor|v|v| | | |kind error];
    cbn [step]; unfold deliver;
    try (destruct (attached _ s); [|exact Hm]).
  - apply Hsetters; [reflexivity..|silent_peel].
  - destruct (commit_mirrors s) as (_ & _ & Hmir).
    destruct (commit_flags s) as (_ & _ & Hf).
    split; [rewrite Hmir; exact Hflag|]. split; [rewrite Hf; exact Hflag|].
    apply silent_commit, Hs.
  - contradiction He; reflexivity.
  - apply Hclick; [reflexivity|unfold clearLogs; silent_peel].
  - unfold fireTimer.
    destruct (lookupTimer h (timers s)) as [[]|] eqn:Hlook; [| | |exact Hm].
    + unfold armingTimeoutCallback.
      destruct (negb (isServiceActiveRef (clearTimer h s))
                || negb (isArmingRef (clearTimer h s)))%bool;
        (apply Hsetters; [reflexivity..|silent_peel]).
    + destruct Hs as [_ Hi].
      contradiction (lookupTimer_interval h _ Hlook Hi).
    + unfold activationLogCallback.
      apply Hsetters; [reflexivity..|silent_peel].
  - assert (Hstop : silent (stopOscillator o s)).
    { destruct Hs as [Hp Hi]. unfold silent, intervals, stopOscillator.
      cbn [playing timers set_playing]. rewrite Hp. split; [reflexivity|].
      exact Hi. }
    unfold oscillatorEnded. cbv zeta.
    destruct (oscillatorRef (stopOscillator o s)) as [o'|];
      [destruct (Pos.eqb o' o)|];
      (apply Hsetters; [reflexivity..|silent_peel]).
  - destruct (audioContextRef s) as [[]|];
      (apply Hsetters; [reflexivity..|silent_peel]).
  - unfold geolocationSuccess.
    destruct (nth_error (geolocationPending s) i);
      (apply Hsetters; [reflexivity..|silent_peel]).
  - unfold geolocationError.
    destruct (nth_error (geolocationPending s) i);
      (apply Hsetters; [reflexivity..|silent_peel]).
  - unfold motionHandlerInternal. rewrite Hgate. exact Hm.
  - unfold gyroscopeOnReading. rewrite Hgate. exact Hm.
  - unfold proximityOnReading. rewrite Hgate. exact Hm.
  - unfold proximityEventHandler. rewrite Hgate. exact Hm.
  - unfold lightOnActivate.
    destruct v; (apply Hsetters; [reflexivity..|silent_peel]).
  - unfold lightOnReading. rewrite Hgate. exact Hm.
  - unfold magnetometerOnReading. rewrite Hgate. exact Hm.
  - unfold barometerOnActivate.
    destruct v; (apply Hsetters; [reflexivity..|silent_peel]).
  - unfold barometerOnReading. rewrite Hgate. exact Hm.
  - apply Hclick; [apply adjustVolume_frame | apply silent_adjustVolume, Hs].
  - apply Hclick; [apply adjustVolume_frame | apply silent_adjustVolume, Hs].
  - apply Hclick; [reflexivity | exact Hs].
  - unfold sensorOnError, gyroscopeOnError, proximityOnError, lightOnError,
      magnetometerOnError, barometerOnError.
    destruct kind; try exact Hm;
      (apply Hsetters; [reflexivity..|silent_peel]).
Qed.

Lemma muted_run (events : list Event) (s : App) :
  ~ In MainButtonClick events -> muted s -> muted (run events s).
Proof.
  revert s. induction events as [|e events IH]; intros s Hno Hm; [exact Hm|].
  cbn [run fold_left]. apply IH.
  - intros Hin. apply Hno. right. exact Hin.
  - apply muted_step; [|exact Hm]. intros ->. apply Hno. left. reflexivity.
Qed.

(** What [getAudioContext] returns is decided by the stored context and
    the device. *)
Lemma getAudioContext_fst (s t : App) :
  audioContextRef t = audioContextRef s -> platform t = platform s ->
  fst (getAudioContext t) = fst (getAudioContext s).
Proof.
  intros Hr Hp. unfold getAudioContext. rewrite Hr, Hp.
  destruct (audioContextRef s); [reflexivity|].
  destruct (audioContextCtor _); reflexivity.
Qed.

Lemma startAlarmSound_without_audio (s : App) :
  fst (getAudioContext s) <> Some running -> silent s ->
  silent (startAlarmSound s).
Proof.
  intros Haudio Hs. unfold startAlarmSound. cbv zeta.
  assert (Hs0 : silent (clearTimerRef (alarmIntervalRef s) s))
    by (apply silent_clearTimerRef, Hs).
  assert (Ha0 : fst (getAudioContext (clearTimerRef (alarmIntervalRef s) s))
                <> Some running).
  { rewrite (getAudioContext_fst s); [exact Haudio| |];
      unfold clearTimerRef; destruct (alarmIntervalRef s); reflexivity. }
  set (s0 := clearTimerRef (alarmIntervalRef s) s) in *. clearbody s0.
  pose proof (silent_siren _ _ (hushed_getAudioContext s0) Hs0) as Hs'.
  destruct (getAudioContext s0) as [ctx s']. cbn [fst snd] in Ha0, Hs'.
  destruct ctx as [[]|]; try (contradiction Ha0; reflexivity); silent_peel.
Qed.

(** X19: a detection accepted while the audio context is not running
    (suspended, or not available) raises the alarm without a sound: the
    alarm shows, but no oscillator plays and no repeat timer is scheduled.
    On a device whose browser does not ask for the motion permission, once
    the state is committed the siren stays silent whatever happens (clicks
    on the clear and volume buttons and elsewhere on the page, commits,
    timers, ends of bursts, position answers, readings and errors of the
    sensors), the audio context resuming included, until the main button is
    clicked. *)
Theorem alarm_without_running_audio_stays_silent
  (src : string) (s : App) (events : list Event)
  (Hprompt : motionNeedsPermission (platform s) = false)
  (Href : isAlarmPlayingRef s = false)
  (Hsilent : silent s)
  (Haudio : fst (getAudioContext s) <> Some running)
  (Hnoclick : ~ In MainButtonClick events) :
  let s' := triggerAlarm src s in
  let sN := run events (commit s') in
  isAlarmPlaying s' = true
  /\ playing s' = [] /\ intervals s' = []
  /\ isAlarmPlaying sN = true
  /\ playing sN = [] /\ intervals sN = [].
Proof.
  cbv zeta.
  pose proof (triggerAlarm_isAlarmPlaying src s Href) as Hflag.
  assert (Hstart : silent (startAlarmSound (setIsAlarmPlaying true s))).
  { apply startAlarmSound_without_audio.
    - rewrite (getAudioContext_fst s); [exact Haudio | reflexivity..].
    - apply silent_setIsAlarmPlaying, Hsilent. }
  assert (Hs' : silent (triggerAlarm src s)).
  { unfold triggerAlarm. rewrite Href. cbn [negb].
    set (s1 := startAlarmSound (setIsAlarmPlaying true s)) in *.
    clearbody s1. silent_peel. }
  set (s' := triggerAlarm src s) in *. clearbody s'.
  assert (Hm : muted (commit s')).
  { destruct (commit_mirrors s') as (_ & _ & Hmir).
    destruct (commit_flags s') as (_ & _ & Hf).
    split; [rewrite Hmir; exact Hflag|]. split; [rewrite Hf; exact Hflag|].
    apply silent_commit, Hs'. }
  destruct (muted_run events _ Hnoclick Hm) as (_ & HflagN & HpN & HiN).
  destruct Hs' as [Hp Hi]. auto 10.
Qed.

(** The active phone whose audio context is suspended: the gyroscope sees a
    turn; the browser then resumes the audio context, the user turns the
    volume up and taps the page, and the gyroscope reports an error. *)
Lemma alarm_without_running_audio_stays_silent_witness :
  motionNeedsPermission (platform exampleSuspendedActive) = false
  /\ isAlarmPlayingRef exampleSuspendedActive = false
  /\ silent exampleSuspendedActive
  /\ fst (getAudioContext exampleSuspendedActive) <> Some running
  /\ ~ In MainButtonClick exampleAfterSilentAlarm
  /\ isAlarmPlaying
       (run exampleAfterSilentAlarm
          (commit (triggerAlarm "Rotacao (Giroscopio) detectada!"
                     exampleSuspendedActive))) = true
  /\ playing
       (run exampleAfterSilentAlarm
          (commit (triggerAlarm "Rotacao (Giroscopio) detectada!"
                     exampleSuspendedActive))) = [].
Proof.
  assert (Hp : motionNeedsPermission (platform exampleSuspendedActive)
               = false) by (vm_compute; reflexivity).
  assert (Hr : isAlarmPlayingRef exampleSuspendedActive = false)
    by (vm_compute; reflexivity).
  assert (Hs : silent exampleSuspendedActive)
    by (split; vm_compute; reflexivity).
  assert (Ha : fst (getAudioContext exampleSuspendedActive) <> Some running)
    by (vm_compute; discriminate).
  assert (Hn : ~ In MainButtonClick exampleAfterSilentAlarm).
  { unfold exampleAfterSilentAlarm. cbn [In].
    intros H. repeat destruct H as [H | H]; try discriminate H. exact H. }
  pose proof (alarm_without_running_audio_stays_silent
                "Rotacao (Giroscopio) detectada!" exampleSuspendedActive
                exampleAfterSilentAlarm Hp Hr Hs Ha Hn) as H.
  cbv zeta in H.
  split; [exact Hp|]. split; [exact Hr|]. split; [exact Hs|].
  split; [exact Ha|]. split; [exact Hn|].
  split; [exact (proj1 (proj2 (proj2 (proj2 H))))|].
  exact (proj1 (proj2 (proj2 (proj2 (proj2 H))))).
Defined.

(** ** The activation entry *)

Lemma startSensor_desk (kind : SensorKind) (logText name : string)
  (s : App) :
  desk (startSensor kind logText name s) = desk s.
Proof.
  unfold startSensor, addSupportedSensor, addLogEntry.
  cbn [supportedSensors setLogs set_listeners].
  destruct (existsb _ _); reflexivity.
Qed.

Lemma tryStartSensor_desk (fails : option SensorError) (kind : SensorKind)
  (errorLabel logText name : string) (s : App) :
  desk (tryStartSensor fails kind errorLabel logText name s) = desk s.
Proof.
  destruct fails; cbn [tryStartSensor];
    [reflexivity | apply startSensor_desk].
Qed.

Lemma sensorEffects_desk (s : App) : desk (sensorEffects s) = desk s.
Proof.
  unfold sensorEffects.
  destruct (isServiceActive s && negb (isArming s))%bool; [|reflexivity].
  cbv zeta. generalize (platform s); intros p.
  destruct (hasDeviceMotion p), (motionNeedsPermission p), (hasGyroscope p),
    (hasProximitySensor p), (hasDeviceProximity p),
    (hasAmbientLightSensor p), (hasMagnetometer p), (hasBarometer p);
    repeat first [rewrite tryStartSensor_desk | rewrite startSensor_desk];
    reflexivity.
Qed.

Lemma startSensor_volumes (kind : SensorKind) (logText name : string)
  (s : App) :
  volumes (startSensor kind logText name s) = volumes s.
Proof.
  unfold startSensor, addSupportedSensor, addLogEntry.
  cbn [supportedSensors setLogs set_listeners].
  destruct (existsb _ _); reflexivity.
Qed.

Lemma tryStartSensor_volumes (fails : option SensorError)
  (kind : SensorKind) (errorLabel logText name : string) (s : App) :
  volumes (tryStartSensor fails kind errorLabel logText name s) = volumes s.
Proof.
  destruct fails; cbn [tryStartSensor];
    [reflexivity | apply startSensor_volumes].
Qed.

Lemma sensorEffects_volumes (s : App) :
  volumes (sensorEffects s) = volumes s.
Proof.
  unfold sensorEffects.
  destruct (isServiceActive s && negb (isArming s))%bool; [|reflexivity].
  cbv zeta. generalize (platform s); intros p.
  destruct (hasDeviceMotion p), (motionNeedsPermission p), (hasGyroscope p),
    (hasProximitySensor p), (hasDeviceProximity p),
    (hasAmbientLightSensor p), (hasMagnetometer p), (hasBarometer p);
    repeat first [rewrite tryStartSensor_volumes
                 | rewrite startSensor_volumes];
    reflexivity.
Qed.

Lemma startSensor_supportedSensors (kind : SensorKind)
  (logText name : string) (s : App) :
  supportedSensors (startSensor kind logText name s)
  = withSensor name (supportedSensors s).
Proof.
  unfold startSensor, addSupportedSensor, addLogEntry, withSensor.
  cbn [supportedSensors setLogs set_listeners].
  destruct (existsb _ _); reflexivity.
Qed.

Lemma tryStartSensor_supportedSensors (fails : option SensorError)
  (kind : SensorKind) (errorLabel logText name : string) (s : App) :
  supportedSensors (tryStartSensor fails kind errorLabel logText name s)
  = match fails with
    | None => withSensor name (supportedSensors s)
    | Some _ => supportedSensors s
    end.
Proof.
  destruct fails; cbn [tryStartSensor];
    [reflexivity | apply startSensor_supportedSensors].
Qed.

Lemma generic_stage_supportedSensors (has : bool)
  (fails : option SensorError) (kind : SensorKind)
  (errorLabel logText name : string) (s : App) :
  supportedSensors (if has
                    then tryStartSensor fails kind errorLabel logText name s
                    else s)
  = if match fails with None => has | Some _ => false end
    then withSensor name (supportedSensors s)
    else supportedSensors s.
Proof.
  destruct has; [rewrite tryStartSensor_supportedSensors|];
    destruct fails; reflexivity.
Qed.

Lemma motion_stage_supportedSensors (has prompt : bool)
  (logText name : string) (s : App) :
  supportedSensors (if has
                    then if prompt then s
                         else startSensor Accelerometer logText name s
                    else s)
  = if (has && negb prompt)%bool
    then withSensor name (supportedSensors s)
    else supportedSensors s.
Proof.
  destruct has, prompt; cbn [andb negb];
    rewrite ?startSensor_supportedSensors; reflexivity.
Qed.

Lemma proximity_stage_supportedSensors (has legacy : bool)
  (fails : option SensorError)
  (errorLabel logText name logText' name' : string) (s : App) :
  supportedSensors
    (if has
     then tryStartSensor fails Proximity errorLabel logText name s
     else if legacy
          then startSensor ProximityLegacy logText' name' s
          else s)
  = if has
    then match fails with
         | None => withSensor name (supportedSensors s)
         | Some _ => supportedSensors s
         end
    else if legacy then withSensor name' (supportedSensors s)
         else supportedSensors s.
Proof.
  destruct has, legacy;
    rewrite ?tryStartSensor_supportedSensors, ?startSensor_supportedSensors;
    reflexivity.
Qed.

Lemma sensorEffects_supportedSensors (s : App) :
  isServiceActive s = true -> isArming s = false ->
  supportedSensors s = [] ->
  supportedSensors (sensorEffects s)
  = map sensorName (availableSensors (platform s)).
Proof.
  intros Hsvc Harm Hnone. unfold sensorEffects, availableSensors.
  rewrite Hsvc, Harm. cbn [negb andb]. cbv zeta.
  generalize (platform s); intros p.
  rewrite !generic_stage_supportedSensors, !proximity_stage_supportedSensors,
    !generic_stage_supportedSensors, !motion_stage_supportedSensors, Hnone.
  cbn [filter available].
  destruct (hasProximitySensor p), (hasDeviceProximity p),
    (proximitySensorFails p);
    cbn [negb andb];
    destruct (hasDeviceMotion p && negb (motionNeedsPermission p))%bool,
      (match gyroscopeFails p with
       | None => hasGyroscope p | Some _ => false end),
      (match ambientLightSensorFails p with
       | None => hasAmbientLightSensor p | Some _ => false end),
      (match magnetometerFails p with
       | None => hasMagnetometer p | Some _ => false end),
      (match barometerFails p with
       | None => hasBarometer p | Some _ => false end);
    reflexivity.
Qed.

(** The activation effect on the commit in which arming completes. *)
Lemma activationEffect_schedules (s : App) :
  isServiceActive s = true -> isArming s = false ->
  prevIsArmingRef s = Some true -> hasLoggedActivationRef s = false ->
  activationEffect s
  = set_activationLogCleanup (Some (nextHandle s))
      (set_nextHandle (Pos.succ (nextHandle s))
         (set_timers (timers s ++ [(nextHandle s, ActivationLogTimeout)])
            (set_activationLogCleanup None
               (set_prevIsArmingRef (Some false) s)))).
Proof.
  intros Hsvc Harm Hprev Hlogged. unfold activationEffect, setTimer.
  cbv zeta.
  cbn [isServiceActive isArming hasLoggedActivationRef set_prevIsArmingRef
       set_activationLogCleanup timers nextHandle].
  rewrite Hsvc, Harm, Hprev, Hlogged. reflexivity.
Qed.

Lemma handlesBelowNext_lookup (s : App) :
  handlesBelowNext s = true -> lookupTimer (nextHandle s) (timers s) = None.
Proof.
  intros H. apply (lookupTimer_above _ (nextHandle s)); [exact H|].
  apply Pos.le_refl.
Qed.

Lemma objectIs_refl (a : float) : objectIs a a = true.
Proof.
  unfold objectIs, is_nan. destruct (a =? a)%float; cbn [negb andb].
  - apply Bool.eqb_reflx.
  - reflexivity.
Qed.

Lemma commit_unchanged (s : App) :
  isServiceActiveRef s = isServiceActive s -> isArmingRef s = isArming s ->
  renderedVolume s = alarmVolume s ->
  commit s = mirrorEffects (set_renderedVolume (alarmVolume s) s).
Proof.
  intros Hsvc Harm Hvol. rewrite commit_cases.
  unfold flagsChanged, volumeChanged. rewrite Hsvc, Harm, Hvol.
  rewrite !Bool.eqb_reflx, objectIs_refl. reflexivity.
Qed.

Lemma activationLogCallback_message (s : App) :
  option_map message (hd_error (logs (activationLogCallback s)))
  = Some (activationMessage (supportedSensorsRef s)).
Proof.
  unfold activationLogCallback, activationMessage. cbv zeta.
  destruct (supportedSensorsRef s); reflexivity.
Qed.

(** X20: the activation entry names the sensors the mirror ref holds when
    its timer fires.  From a freshly armed state, the arming callback and
    the commit that follows schedule the entry and register the sensors of
    the device that start (those whose handler the effects attach: a sensor
    whose start throws, and the accelerometer where the motion permission
    has to be asked for, are not registered by the effects); if the next
    commit comes before the timer, the entry lists those sensors by name,
    in the order of the effects; if the timer comes first, the mirror is
    still empty and the entry names the default text instead, whatever
    sensors are active. *)
Theorem activation_entry_lists_mirrored_sensors (s : App)
  (Harmed : freshlyArmed s) :
  let active := commit (armingTimeoutCallback s) in
  let names := map sensorName (availableSensors (platform s)) in
  supportedSensors active = names
  /\ lookupTimer (nextHandle s) (timers active) = Some ActivationLogTimeout
  /\ option_map message
       (hd_error (logs (run [Commit; TimerFires (nextHandle s)] active)))
     = Some (activationMessage names)
  /\ option_map message
       (hd_error (logs (run [TimerFires (nextHandle s)] active)))
     = Some (activationMessage []).
Proof.
  destruct Harmed as ((Hplay & Hsvc & Harm) & Hstate & Hwanted & Hprev
                      & Hlogged & Hnone & Hclean & Hhandles).
  assert (Hflags : isAlarmPlaying s = false /\ isArming s = true).
  { unfold serviceState in Hstate.
    destruct (isAlarmPlaying s), (isArming s), (isServiceActive s);
      try discriminate Hstate; auto. }
  destruct Hflags as [Hquiet Hisarming].
  rewrite Hwanted in Hsvc. rewrite Hisarming in Harm.
  pose proof (handlesBelowNext_lookup s Hhandles) as Hfresh.
  cbv zeta. unfold armingTimeoutCallback. rewrite Hsvc, Harm.
  cbn [negb orb]. cbv zeta.
  set (u := setErrorMessage _ _).
  assert (Hu : isServiceActive u = true /\ isArming u = false
               /\ isServiceActiveRef u = true /\ isArmingRef u = true
               /\ prevIsArmingRef u = Some true
               /\ hasLoggedActivationRef u = false
               /\ supportedSensors u = [] /\ activationLogCleanup u = None
               /\ timers u = timers s /\ nextHandle u = nextHandle s
               /\ platform u = platform s).
  { unfold u. cbn. auto 12. }
  destruct Hu as (U1 & U2 & U3 & U4 & U5 & U6 & U7 & U8 & U9 & U10 & U11).
  clearbody u.
  (* the commit in which arming completes *)
  rewrite commit_cases. unfold flagsChanged.
  rewrite U1, U2, U3, U4, U8.
  cbn [Bool.eqb negb orb clearTimerRef].
  set (y := mirrorEffects
              (sensorCleanups (set_renderedVolume (alarmVolume u) u))).
  assert (Hy : isServiceActive y = true /\ isArming y = false
               /\ isServiceActiveRef y = true /\ isArmingRef y = false
               /\ prevIsArmingRef y = Some true
               /\ hasLoggedActivationRef y = false
               /\ supportedSensors y = [] /\ supportedSensorsRef y = []
               /\ timers y = timers s /\ nextHandle y = nextHandle s
               /\ platform y = platform s).
  { rewrite <- U9, <- U10, <- U11. unfold y.
    repeat match goal with |- _ /\ _ => split end;
      first [exact U1 | exact U2 | exact U5 | exact U6 | exact U7
            | reflexivity]. }
  assert (Yv : renderedVolume y = alarmVolume y) by reflexivity.
  destruct Hy as (Y1 & Y2 & Y3 & Y4 & Y5 & Y6 & Y7 & Y8 & Y9 & Y10 & Y11).
  clearbody y.
  rewrite (activationEffect_schedules y Y1 Y2 Y5 Y6).
  set (x := set_activationLogCleanup _ _).
  assert (Hx : isServiceActive x = true /\ isArming x = false
               /\ isServiceActiveRef x = true /\ isArmingRef x = false
               /\ supportedSensors x = [] /\ platform x = platform s
               /\ desk x
                  = ((timers s ++ [(nextHandle s, ActivationLogTimeout)])%list,
                     Pos.succ (nextHandle s), [], false,
                     Some (nextHandle s))).
  { unfold x, desk.
    cbn [isServiceActive isArming isServiceActiveRef isArmingRef
         supportedSensors platform timers nextHandle
         supportedSensorsRef hasLoggedActivationRef activationLogCleanup
         set_activationLogCleanup set_nextHandle set_timers
         set_prevIsArmingRef].
    rewrite Y1, Y2, Y3, Y4, Y6, Y7, Y8, Y9, Y10, Y11. auto 8. }
  assert (Xv : renderedVolume x = alarmVolume x) by exact Yv.
  destruct Hx as (X1 & X2 & X3 & X4 & X5 & X6 & X7). clearbody x.
  pose proof (sensorEffects_volumes x) as Hvol.
  unfold volumes in Hvol. injection Hvol as V1 V2.
  pose proof (sensorEffects_supportedSensors x X1 X2 X5) as Hnames.
  rewrite X6 in Hnames.
  pose proof (sensorEffects_desk x) as Hdesk. rewrite X7 in Hdesk.
  pose proof (control_flags _ _ (sensorEffects_control x)) as (A1 & A2 & _).
  pose proof (control_mirrors _ _ (sensorEffects_control x)) as (A3 & A4 & _).
  rewrite X1 in A1. rewrite X2 in A2. rewrite X3 in A3. rewrite X4 in A4.
  set (active := sensorEffects x) in *. clearbody active.
  unfold desk in Hdesk. injection Hdesk as D1 D2 D3 D4 D5.
  assert (Hlook : lookupTimer (nextHandle s) (timers active)
                  = Some ActivationLogTimeout).
  { rewrite D1. apply lookupTimer_app_fresh, Hfresh. }
  split; [exact Hnames|]. split; [exact Hlook|]. split.
  - cbn [run fold_left step].
    rewrite (commit_unchanged active)
      by (rewrite ?A1, ?A2, ?A3, ?A4, ?V1, ?V2; first [reflexivity | exact Xv]).
    unfold fireTimer.
    assert (Ht : timers (mirrorEffects
                           (set_renderedVolume (alarmVolume active) active))
                 = timers active)
      by reflexivity.
    rewrite Ht, Hlook, activationLogCallback_message.
    assert (Hr : supportedSensorsRef
                   (clearTimer (nextHandle s)
                      (mirrorEffects
                         (set_renderedVolume (alarmVolume active) active)))
                 = supportedSensors active) by reflexivity.
    rewrite Hr, Hnames. reflexivity.
  - cbn [run fold_left step]. unfold fireTimer.
    rewrite Hlook, activationLogCallback_message.
    assert (Hr : supportedSensorsRef (clearTimer (nextHandle s) active)
                 = supportedSensorsRef active) by reflexivity.
    rewrite Hr, D3. reflexivity.
Qed.

(** The phone of the examples, with its six sensors, and the phone whose
    gyroscope refuses to start. *)
Lemma activation_entry_lists_mirrored_sensors_witness :
  freshlyArmed exampleArming
  /\ option_map message
       (hd_error
          (logs (run [Commit; TimerFires (nextHandle exampleArming)]
                   (commit (armingTimeoutCallback exampleArming)))))
     = Some (activationMessage
               (map sensorName (availableSensors (platform exampleArming))))
  /\ freshlyArmed exampleGuardedArming
  /\ supportedSensors (commit (armingTimeoutCallback exampleGuardedArming))
     = map sensorName (availableSensors (platform exampleGuardedArming))
  /\ map sensorName (availableSensors (platform exampleGuardedArming))
     = ["Proximidade (legado)"; "Luminosidade"].
Proof.
  assert (Ha : freshlyArmed exampleArming).
  { unfold freshlyArmed, committed.
    repeat match goal with |- _ /\ _ => split end; vm_compute; reflexivity. }
  assert (Hg : freshlyArmed exampleGuardedArming).
  { unfold freshlyArmed, committed.
    repeat match goal with |- _ /\ _ => split end; vm_compute; reflexivity. }
  split; [exact Ha|].
  split; [exact (proj1 (proj2 (proj2 (activation_entry_lists_mirrored_sensors
                                        exampleArming Ha))))|].
  split; [exact Hg|].
  split; [|vm_compute; reflexivity].
  exact (proj1 (activation_entry_lists_mirrored_sensors
                  exampleGuardedArming Hg)).
Defined.
